(** * The WhatsApp inbox of [app.py]: chat-id normalization, the gateway
    client, the conversation service and the webhook reconciler.

    The development is a shallow embedding of [src/app.py].  Python values
    that come out of a JSON body keep their dynamic types ([json]); the
    SQLAlchemy session is a pair of stores (committed and working) threaded
    through a small state-and-exception monad; [datetime.utcnow()] reads a
    clock that is part of the environment. *)

From Stdlib Require Import ZArith NArith List Bool Lia String Ascii.
From Stdlib Require Import Sorted Permutation.
From Stdlib Require Decimal DecimalPos.
Import ListNotations.

Set Warnings "-register-all".

(** ** Python strings *)

(** A Python [str] is a sequence of Unicode code points. *)
Definition pystr := list N.

(** The code points of an ASCII literal. *)
Definition py (s : string) : pystr := map N_of_ascii (list_ascii_of_string s).

Fixpoint str_eqb (a b : pystr) : bool :=
  match a, b with
  | [], [] => true
  | x :: a', y :: b' => N.eqb x y && str_eqb a' b'
  | _, _ => false
  end.

(** [c in s] for a single code point [c]. *)
Definition contains (c : N) (s : pystr) : bool := existsb (N.eqb c) s.

Definition AT : N := 64.

(** The code points U+D800..U+DFFF.  A [str] can hold one on its own
    ([json.loads] accepts the escape of a lone surrogate); UTF-8 has no
    encoding for it. *)
Definition is_surrogate (c : N) : bool := ((55296 <=? c) && (c <=? 57343))%N.

(** [s.encode("utf-8")] succeeds. *)
Definition encodable (s : pystr) : bool := forallb (fun c => negb (is_surrogate c)) s.

(** The decimal writing of an integer, as [str(z)] and SQLite's conversion
    of an INTEGER to TEXT give it. *)
Fixpoint digits (d : Decimal.uint) : pystr :=
  match d with
  | Decimal.Nil => []
  | Decimal.D0 d' => 48%N :: digits d'
  | Decimal.D1 d' => 49%N :: digits d'
  | Decimal.D2 d' => 50%N :: digits d'
  | Decimal.D3 d' => 51%N :: digits d'
  | Decimal.D4 d' => 52%N :: digits d'
  | Decimal.D5 d' => 53%N :: digits d'
  | Decimal.D6 d' => 54%N :: digits d'
  | Decimal.D7 d' => 55%N :: digits d'
  | Decimal.D8 d' => 56%N :: digits d'
  | Decimal.D9 d' => 57%N :: digits d'
  end.

Definition decimal (z : Z) : pystr :=
  match z with
  | Z0 => [48%N]
  | Zpos p => digits (Pos.to_uint p)
  | Zneg p => 45%N :: digits (Pos.to_uint p)
  end.

Fixpoint dropWhile (p : N -> bool) (s : pystr) : pystr :=
  match s with
  | [] => []
  | c :: s' => if p c then dropWhile p s' else s
  end.

(** ** Exceptions and results *)

Inductive value_error := EmptyNumber | NoDigits | YearOutOfRange.

Inductive exn :=
| AttributeError
| TypeError
| ValueError (why : value_error)
| LookupError
| RuntimeError
| IntegrityError
| InterfaceError
| UnicodeEncodeError
| OverflowError
| HTTPError (status_code : Z)
| ConnectionError
| JSONDecodeError
| HTTPException (code : Z).

Inductive result (A : Type) :=
| Ok (a : A)
| Raise (e : exn).
Arguments Ok {A} a.
Arguments Raise {A} e.

(** ** Values decoded from a JSON body *)

(** What [request.get_json] and [response.json()] hand to the code.  JSON
    [null] is Python's [None].  Numbers are the integers; literals with a
    fraction or an exponent (Python floats) are not part of the model. *)
Inductive json :=
| JNull
| JBool (b : bool)
| JInt (z : Z)
| JStr (s : pystr)
| JArr (xs : list json)
| JObj (kv : list (pystr * json)).

(** Python truth value, as tested by [if], [not] and [or]. *)
Definition truthy (v : json) : bool :=
  match v with
  | JNull => false
  | JBool b => b
  | JInt z => negb (z =? 0)%Z
  | JStr s => match s with [] => false | _ => true end
  | JArr xs => match xs with [] => false | _ => true end
  | JObj kv => match kv with [] => false | _ => true end
  end.

(** [a or b] on two values already computed. *)
Definition py_or (a b : json) : json := if truthy a then a else b.

Fixpoint lookup (k : pystr) (kv : list (pystr * json)) : option json :=
  match kv with
  | [] => None
  | (k', v) :: kv' => if str_eqb k k' then Some v else lookup k kv'
  end.

(** [d.get(k, default)]: only a dict has the method. *)
Definition get_or (d : json) (k : pystr) (default : json) : result json :=
  match d with
  | JObj kv => Ok (match lookup k kv with Some v => v | None => default end)
  | _ => Raise AttributeError
  end.

(** [d.get(k)] *)
Definition get (d : json) (k : pystr) : result json := get_or d k JNull.

(** [v == "literal"] *)
Definition is_str (v : json) (lit : pystr) : bool :=
  match v with
  | JStr s => str_eqb s lit
  | _ => false
  end.

(** ** Time *)

(** A naive UTC [datetime], counted in microseconds since the epoch. *)
Definition datetime := Z.

Definition MIN_TIMESTAMP : Z := -62135596800.
Definition MAX_TIMESTAMP : Z := 253402300799.

Definition from_seconds (z : Z) : result datetime :=
  if ((z <? MIN_TIMESTAMP) || (MAX_TIMESTAMP <? z))%Z
  then Raise (ValueError YearOutOfRange)
  else Ok (z * 1000000)%Z.

(** [datetime.utcfromtimestamp(v)]: an integer (or a bool, which is an
    integer) inside years 1..9999; anything else is a [TypeError].  Outside
    the range CPython raises [ValueError], or [OverflowError] or [OSError]
    for the largest magnitudes; the model raises the first, and no view
    catches any of them. *)
Definition utcfromtimestamp (v : json) : result datetime :=
  match v with
  | JInt z => from_seconds z
  | JBool b => from_seconds (if b then 1 else 0)%Z
  | _ => Raise TypeError
  end.

(** ** The persisted schema *)

Inductive sender := customer | agent.

Module Conversation.

Record t := mk {
  id : Z;
  contact_number : pystr;          (* nullable=False *)
  contact_name : option pystr;
  created_at : datetime;
  updated_at : datetime
}.

Definition set_updated_at (c : t) (d : datetime) : t :=
  mk (id c) (contact_number c) (contact_name c) (created_at c) d.

End Conversation.

Module Message.

Record t := mk {
  id : Z;
  conversation_id : Z;
  sender_type : sender;
  message_text : pystr;            (* nullable=False *)
  sent_at : datetime;
  external_id : option pystr
}.

Definition set_sent_at (m : t) (d : datetime) : t :=
  mk (id m) (conversation_id m) (sender_type m) (message_text m) d (external_id m).

End Message.

Record Store := mkStore {
  conversations : list Conversation.t;
  messages : list Message.t
}.

Definition empty_store : Store := mkStore [] [].

(** The value SQLite gives an [INTEGER PRIMARY KEY] on insert: one more
    than the largest in the table. *)
Definition next_id (ids : list Z) : Z := (fold_right Z.max 0 ids + 1)%Z.

(** What [sqlite3] binds as a 64-bit integer. *)
Definition fits_int64 (z : Z) : bool := ((-9223372036854775808 <=? z) && (z <=? 9223372036854775807))%Z.

(** A value of a payload bound to a VARCHAR or TEXT column, in an INSERT or
    in the comparison of a [filter_by]; the result is the text SQLite
    stores or compares with, [None] for NULL.  A string is passed in UTF-8,
    which a lone surrogate does not have.  An integer is bound as such,
    when it fits 64 bits, and the affinity of the column turns it into its
    decimal text; a bool is the integer 1 or 0.  A list or a dict is no
    parameter. *)
Definition bind_text (v : json) : result (option pystr) :=
  match v with
  | JNull => Ok None
  | JStr s => if encodable s then Ok (Some s) else Raise UnicodeEncodeError
  | JInt z => if fits_int64 z then Ok (Some (decimal z)) else Raise OverflowError
  | JBool b => Ok (Some (decimal (if b then 1 else 0)))
  | JArr _ | JObj _ => Raise InterfaceError
  end.

(** [column = value] in a [filter_by]: [None] renders [IS NULL]. *)
Definition column_matches (col value : option pystr) : bool :=
  match col, value with
  | None, None => true
  | Some a, Some b => str_eqb a b
  | _, _ => false
  end.

(** [Conversation.query.filter_by(contact_number=n).first()]: rows are
    scanned in id order. *)
Definition find_conversation (n : option pystr) (s : Store) : option Conversation.t :=
  find (fun c => column_matches (Some (Conversation.contact_number c)) n) (conversations s).

(** [Conversation.query.get(id)] *)
Definition get_conversation (i : Z) (s : Store) : option Conversation.t :=
  find (fun c => (Conversation.id c =? i)%Z) (conversations s).

(** [Message.query.filter_by(external_id=e).first()], scanned in id order
    as well. *)
Definition find_message (e : option pystr) (s : Store) : option Message.t :=
  find (fun m => column_matches (Message.external_id m) e) (messages s).

Definition in_thread (e : option pystr) (cid : Z) (m : Message.t) : bool :=
  column_matches (Message.external_id m) e && (Message.conversation_id m =? cid)%Z.

(** The row of greatest id, [order_by(Message.id.desc()).first()]. *)
Fixpoint greatest (l : list Message.t) : option Message.t :=
  match l with
  | [] => None
  | m :: l' =>
    match greatest l' with
    | Some m' => if (Message.id m <? Message.id m')%Z then Some m' else Some m
    | None => Some m
    end
  end.

(** [Message.query.filter_by(external_id=e, conversation_id=cid)
      .order_by(Message.id.desc()).first()] *)
Definition latest_message (e : option pystr) (cid : Z) (s : Store) : option Message.t :=
  greatest (filter (in_thread e cid) (messages s)).

Definition insert_conversation (c : Conversation.t) (s : Store) : Store :=
  mkStore (conversations s ++ [c]) (messages s).

Definition insert_message (m : Message.t) (s : Store) : Store :=
  mkStore (conversations s) (messages s ++ [m]).

(** [UPDATE conversations SET updated_at = d WHERE id = i] *)
Definition update_updated_at (i : Z) (d : datetime) (s : Store) : Store :=
  mkStore
    (map (fun c => if (Conversation.id c =? i)%Z then Conversation.set_updated_at c d else c)
         (conversations s))
    (messages s).

(** [UPDATE messages SET sent_at = d WHERE id = i] *)
Definition update_sent_at (i : Z) (d : datetime) (s : Store) : Store :=
  mkStore
    (conversations s)
    (map (fun m => if (Message.id m =? i)%Z then Message.set_sent_at m d else m)
         (messages s)).

(** ** The session, the clock and the monad of a request *)

Inductive category := danger | info | success.

(** What [flash] is called with; the wording of the messages is left out. *)
Inductive notice :=
| NumberRequired
| BadNumber (why : value_error)
| AlreadyExists
| InitialSendHTTPError (status_code : Z)
| InitialSendFailed (e : exn)
| Created.

(** [db.session] between two requests holds nothing: [committed] is the
    database, [working] is the database as the open transaction sees it
    (every flushed INSERT and UPDATE applied).  [ticks] counts the readings
    of the clock taken so far. *)
Record World := mkWorld {
  committed : Store;
  working : Store;
  ticks : nat;
  flashes : list (notice * category)
}.

Definition M (A : Type) : Type := World -> result A * World.

Definition ret {A} (a : A) : M A := fun w => (Ok a, w).

Definition bind {A B} (m : M A) (k : A -> M B) : M B :=
  fun w =>
    match m w with
    | (Ok a, w') => k a w'
    | (Raise e, w') => (Raise e, w')
    end.

Definition raise {A} (e : exn) : M A := fun w => (Raise e, w).

(** A computation that touches neither the session nor the clock. *)
Definition lift {A} (r : result A) : M A := fun w => (r, w).

Notation "x <- c1 ;; c2" := (bind c1 (fun x => c2))
  (at level 61, c1 at next level, right associativity).
Notation "c1 ;; c2" := (bind c1 (fun _ => c2))
  (at level 61, right associativity).

(** A [SELECT] inside the transaction. *)
Definition query {A} (q : Store -> A) : M A := fun w => (Ok (q (working w)), w).

(** An [INSERT] or [UPDATE] flushed into the transaction. *)
Definition execute (f : Store -> Store) : M unit :=
  fun w => (Ok tt, mkWorld (committed w) (f (working w)) (ticks w) (flashes w)).

(** [db.session.commit()] *)
Definition commit : M unit :=
  fun w => (Ok tt, mkWorld (working w) (working w) (ticks w) (flashes w)).

(** [db.session.rollback()] *)
Definition rollback : M unit :=
  fun w => (Ok tt, mkWorld (committed w) (committed w) (ticks w) (flashes w)).

Definition flash (n : notice) (c : category) : M unit :=
  fun w => (Ok tt, mkWorld (committed w) (working w) (ticks w) (flashes w ++ [(n, c)])).

(** [db.session.add(Conversation(...)); db.session.flush()].  The column is
    NOT NULL. *)
Definition add_conversation (contact_number contact_name : option pystr)
    (created_at updated_at : datetime) : M Conversation.t :=
  match contact_number with
  | None => raise IntegrityError
  | Some n =>
    i <- query (fun s => next_id (map Conversation.id (conversations s))) ;;
    let c := Conversation.mk i n contact_name created_at updated_at in
    execute (insert_conversation c) ;;
    ret c
  end.

(** [db.session.add(Message(...))], flushed by the commit that follows. *)
Definition add_message (conversation_id : Z) (sender_type : sender)
    (message_text : pystr) (sent_at : datetime) (external_id : option pystr) : M unit :=
  i <- query (fun s => next_id (map Message.id (messages s))) ;;
  execute (insert_message
             (Message.mk i conversation_id sender_type message_text sent_at external_id)).

(** ** Responses *)

Inductive template := index_html | conversation_html | new_conversation_html | error_html.

Inductive body :=
| Jsonify (v : json)
| ErrorJson (status : Z)
| RenderTemplate (name : template)
| Redirect (conversation_id : Z).

Definition response : Type := body * Z.

Definition status_body (status : pystr) : json := JObj [(py "status", JStr status)].

Definition status_detail (status : pystr) (detail : json) : json :=
  JObj [(py "status", JStr status); (py "detail", detail)].

(** [handle_errors]: the registered handler of every exception. *)
Definition handle_errors (json_wanted : bool) (e : exn) : response :=
  let code := match e with HTTPException c => c | _ => 500%Z end in
  if json_wanted then (ErrorJson code, code) else (RenderTemplate error_html, code).

(** ** The gateway *)

Record http_response := mkResponse {
  status_code : Z;
  content_type : option pystr;       (* response.headers.get("content-type") *)
  json_body : option json            (* response.json(), None when it does not parse *)
}.

Inductive post_outcome :=
| Responded (r : http_response)
| Unreachable.                       (* connection error or timeout *)

(** The environment of the process: configuration, network and clock. *)
Record Env := mkEnv {
  GREEN_API_INSTANCE_ID : option pystr;
  GREEN_API_API_TOKEN : option pystr;
  GREEN_API_BASE_URL : pystr;
  post : pystr -> json -> post_outcome;
  clock : nat -> datetime
}.

(** [datetime.utcnow()] *)
Definition utcnow (env : Env) : M datetime :=
  fun w => (Ok (clock env (ticks w)),
            mkWorld (committed w) (working w) (S (ticks w)) (flashes w)).

(** A configuration value as [if] sees it: set and not empty. *)
Definition configured (v : option pystr) : option pystr :=
  match v with
  | Some (c :: s) => Some (c :: s)
  | _ => None
  end.

(** [response.raise_for_status()] *)
Definition raise_for_status (r : http_response) : result http_response :=
  if ((400 <=? status_code r) && (status_code r <? 600))%Z
  then Raise (HTTPError (status_code r))
  else Ok r.

(** The forms of the two POST routes.  Werkzeug decodes the fields from
    UTF-8 and replaces what does not decode, so that a field holds no lone
    surrogate and binds as it is. *)
Record conversation_form := mkConversationForm {
  message : option pystr
}.

Record new_conversation_form := mkNewForm {
  form_contact_number : option pystr;
  form_contact_name : option pystr;
  form_initial_message : option pystr
}.

(** [request.form.get(k) or ""] *)
Definition or_empty (v : option pystr) : pystr :=
  match v with
  | Some s => s
  | None => []
  end.

(** ** A part of the Unicode tables above ASCII

    Superscript and Arabic-Indic digits, and the white space of
    [str.isspace] outside ASCII; used where a property is run on concrete
    strings. *)
Definition sample_isdigit_hi (c : N) : bool :=
  ((c =? 178) || (c =? 179) || (c =? 185) || ((1632 <=? c) && (c <=? 1641)))%N.

Definition sample_isspace_hi (c : N) : bool :=
  ((c =? 133) || (c =? 160) || (c =? 5760) || ((8192 <=? c) && (c <=? 8202))
   || (c =? 8232) || (c =? 8233) || (c =? 8239) || (c =? 8287) || (c =? 12288))%N.

(** Werkzeug's [default_exceptions]. *)
Definition sample_abort_codes (c : Z) : bool :=
  existsb (Z.eqb c)
    [400; 401; 403; 404; 405; 406; 408; 409; 410; 411; 412; 413; 414; 415; 416; 417;
     418; 421; 422; 423; 424; 428; 429; 431; 451; 500; 501; 502; 503; 504; 505]%Z.

(** ** An environment and events to run the handlers on *)

Definition sample_clock (n : nat) : datetime := (1700000000000000 + Z.of_nat n)%Z.

(** A gateway that accepts every send and answers with a message id. *)
Definition sample_env : Env :=
  mkEnv (Some (py "1101")) (Some (py "d75b3a")) (py "https://api.green-api.com")
    (fun _ _ =>
       Responded (mkResponse 200 (Some (py "application/json"))
                    (Some (JObj [(py "idMessage", JStr (py "BAE5F4"))]))))
    sample_clock.

(** The same process started without credentials. *)
Definition unconfigured_env : Env :=
  mkEnv None None (py "https://api.green-api.com") (fun _ _ => Unreachable) sample_clock.

(** A gateway that answers 200 to the one request a configured process
    makes for this chat and text, and 404 to any other. *)
Definition strict_env : Env :=
  mkEnv (Some (py "1101")) (Some (py "d75b3a")) (py "https://api.green-api.com")
    (fun url body =>
       if str_eqb url (py "https://api.green-api.com/waInstance1101/sendMessage/d75b3a")
          && match body with
             | JObj [(k1, JStr chat); (k2, JStr text)] =>
               str_eqb k1 (py "chatId") && str_eqb chat (py "34600112233@c.us")
               && str_eqb k2 (py "message") && str_eqb text (py "hola")
             | _ => false
             end
       then Responded (mkResponse 200%Z None None)
       else Responded (mkResponse 404%Z None None))
    sample_clock.

Definition incoming_event (chat_id : json) (text id : string) (timestamp : json)
    : option json :=
  Some (JObj
    [(py "typeWebhook", JStr (py "incomingMessageReceived"));
     (py "idMessage", JStr (py id));
     (py "timestamp", timestamp);
     (py "senderData", JObj [(py "chatId", chat_id); (py "senderName", JStr (py "Ana"))]);
     (py "messageData",
      JObj [(py "typeMessage", JStr (py "textMessage"));
            (py "textMessageData", JObj [(py "textMessage", JStr (py text))])])]).

(** An incoming event whose text ends in the lone surrogate U+D83D, the
    first half of an emoji cut in two. *)
Definition lone_surrogate_event : option json :=
  Some (JObj
    [(py "typeWebhook", JStr (py "incomingMessageReceived"));
     (py "idMessage", JStr (py "A1"));
     (py "senderData",
      JObj [(py "chatId", JStr (py "34600112233@c.us")); (py "senderName", JStr (py "Ana"))]);
     (py "messageData",
      JObj [(py "textMessageData",
             JObj [(py "textMessage", JStr (py "hola " ++ [55357%N]))])])]).

Definition outgoing_event (chat text : string) (id timestamp : json) : option json :=
  Some (JObj
    [(py "typeWebhook", JStr (py "outgoingMessageReceived"));
     (py "idMessage", id);
     (py "timestamp", timestamp);
     (py "messageData",
      JObj [(py "chatId", JStr (py chat));
            (py "textMessageData", JObj [(py "textMessage", JStr (py text))])])]).

Definition status_event (id status : string) : option json :=
  Some (JObj
    [(py "typeWebhook", JStr (py "outgoingMessageStatus"));
     (py "idMessage", JStr (py id));
     (py "status", JStr (py status))]).

(** An event of the given type with nothing to store: no chat id, no text;
    its timestamp came as a string. *)
Definition empty_event (type : string) : option json :=
  Some (JObj [(py "typeWebhook", JStr (py type));
              (py "timestamp", JStr (py "1700000000"))]).

(** An outgoing event without text whose [textMessageData] is null. *)
Definition null_text_event (type : string) : option json :=
  Some (JObj
    [(py "typeWebhook", JStr (py type));
     (py "senderData", JObj [(py "chatId", JStr (py "34600112233@c.us"))]);
     (py "messageData",
      JObj [(py "chatId", JStr (py "34600112233@c.us"));
            (py "textMessageData", JNull)])]).

Section Inbox.

(** Python's [str.isdigit] and [str.isspace] follow the Unicode character
    database.  On ASCII they are written out below; above ASCII the two
    tables are taken as they come, asking only that no digit is white
    space. *)
Variable isdigit_hi : N -> bool.
Variable isspace_hi : N -> bool.

Definition isdigit (c : N) : bool :=
  if (c <? 128)%N then (48 <=? c)%N && (c <=? 57)%N else isdigit_hi c.

Definition isspace (c : N) : bool :=
  if (c <? 128)%N
  then ((9 <=? c)%N && (c <=? 13)%N) || ((28 <=? c)%N && (c <=? 32)%N)
  else isspace_hi c.

Hypothesis digit_not_space : forall c, isdigit_hi c = true -> isspace_hi c = false.

Definition lstrip (s : pystr) : pystr := dropWhile isspace s.
Definition rstrip (s : pystr) : pystr := rev (dropWhile isspace (rev s)).

(** [str.strip()] *)
Definition strip (s : pystr) : pystr := rstrip (lstrip s).

(** ** [normalize_chat_id] *)

Definition CUS : pystr := py "@c.us".

Definition normalize_chat_id (raw_number : pystr) : result pystr :=
  match raw_number with
  | [] => Raise (ValueError EmptyNumber)
  | _ =>
    let raw_number := strip raw_number in
    if contains AT raw_number then Ok raw_number
    else
      let digits := filter isdigit raw_number in
      match digits with
      | [] => Raise (ValueError NoDigits)
      | _ => Ok (digits ++ CUS)
      end
  end.

(** ** [send_whatsapp_message] *)

Definition and_then {A B} (r : result A) (k : A -> result B) : result B :=
  match r with
  | Ok a => k a
  | Raise e => Raise e
  end.

Definition send_whatsapp_message (env : Env) (chat_id message_text : pystr)
    : result http_response :=
  match configured (GREEN_API_INSTANCE_ID env), configured (GREEN_API_API_TOKEN env) with
  | Some instance, Some token =>
    let url := GREEN_API_BASE_URL env ++ py "/waInstance" ++ instance
               ++ py "/sendMessage/" ++ token in
    and_then (normalize_chat_id chat_id) (fun chat =>
    let payload := JObj [(py "chatId", JStr chat); (py "message", JStr message_text)] in
    match post env url payload with
    | Unreachable => Raise ConnectionError
    | Responded response => raise_for_status response
    end)
  | _, _ => Raise RuntimeError
  end.

(** The body of the [try] of both POST routes: send, read the answer and
    take its [idMessage]. *)
Definition send_and_read_id (env : Env) (chat_id message_text : pystr) : result json :=
  and_then (send_whatsapp_message env chat_id message_text) (fun response =>
  and_then
    (match content_type response with
     | Some ct =>
       if str_eqb ct (py "application/json")
       then match json_body response with
            | Some data => Ok data
            | None => Raise JSONDecodeError
            end
       else Ok (JObj [])
     | None => Ok (JObj [])
     end) (fun data =>
  get data (py "idMessage"))).

(** ** The conversation service *)

(** [werkzeug]'s table of the status codes [abort] has an exception for. *)
Variable abort_codes : Z -> bool.

Definition abort {A} (code : Z) : M A :=
  if abort_codes code then raise (HTTPException code) else raise LookupError.

Definition get_or_404 (conversation_id : Z) : M Conversation.t :=
  found <- query (get_conversation conversation_id) ;;
  match found with
  | Some c => ret c
  | None => raise (HTTPException 404)
  end.

Definition conversation_detail_get (conversation_id : Z) : M response :=
  get_or_404 conversation_id ;;
  ret (RenderTemplate conversation_html, 200%Z).

Definition conversation_detail_post (env : Env) (conversation_id : Z)
    (form : conversation_form) : M response :=
  conversation <- get_or_404 conversation_id ;;
  let message_text := strip (or_empty (message form)) in
  match message_text with
  | [] => abort 400
  | _ =>
    external_id <-
      match send_and_read_id env (Conversation.contact_number conversation) message_text with
      | Ok v => ret v
      | Raise (HTTPError code) => abort code
      | Raise _ => abort 500
      end ;;
    sent <- utcnow env ;;
    now <- utcnow env ;;
    execute (update_updated_at (Conversation.id conversation) now) ;;
    ext <- lift (bind_text external_id) ;;
    add_message (Conversation.id conversation) agent message_text sent ext ;;
    commit ;;
    ret (Redirect (Conversation.id conversation), 302%Z)
  end.

Definition new_conversation_post (env : Env) (form : new_conversation_form) : M response :=
  let raw_number := strip (or_empty (form_contact_number form)) in
  let contact_name :=
    match strip (or_empty (form_contact_name form)) with
    | [] => None
    | name => Some name
    end in
  let initial_message := strip (or_empty (form_initial_message form)) in
  let page := (RenderTemplate new_conversation_html, 200%Z) in
  match raw_number with
  | [] => flash NumberRequired danger ;; ret page
  | _ =>
    match normalize_chat_id raw_number with
    | Raise (ValueError why) => flash (BadNumber why) danger ;; ret page
    | Raise e => raise e
    | Ok chat_id =>
      existing <- query (find_conversation (Some chat_id)) ;;
      match existing with
      | Some conversation =>
        flash AlreadyExists info ;;
        ret (Redirect (Conversation.id conversation), 302%Z)
      | None =>
        created <- utcnow env ;;
        updated <- utcnow env ;;
        conversation <- add_conversation (Some chat_id) contact_name created updated ;;
        let done :=
          commit ;;
          flash Created success ;;
          ret (Redirect (Conversation.id conversation), 302%Z) in
        match initial_message with
        | [] => done
        | _ =>
          match send_and_read_id env chat_id initial_message with
          | Raise (HTTPError code) =>
            rollback ;;
            flash (InitialSendHTTPError code) danger ;;
            ret page
          | Raise e =>
            rollback ;;
            flash (InitialSendFailed e) danger ;;
            ret page
          | Ok external_id =>
            sent <- utcnow env ;;
            ext <- lift (bind_text external_id) ;;
            add_message (Conversation.id conversation) agent initial_message sent ext ;;
            done
          end
        end
      end
    end
  end.

(** ** The webhook *)

Definition ignored (detail : string) : response :=
  (Jsonify (status_detail (py "ignored") (JStr (py detail))), 200%Z).

(** [datetime.utcfromtimestamp(timestamp) if timestamp else datetime.utcnow()] *)
Definition sent_at_of (env : Env) (timestamp : json) : M datetime :=
  if truthy timestamp then lift (utcfromtimestamp timestamp) else utcnow env.

(** A payload value headed for a NOT NULL text column. *)
Definition bind_required (v : json) : result pystr :=
  and_then (bind_text v) (fun t =>
  match t with
  | Some s => Ok s
  | None => Raise IntegrityError
  end).

(** The conversation of [chat_id], created when there is none. *)
Definition resolve_conversation (chat_id contact_name : json) (sent_at : datetime)
    : M Conversation.t :=
  chat <- lift (bind_text chat_id) ;;
  found <- query (find_conversation chat) ;;
  match found with
  | Some conversation => ret conversation
  | None =>
    name <- lift (bind_text contact_name) ;;
    add_conversation chat name sent_at sent_at
  end.

Definition handle_incoming_message (env : Env) (payload : json) : M response :=
  message_data <- lift (get_or payload (py "messageData") (JObj [])) ;;
  sender_data <- lift (get_or payload (py "senderData") (JObj [])) ;;
  text_data <- lift (get message_data (py "textMessageData")) ;;
  let text_data := py_or text_data (JObj []) in
  message_text <- lift (get text_data (py "textMessage")) ;;
  if negb (truthy message_text) then ret (ignored "Mensaje sin texto")
  else
    chat_id <- lift (get sender_data (py "chatId")) ;;
    sender_name <- lift (get sender_data (py "senderName")) ;;
    let contact_name := py_or sender_name chat_id in
    external_id <- lift (get payload (py "idMessage")) ;;
    timestamp <- lift (get payload (py "timestamp")) ;;
    sent_at <- sent_at_of env timestamp ;;
    conversation <- resolve_conversation chat_id contact_name sent_at ;;
    now <- utcnow env ;;
    execute (update_updated_at (Conversation.id conversation) now) ;;
    text <- lift (bind_required message_text) ;;
    ext <- lift (bind_text external_id) ;;
    add_message (Conversation.id conversation) customer text sent_at ext ;;
    commit ;;
    ret (Jsonify (status_body (py "received")), 200%Z).

(** The text of an outgoing event, plain or extended. *)
Definition outgoing_text (message_data : json) : result json :=
  and_then (get_or message_data (py "textMessageData") (JObj [])) (fun plain =>
  and_then (get plain (py "textMessage")) (fun text =>
  if truthy text then Ok text
  else
    and_then (get_or message_data (py "extendedTextMessageData") (JObj [])) (fun extended =>
    get extended (py "text")))).

Definition handle_outgoing_message (env : Env) (payload : json) : M response :=
  message_data <- lift (get_or payload (py "messageData") (JObj [])) ;;
  chat_id <- lift (get message_data (py "chatId")) ;;
  message_text <- lift (outgoing_text message_data) ;;
  external_id <- lift (get payload (py "idMessage")) ;;
  timestamp <- lift (get payload (py "timestamp")) ;;
  sent_at <- sent_at_of env timestamp ;;
  if negb (truthy chat_id && truthy message_text)
  then ret (ignored "Mensaje saliente sin datos")
  else
    conversation <- resolve_conversation chat_id chat_id sent_at ;;
    ext <- lift (bind_text external_id) ;;
    existing_message <- query (latest_message ext (Conversation.id conversation)) ;;
    match existing_message with
    | Some existing => execute (update_sent_at (Message.id existing) sent_at)
    | None =>
      text <- lift (bind_required message_text) ;;
      add_message (Conversation.id conversation) agent text sent_at ext
    end ;;
    now <- utcnow env ;;
    execute (update_updated_at (Conversation.id conversation) now) ;;
    commit ;;
    ret (Jsonify (status_body (py "stored")), 200%Z).

Definition handle_outgoing_status (payload : json) : M response :=
  external_id <- lift (get payload (py "idMessage")) ;;
  status <- lift (get payload (py "status")) ;;
  if negb (truthy external_id) then ret (ignored "Sin id de mensaje")
  else
    ext <- lift (bind_text external_id) ;;
    found <- query (find_message ext) ;;
    match found with
    | None => ret (ignored "Mensaje desconocido")
    | Some _ => ret (Jsonify (status_detail (py "acknowledged") status), 200%Z)
    end.

(** [request.get_json(silent=True) or {}]: [None] stands for a body that is
    not JSON. *)
Definition payload_of (body : option json) : json :=
  py_or (match body with Some v => v | None => JNull end) (JObj []).

Definition green_webhook (env : Env) (body : option json) : M response :=
  let payload := payload_of body in
  webhook_type <- lift (get payload (py "typeWebhook")) ;;
  if is_str webhook_type (py "incomingMessageReceived")
  then handle_incoming_message env payload
  else if is_str webhook_type (py "outgoingMessageReceived")
  then handle_outgoing_message env payload
  else if is_str webhook_type (py "outgoingMessageStatus")
  then handle_outgoing_status payload
  else ret (ignored "Evento no manejado").

(** ** The application *)

Inductive request :=
| GetDashboard
| GetConversation (conversation_id : Z)
| PostConversation (conversation_id : Z) (form : conversation_form)
| GetNewConversation
| PostNewConversation (form : new_conversation_form)
| PostWebhook (body : option json)
| GetHealth.

Definition view (env : Env) (r : request) : M response :=
  match r with
  | GetDashboard => ret (RenderTemplate index_html, 200%Z)
  | GetConversation i => conversation_detail_get i
  | PostConversation i form => conversation_detail_post env i form
  | GetNewConversation => ret (RenderTemplate new_conversation_html, 200%Z)
  | PostNewConversation form => new_conversation_post env form
  | PostWebhook body => green_webhook env body
  | GetHealth => ret (Jsonify (status_body (py "ok")), 200%Z)
  end.

Definition is_webhook (r : request) : bool :=
  match r with
  | PostWebhook _ => true
  | _ => false
  end.

(** What outlives a request: the database and the clock. *)
Record Server := mkServer {
  database : Store;
  readings : nat
}.

Definition pristine : Server := mkServer empty_store 0.

(** Two customers write, the operator answers the first and opens a
    conversation that exists. *)
Definition sample_trace : list (Env * bool * request) :=
  [(sample_env, true,
    PostWebhook (incoming_event (JStr (py "34600112233@c.us")) "hola" "A1"
                   (JInt 1700000100%Z)));
   (sample_env, true,
    PostWebhook (incoming_event (JStr (py "34600445566@c.us")) "buenas" "A2" JNull));
   (sample_env, false, PostConversation 1%Z (mkConversationForm (Some (py " claro "))));
   (sample_env, false,
    PostNewConversation (mkNewForm (Some (py "+34 600 44 55 66")) None (Some (py "hola"))))].

Record Served := mkServed {
  answer : response;
  flashed : list (notice * category);
  after : Server
}.

(** One request from start to finish.  An exception that leaves the view
    goes to [handle_errors]; the session is dropped at the end, so what was
    not committed is gone.  [json_only] says the client accepts JSON and
    not HTML. *)
Definition serve (env : Env) (json_only : bool) (r : request) (sv : Server) : Served :=
  let '(outcome, w) := view env r (mkWorld (database sv) (database sv) (readings sv) []) in
  mkServed
    (match outcome with
     | Ok resp => resp
     | Raise e => handle_errors (json_only || is_webhook r) e
     end)
    (flashes w)
    (mkServer (committed w) (ticks w)).

(** ** Events and what they carry *)

Definition INCOMING : pystr := py "incomingMessageReceived".
Definition OUTGOING : pystr := py "outgoingMessageReceived".
Definition STATUS : pystr := py "outgoingMessageStatus".

(** The payload is an event of the given type. *)
Definition event_of_type (payload : json) (type : pystr) : Prop :=
  get payload (py "typeWebhook") = Ok (JStr type).

(** An incoming event whose text, [chatId] and [senderName] are the given
    values ([JNull] for a field that is missing). *)
Definition incoming_carries (payload text chat_id sender_name : json) : Prop :=
  exists message_data text_data sender_data,
    get_or payload (py "messageData") (JObj []) = Ok message_data /\
    get message_data (py "textMessageData") = Ok text_data /\
    get (py_or text_data (JObj [])) (py "textMessage") = Ok text /\
    get_or payload (py "senderData") (JObj []) = Ok sender_data /\
    get sender_data (py "chatId") = Ok chat_id /\
    get sender_data (py "senderName") = Ok sender_name.

(** An outgoing event whose [chatId] and text are the given values. *)
Definition outgoing_carries (payload chat_id text : json) : Prop :=
  exists message_data,
    get_or payload (py "messageData") (JObj []) = Ok message_data /\
    get message_data (py "chatId") = Ok chat_id /\
    outgoing_text message_data = Ok text.

(** ** The reconciler in closed form

    What the two message handlers leave in the database when they store
    an event, written as functions of the store; the handlers are proved to
    compute them. *)

(** The reading of the clock that follows the derivation of [sent_at]:
    [utcnow] is called there only for a timestamp that is not truthy. *)
Definition reads_of (timestamp : json) (n : nat) : nat :=
  if truthy timestamp then n else S n.

(** [sent_at] as a function of the timestamp and of the clock. *)
Definition event_time (env : Env) (timestamp : json) (n : nat) : result datetime :=
  if truthy timestamp then utcfromtimestamp timestamp else Ok (clock env n).

(** Find the conversation of [chat] or insert it; its id and the store. *)
Definition resolve (chat : pystr) (name : option pystr) (t : datetime) (s : Store)
    : Z * Store :=
  match find_conversation (Some chat) s with
  | Some c => (Conversation.id c, s)
  | None =>
    let i := next_id (map Conversation.id (conversations s)) in
    (i, insert_conversation (Conversation.mk i chat name t t) s)
  end.

Definition resolved (chat : pystr) (s : Store) : Z :=
  fst (resolve chat None 0%Z s).

Definition incoming_effect (chat : pystr) (name : option pystr) (text : pystr)
    (ext : option pystr) (t now : datetime) (s : Store) : Store :=
  let '(cid, s1) := resolve chat name t s in
  let s2 := update_updated_at cid now s1 in
  insert_message
    (Message.mk (next_id (map Message.id (messages s2))) cid customer text t ext) s2.

Definition outgoing_effect (chat text : pystr) (ext : option pystr)
    (t now : datetime) (s : Store) : Store :=
  let '(cid, s1) := resolve chat (Some chat) t s in
  let s2 :=
    match latest_message ext cid s1 with
    | Some existing => update_sent_at (Message.id existing) t s1
    | None =>
      insert_message
        (Message.mk (next_id (map Message.id (messages s1))) cid agent text t ext) s1
    end in
  update_updated_at cid now s2.

(** The message is in conversation [cid] and carries the external id [e]
    ([None]: it carries none). *)
Definition belongs (e : option pystr) (cid : Z) (m : Message.t) : Prop :=
  Message.external_id m = e /\ Message.conversation_id m = cid.

(** A string that does not start with white space. *)
Definition starts_clean (s : pystr) : Prop :=
  match s with
  | [] => True
  | c :: _ => isspace c = false
  end.

(** What [handle_errors] answers with a 500. *)
Definition server_error (e : exn) : Prop :=
  match e with
  | HTTPException _ => False
  | _ => True
  end.

(** [I] is true of the database and of the open transaction. *)
Definition holds (I : Store -> Prop) (w : World) : Prop :=
  I (committed w) /\ I (working w).

(** The computation keeps [I] true of both, whatever it returns or raises. *)
Definition keeps (I : Store -> Prop) {A} (m : M A) : Prop :=
  forall w, holds I w -> holds I (snd (m w)).

(** A run of the server: each request comes with the environment of its
    moment and with what the client accepts. *)
Fixpoint run (trace : list (Env * bool * request)) (sv : Server) : Server :=
  match trace with
  | [] => sv
  | (env, json_only, r) :: trace' => run trace' (after (serve env json_only r sv))
  end.

(** ** Invariants of the store *)

(** At most one conversation per [contact_number]. *)
Definition unique_contacts (s : Store) : Prop :=
  NoDup (map Conversation.contact_number (conversations s)).

(** The primary key of [messages]. *)
Definition unique_message_ids (s : Store) : Prop :=
  NoDup (map Message.id (messages s)).

(** ** The template filters *)

Definition NEWLINE : N := 10.
Definition BR : pystr := py "<br>".

(** What a filter hands to the template: a plain [str], which the template
    escapes, or a [Markup], which it writes as it is. *)
Inductive rendered :=
| Plain (s : pystr)
| Markup (s : pystr).

Definition text_of (r : rendered) : pystr :=
  match r with
  | Plain s => s
  | Markup s => s
  end.

(** [value.replace("\n", "<br>")] *)
Fixpoint replace_newlines (s : pystr) : pystr :=
  match s with
  | [] => []
  | c :: s' =>
    if (c =? NEWLINE)%N then BR ++ replace_newlines s' else c :: replace_newlines s'
  end.

Definition nl2br (value : option pystr) : rendered :=
  match value with
  | None => Plain []
  | Some v => Markup (replace_newlines v)
  end.

Fixpoint startswith (pre s : pystr) : bool :=
  match pre, s with
  | [], _ => true
  | x :: pre', y :: s' => N.eqb x y && startswith pre' s'
  | _ :: _, [] => false
  end.

(** [s.endswith(suffix)] *)
Definition endswith (s suffix : pystr) : bool := startswith (rev suffix) (rev s).

(** [value.split("@", 1)[0]] *)
Fixpoint before_at (s : pystr) : pystr :=
  match s with
  | [] => []
  | c :: s' => if (c =? AT)%N then [] else c :: before_at s'
  end.

Definition chat_display (value : option pystr) : pystr :=
  match value with
  | None => []
  | Some [] => []
  | Some v =>
    if endswith v (py "@c.us") || endswith v (py "@s.whatsapp.net")
    then before_at v
    else v
  end.

(** ** The lists the pages show *)

Fixpoint insert_by {A} (le : A -> A -> bool) (x : A) (l : list A) : list A :=
  match l with
  | [] => [x]
  | y :: l' => if le x y then x :: l else y :: insert_by le x l'
  end.

(** [ORDER BY]: the rows in the order of [le].  Rows that [le] does not
    tell apart keep the order of the table here; SQL promises none. *)
Fixpoint sort_by {A} (le : A -> A -> bool) (l : list A) : list A :=
  match l with
  | [] => []
  | x :: l' => insert_by le x (sort_by le l')
  end.

(** A row that may come before another one in the order of [le]. *)
Definition before {A} (le : A -> A -> bool) (a b : A) : Prop := le a b = true.

(** [Conversation.query.order_by(Conversation.updated_at.desc()).all()] *)
Definition dashboard_rows (s : Store) : list Conversation.t :=
  sort_by (fun a b => (Conversation.updated_at b <=? Conversation.updated_at a)%Z)
          (conversations s).

(** The rows of the relationship [conversation.messages]. *)
Definition messages_of (c : Conversation.t) (s : Store) : list Message.t :=
  filter (fun m => (Message.conversation_id m =? Conversation.id c)%Z) (messages s).

(** [conversation.messages.order_by(Message.sent_at.asc()).all()]: the
    relationship orders by [sent_at] ascending and the call adds the same
    criterion. *)
Definition thread_rows (c : Conversation.t) (s : Store) : list Message.t :=
  sort_by (fun a b => (Message.sent_at a <=? Message.sent_at b)%Z) (messages_of c s).

(** [ORDER BY sent_at ASC, sent_at DESC]: a row comes first when its
    [sent_at] is smaller, and among equal ones when it is not smaller. *)
Definition asc_then_desc (a b : Message.t) : bool :=
  ((Message.sent_at a <? Message.sent_at b)
   || ((Message.sent_at a =? Message.sent_at b)
       && (Message.sent_at b <=? Message.sent_at a)))%Z.

(** [Conversation.last_message]:
    [self.messages.order_by(Message.sent_at.desc()).first()].  The
    relationship is declared with [order_by="Message.sent_at.asc()"], and
    [Query.order_by] adds its criteria after the ones the query has, so the
    statement orders by [sent_at ASC, sent_at DESC]. *)
Definition last_message (c : Conversation.t) (s : Store) : option Message.t :=
  hd_error (sort_by asc_then_desc (messages_of c s)).

(** ** What a request may do to the database *)

(** The store after [new_conversation] has inserted the conversation. *)
Definition created_effect (chat : pystr) (name : option pystr)
    (created updated : datetime) (s : Store) : Store :=
  insert_conversation
    (Conversation.mk (next_id (map Conversation.id (conversations s))) chat name
       created updated) s.

(** The same with the initial message. *)
Definition first_message_effect (chat : pystr) (name : option pystr)
    (created updated : datetime) (text : pystr) (ext : option pystr) (sent : datetime)
    (s : Store) : Store :=
  let s1 := created_effect chat name created updated s in
  insert_message
    (Message.mk (next_id (map Message.id (messages s1)))
       (next_id (map Conversation.id (conversations s))) agent text sent ext) s1.

(** The store after [conversation_detail] has posted a message. *)
Definition posted_effect (cid : Z) (text : pystr) (ext : option pystr)
    (sent now : datetime) (s : Store) : Store :=
  let s1 := update_updated_at cid now s in
  insert_message (Message.mk (next_id (map Message.id (messages s1))) cid agent text sent ext)
                 s1.

(** The steps of the database: the one before and the one after a request. *)
Inductive transition (s : Store) : Store -> Prop :=
| t_unchanged : transition s s
| t_incoming chat name text ext t now :
    text <> [] ->
    transition s (incoming_effect chat name text ext t now s)
| t_outgoing chat text ext t now :
    chat <> [] -> text <> [] ->
    transition s (outgoing_effect chat text ext t now s)
| t_created chat name created updated :
    find_conversation (Some chat) s = None ->
    transition s (created_effect chat name created updated s)
| t_first_message chat name created updated text ext sent :
    find_conversation (Some chat) s = None -> text <> [] ->
    transition s (first_message_effect chat name created updated text ext sent s)
| t_posted c text ext sent now :
    In c (conversations s) -> text <> [] ->
    transition s (posted_effect (Conversation.id c) text ext sent now s).

(** What the webhook may answer: a JSON body with status 200, or an
    exception that [handle_errors] turns into a 500. *)
Definition webhook_answer (outcome : result response) : Prop :=
  match outcome with
  | Ok (Jsonify _, code) => code = 200%Z
  | Ok _ => False
  | Raise e => server_error e
  end.

(** Where a handler of the webhook stands at its end. *)
Definition webhook_end (db : Store) (x : result response * World) : Prop :=
  transition db (committed (snd x)) /\ webhook_answer (fst x).

(** ** What stays of a row *)

(** A message without the column the reconciler rewrites, and a
    conversation without the column every new message rewrites. *)
Definition message_key (m : Message.t) : Message.t := Message.set_sent_at m 0%Z.
Definition conversation_key (c : Conversation.t) : Conversation.t :=
  Conversation.set_updated_at c 0%Z.

(** [s'] holds the rows of [s] in their order, the same but for [sent_at]
    and [updated_at], followed by the rows [cs] and [ms]. *)
Definition extends (s s' : Store) (cs : list Conversation.t) (ms : list Message.t) : Prop :=
  map conversation_key (conversations s')
  = map conversation_key (conversations s) ++ map conversation_key cs /\
  map message_key (messages s') = map message_key (messages s) ++ map message_key ms.

(** The new rows of one request: at most one of each table, with the next
    id of the table; a new message has a text and a conversation. *)
Definition one_step (s s' : Store) (cs : list Conversation.t) (ms : list Message.t) : Prop :=
  (List.length cs <= 1)%nat /\ (List.length ms <= 1)%nat /\
  (forall c, In c cs -> Conversation.id c = next_id (map Conversation.id (conversations s))) /\
  (forall m, In m ms ->
     Message.id m = next_id (map Message.id (messages s)) /\
     Message.message_text m <> [] /\
     In (Message.conversation_id m) (map Conversation.id (conversations s'))).

(** More invariants of the store. *)
Definition unique_conversation_ids (s : Store) : Prop :=
  NoDup (map Conversation.id (conversations s)).

Definition texts_nonempty (s : Store) : Prop :=
  forall m, In m (messages s) -> Message.message_text m <> [].

Definition messages_owned (s : Store) : Prop :=
  forall m, In m (messages s) ->
            In (Message.conversation_id m) (map Conversation.id (conversations s)).

(** * Properties *)

(** ** Strings *)

Lemma str_eqb_eq (a b : pystr) : str_eqb a b = true <-> a = b.
Proof.
  revert b; induction a as [|x a IH]; intros [|y b]; simpl; split; intro H;
    try congruence; try reflexivity.
  - apply andb_true_iff in H as [H1 H2]. apply N.eqb_eq in H1. apply IH in H2. congruence.
  - inversion H; subst. rewrite N.eqb_refl. simpl. now apply IH.
Qed.

Lemma str_eqb_refl (a : pystr) : str_eqb a a = true.
Proof. now apply str_eqb_eq. Qed.

Lemma contains_app (c : N) (a b : pystr) :
  contains c (a ++ b) = contains c a || contains c b.
Proof. unfold contains. apply existsb_app. Qed.

Lemma space_not_digit (c : N) : isspace c = true -> isdigit c = false.
Proof.
  unfold isspace, isdigit. destruct (c <? 128)%N.
  - intro H. apply andb_false_iff.
    apply orb_true_iff in H as [H|H]; apply andb_true_iff in H as [H1 H2];
      apply N.leb_le in H1; apply N.leb_le in H2.
    + left. apply N.leb_gt. lia.
    + left. apply N.leb_gt. lia.
  - intro H. destruct (isdigit_hi c) eqn:E; [|reflexivity].
    apply digit_not_space in E. congruence.
Qed.

Lemma digit_not_isspace (c : N) : isdigit c = true -> isspace c = false.
Proof.
  intro H. destruct (isspace c) eqn:E; [|reflexivity].
  apply space_not_digit in E. congruence.
Qed.

Lemma dropWhile_clean (s : pystr) : starts_clean (dropWhile isspace s).
Proof.
  induction s as [|c s IH]; simpl; [exact I|].
  destruct (isspace c) eqn:E; [exact IH | simpl; exact E].
Qed.

Lemma dropWhile_id (s : pystr) : starts_clean s -> dropWhile isspace s = s.
Proof. destruct s as [|c s]; simpl; [reflexivity|]. now intros ->. Qed.

Lemma dropWhile_suffix (p : N -> bool) (s : pystr) :
  exists pre, s = pre ++ dropWhile p s /\ forallb p pre = true.
Proof.
  induction s as [|c s [pre [IH1 IH2]]]; simpl.
  - exists []. now split.
  - destruct (p c) eqn:E.
    + exists (c :: pre). simpl. rewrite E, IH2. split; [now f_equal | reflexivity].
    + exists []. now split.
Qed.

Lemma rstrip_prefix (s : pystr) :
  exists post, s = rstrip s ++ post /\ forallb isspace post = true.
Proof.
  unfold rstrip. destruct (dropWhile_suffix isspace (rev s)) as [pre [H1 H2]].
  exists (rev pre). split.
  - rewrite <- rev_app_distr, <- H1. now rewrite rev_involutive.
  - rewrite forallb_forall in *. intros x Hx. apply H2. now apply in_rev.
Qed.

Lemma rstrip_clean (s : pystr) : starts_clean s -> starts_clean (rstrip s).
Proof.
  intro H. destruct (rstrip_prefix s) as [post [E _]].
  destruct (rstrip s) as [|c r]; [exact I|].
  rewrite E in H. exact H.
Qed.

Lemma rstrip_id (s : pystr) : starts_clean (rev s) -> rstrip s = s.
Proof. intro H. unfold rstrip. rewrite dropWhile_id by exact H. apply rev_involutive. Qed.

Lemma strip_starts_clean (s : pystr) : starts_clean (strip s).
Proof. apply rstrip_clean, dropWhile_clean. Qed.

Lemma strip_ends_clean (s : pystr) : starts_clean (rev (strip s)).
Proof. unfold strip, rstrip. rewrite rev_involutive. apply dropWhile_clean. Qed.

Lemma strip_id (s : pystr) : starts_clean s -> starts_clean (rev s) -> strip s = s.
Proof.
  intros H1 H2. unfold strip, lstrip. rewrite (dropWhile_id s H1). now apply rstrip_id.
Qed.

Lemma strip_strip (s : pystr) : strip (strip s) = strip s.
Proof. apply strip_id; [apply strip_starts_clean | apply strip_ends_clean]. Qed.

Lemma filter_dropWhile (p q : N -> bool) (s : pystr) :
  (forall c, q c = true -> p c = false) ->
  filter p (dropWhile q s) = filter p s.
Proof.
  intro H. induction s as [|c s IH]; simpl; [reflexivity|].
  destruct (q c) eqn:E; [|reflexivity].
  now rewrite (H c E).
Qed.

Lemma filter_strip (p : N -> bool) (s : pystr) :
  (forall c, isspace c = true -> p c = false) ->
  filter p (strip s) = filter p s.
Proof.
  intro H. unfold strip, rstrip, lstrip.
  rewrite filter_rev, (filter_dropWhile p isspace _ H), filter_rev, rev_involutive.
  now apply filter_dropWhile.
Qed.

Lemma contains_dropWhile (c : N) (s : pystr) :
  isspace c = false -> contains c (dropWhile isspace s) = contains c s.
Proof.
  intro H. induction s as [|x s IH]; simpl; [reflexivity|].
  destruct (isspace x) eqn:E; [|reflexivity].
  rewrite IH. destruct (N.eqb_spec c x) as [->|_]; [congruence | reflexivity].
Qed.

Lemma contains_rev (c : N) (s : pystr) : contains c (rev s) = contains c s.
Proof.
  induction s as [|x s IH]; simpl; [reflexivity|].
  rewrite contains_app, IH. simpl. now rewrite orb_false_r, orb_comm.
Qed.

Lemma contains_strip (c : N) (s : pystr) :
  isspace c = false -> contains c (strip s) = contains c s.
Proof.
  intro H. unfold strip, rstrip, lstrip.
  now rewrite contains_rev, (contains_dropWhile c _ H), contains_rev, (contains_dropWhile c _ H).
Qed.

Lemma AT_not_space : isspace AT = false.
Proof. reflexivity. Qed.

Lemma normalize_at (x : pystr) :
  contains AT x = true -> normalize_chat_id x = Ok (strip x).
Proof.
  intro H. unfold normalize_chat_id. destruct x as [|c x]; [discriminate|].
  now rewrite (contains_strip AT _ AT_not_space), H.
Qed.

Lemma normalize_digits (x : pystr) :
  contains AT x = false ->
  normalize_chat_id x =
    match filter isdigit x with
    | [] => Raise (ValueError (match x with [] => EmptyNumber | _ => NoDigits end))
    | digits => Ok (digits ++ CUS)
    end.
Proof.
  intro H. unfold normalize_chat_id. destruct x as [|c x]; [reflexivity|].
  rewrite (contains_strip AT _ AT_not_space), H.
  rewrite (filter_strip isdigit _ space_not_digit).
  now destruct (filter isdigit (c :: x)).
Qed.

(** C4, as the code has it: an input with an "@" comes back stripped of the
    white space around it (so unchanged when there is none); an input
    without one is reduced to its digits, fails with [ValueError] (the
    spec's InvalidIdentifier) when it has none, and gets "@c.us" appended
    otherwise.  The four examples of the spec hold. *)
Theorem normalize_chat_id_cases (x : pystr) :
  (contains AT x = true -> normalize_chat_id x = Ok (strip x)) /\
  (contains AT x = true -> starts_clean x -> starts_clean (rev x) ->
   normalize_chat_id x = Ok x) /\
  (contains AT x = false -> filter isdigit x = [] ->
   exists why, normalize_chat_id x = Raise (ValueError why)) /\
  (contains AT x = false -> filter isdigit x <> [] ->
   normalize_chat_id x = Ok (filter isdigit x ++ CUS)) /\
  normalize_chat_id (py "+52 55 1234 5678") = Ok (py "525512345678@c.us") /\
  normalize_chat_id (py "123@c.us") = Ok (py "123@c.us") /\
  normalize_chat_id (py "") = Raise (ValueError EmptyNumber) /\
  normalize_chat_id (py "abc") = Raise (ValueError NoDigits).
Proof.
  split; [apply normalize_at|].
  split; [intros H H1 H2; rewrite (normalize_at _ H); now rewrite strip_id|].
  split; [intros H E; rewrite (normalize_digits _ H), E; eauto|].
  split; [|repeat split; reflexivity].
  intros H E. rewrite (normalize_digits _ H).
  destruct (filter isdigit x); [congruence | reflexivity].
Qed.

(** C8: normalization is idempotent on every input it accepts. *)
Theorem normalize_chat_id_idempotent (x r : pystr) :
  normalize_chat_id x = Ok r -> normalize_chat_id r = Ok r.
Proof.
  destruct (contains AT x) eqn:H.
  - rewrite (normalize_at _ H). intros [= <-].
    assert (contains AT (strip x) = true) as H'
      by now rewrite (contains_strip AT _ AT_not_space).
    rewrite (normalize_at _ H'). now rewrite strip_strip.
  - rewrite (normalize_digits _ H).
    destruct (filter isdigit x) as [|d ds] eqn:E; [discriminate|]. intros [= <-].
    assert (isdigit d = true) as Hd.
    { assert (In d (filter isdigit x)) as Hin by (rewrite E; now left).
      now apply filter_In in Hin. }
    assert (contains AT ((d :: ds) ++ CUS) = true) as H'.
    { rewrite contains_app. apply orb_true_iff. now right. }
    rewrite normalize_at by exact H'. f_equal.
    apply (strip_id ((d :: ds) ++ CUS)).
    + simpl. now apply digit_not_isspace.
    + rewrite rev_app_distr. reflexivity.
Qed.

(** ** What a view keeps true of the session *)

Section Keeps.

Variable I : Store -> Prop.

Lemma keeps_ret {A} (a : A) : keeps I (ret a).
Proof. intros w H. exact H. Qed.

Lemma keeps_raise {A} (e : exn) : keeps I (@raise A e).
Proof. intros w H. exact H. Qed.

Lemma keeps_lift {A} (r : result A) : keeps I (lift r).
Proof. intros w H. exact H. Qed.

Lemma keeps_query {A} (q : Store -> A) : keeps I (query q).
Proof. intros w H. exact H. Qed.

Lemma keeps_flash (n : notice) (c : category) : keeps I (flash n c).
Proof. intros w H. exact H. Qed.

Lemma keeps_utcnow (env : Env) : keeps I (utcnow env).
Proof. intros w H. exact H. Qed.

Lemma keeps_commit : keeps I commit.
Proof. intros w [_ H]. split; exact H. Qed.

Lemma keeps_rollback : keeps I rollback.
Proof. intros w [H _]. split; exact H. Qed.

Lemma keeps_bind {A B} (m : M A) (k : A -> M B) :
  keeps I m -> (forall a, keeps I (k a)) -> keeps I (bind m k).
Proof.
  intros Hm Hk w H. unfold bind. specialize (Hm w H).
  destruct (m w) as [[a|e] w']; simpl in *; [now apply Hk | exact Hm].
Qed.

Lemma keeps_execute (f : Store -> Store) :
  (forall s, I s -> I (f s)) -> keeps I (execute f).
Proof. intros Hf w [H1 H2]. split; simpl; [exact H1 | now apply Hf]. Qed.

Lemma keeps_abort {A} (code : Z) : keeps I (@abort A code).
Proof. unfold abort. destruct (abort_codes code); apply keeps_raise. Qed.

Hypothesis I_update_updated_at : forall i d s, I s -> I (update_updated_at i d s).
Hypothesis I_update_sent_at : forall i d s, I s -> I (update_sent_at i d s).
Hypothesis I_add_message : forall c k t d e, keeps I (add_message c k t d e).
Hypothesis I_add_conversation :
  forall n name c u w,
    holds I w -> find_conversation (Some n) (working w) = None ->
    holds I (snd (add_conversation (Some n) name c u w)).

Ltac keeps_step :=
  first
    [ apply I_add_message
    | apply keeps_ret | apply keeps_raise | apply keeps_lift | apply keeps_query
    | apply keeps_flash | apply keeps_utcnow | apply keeps_commit | apply keeps_rollback
    | apply keeps_abort
    | apply keeps_execute; first [apply I_update_updated_at | apply I_update_sent_at]
    | apply keeps_bind; [|intro] ].

Lemma keeps_get_or_404 (i : Z) : keeps I (get_or_404 i).
Proof. unfold get_or_404. keeps_step; [keeps_step|]. destruct a; keeps_step. Qed.

Lemma keeps_sent_at_of (env : Env) (timestamp : json) : keeps I (sent_at_of env timestamp).
Proof. unfold sent_at_of. destruct (truthy timestamp); keeps_step. Qed.

Lemma keeps_resolve_conversation (chat_id contact_name : json) (sent_at : datetime) :
  keeps I (resolve_conversation chat_id contact_name sent_at).
Proof.
  intros w H. unfold resolve_conversation, bind, lift, query.
  destruct (bind_text chat_id) as [chat|e]; [|exact H].
  destruct (find_conversation chat (working w)) as [c|] eqn:E; [exact H|].
  destruct (bind_text contact_name) as [name|e]; [|exact H].
  destruct chat as [n|]; [now apply I_add_conversation | exact H].
Qed.

Ltac keeps_all :=
  repeat first
    [ apply keeps_sent_at_of
    | apply keeps_resolve_conversation
    | keeps_step
    | match goal with
      | |- keeps _ (if ?b then _ else _) => destruct b
      | |- keeps _ (match ?x with _ => _ end) => destruct x
      end ].

Lemma keeps_handle_incoming_message (env : Env) (payload : json) :
  keeps I (handle_incoming_message env payload).
Proof. unfold handle_incoming_message. keeps_all. Qed.

Lemma keeps_handle_outgoing_message (env : Env) (payload : json) :
  keeps I (handle_outgoing_message env payload).
Proof. unfold handle_outgoing_message. keeps_all. Qed.

Lemma keeps_handle_outgoing_status (payload : json) :
  keeps I (handle_outgoing_status payload).
Proof. unfold handle_outgoing_status. keeps_all. Qed.

Lemma keeps_green_webhook (env : Env) (body : option json) :
  keeps I (green_webhook env body).
Proof.
  unfold green_webhook. keeps_step; [keeps_step|].
  destruct (is_str a _); [apply keeps_handle_incoming_message|].
  destruct (is_str a _); [apply keeps_handle_outgoing_message|].
  destruct (is_str a _); [apply keeps_handle_outgoing_status | keeps_step].
Qed.

Lemma keeps_conversation_detail_post (env : Env) (i : Z) (form : conversation_form) :
  keeps I (conversation_detail_post env i form).
Proof.
  unfold conversation_detail_post.
  keeps_step; [apply keeps_get_or_404|].
  destruct (strip (or_empty (message form))); [keeps_step|].
  keeps_step.
  - destruct (send_and_read_id _ _ _) as [v|[]]; keeps_step.
  - repeat keeps_step.
Qed.

Lemma keeps_new_conversation_post (env : Env) (form : new_conversation_form) :
  keeps I (new_conversation_post env form).
Proof.
  unfold new_conversation_post.
  destruct (strip (or_empty (form_contact_number form))) as [|c raw];
    [repeat keeps_step|].
  destruct (normalize_chat_id (c :: raw)) as [chat_id|e];
    [|destruct e; repeat keeps_step].
  intros w H. unfold bind at 1, query at 1.
  destruct (find_conversation (Some chat_id) (working w)) as [conv|] eqn:E.
  - clear E. revert w H. repeat keeps_step.
  - unfold bind at 1, utcnow at 1. unfold bind at 1, utcnow at 1. unfold bind at 1.
    match goal with
    | |- context [add_conversation (Some chat_id) ?name ?c ?u ?w'] =>
      pose proof (I_add_conversation chat_id name c u w' H E) as H';
      destruct (add_conversation (Some chat_id) name c u w') as [[conv|e] w'']
    end; [|exact H'].
    simpl in H'. revert w'' H'. cbv zeta.
    destruct (strip (or_empty (form_initial_message form))); [repeat keeps_step|].
    destruct (send_and_read_id _ _ _) as [v|[]]; repeat keeps_step.
Qed.

Lemma keeps_view (env : Env) (r : request) : keeps I (view env r).
Proof.
  destruct r; simpl.
  - keeps_step.
  - unfold conversation_detail_get. keeps_step; [apply keeps_get_or_404 | keeps_step].
  - apply keeps_conversation_detail_post.
  - keeps_step.
  - apply keeps_new_conversation_post.
  - apply keeps_green_webhook.
  - keeps_step.
Qed.

Lemma serve_keeps (env : Env) (json_only : bool) (r : request) (sv : Server) :
  I (database sv) -> I (database (after (serve env json_only r sv))).
Proof.
  intro H. unfold serve.
  pose proof (keeps_view env r (mkWorld (database sv) (database sv) (readings sv) [])
                (conj H H)) as [H' _].
  destruct (view env r _) as [o w]. exact H'.
Qed.

Lemma run_keeps (trace : list (Env * bool * request)) (sv : Server) :
  I (database sv) -> I (database (run trace sv)).
Proof.
  revert sv. induction trace as [|[[env j] r] trace IH]; intros sv H; simpl; [exact H|].
  apply IH. now apply serve_keeps.
Qed.

End Keeps.

(** ** The two invariants *)

Lemma le_fold_max (ids : list Z) (x : Z) : In x ids -> (x <= fold_right Z.max 0 ids)%Z.
Proof.
  induction ids as [|y ids IH]; simpl; [tauto|].
  intros [->|H]; [lia | specialize (IH H); lia].
Qed.

Lemma next_id_fresh (ids : list Z) : ~ In (next_id ids) ids.
Proof. intro H. apply le_fold_max in H. unfold next_id in H. lia. Qed.

Lemma NoDup_snoc {A} (l : list A) (x : A) : NoDup l -> ~ In x l -> NoDup (l ++ [x]).
Proof.
  intros Hl Hx. apply NoDup_rev in Hl. rewrite <- (rev_involutive (l ++ [x])).
  apply NoDup_rev. rewrite rev_app_distr. simpl. constructor; [|exact Hl].
  intro H. apply Hx. now apply in_rev.
Qed.

Lemma contact_numbers_updated (i : Z) (d : datetime) (s : Store) :
  map Conversation.contact_number (conversations (update_updated_at i d s))
  = map Conversation.contact_number (conversations s).
Proof.
  simpl. rewrite map_map. apply map_ext. intro c.
  now destruct (Conversation.id c =? i)%Z.
Qed.

Lemma find_conversation_none (n : pystr) (s : Store) :
  find_conversation (Some n) s = None ->
  ~ In n (map Conversation.contact_number (conversations s)).
Proof.
  unfold find_conversation. intros H Hin. apply in_map_iff in Hin as [c [<- Hc]].
  pose proof (find_none _ _ H c Hc) as E. simpl in E.
  now rewrite str_eqb_refl in E.
Qed.

Lemma find_conversation_some (n : option pystr) (s : Store) (c : Conversation.t) :
  find_conversation n s = Some c ->
  In c (conversations s) /\ n = Some (Conversation.contact_number c).
Proof.
  unfold find_conversation. intro H. apply find_some in H as [H1 H2]. split; [exact H1|].
  destruct n as [n|]; simpl in H2; [|discriminate].
  apply str_eqb_eq in H2. now subst.
Qed.

Lemma unique_contacts_add_conversation
    (n : pystr) (name : option pystr) (c u : datetime) (w : World) :
  holds unique_contacts w -> find_conversation (Some n) (working w) = None ->
  holds unique_contacts (snd (add_conversation (Some n) name c u w)).
Proof.
  intros [H1 H2] E. split; [exact H1|]. simpl. unfold unique_contacts. simpl.
  rewrite map_app. simpl. apply NoDup_snoc; [exact H2 | now apply find_conversation_none].
Qed.

Lemma unique_contacts_add_message (c : Z) (k : sender) (t : pystr) (d : datetime)
    (e : option pystr) : keeps unique_contacts (add_message c k t d e).
Proof. intros w H. exact H. Qed.

Lemma unique_contacts_serve (env : Env) (json_only : bool) (r : request) (sv : Server) :
  unique_contacts (database sv) ->
  unique_contacts (database (after (serve env json_only r sv))).
Proof.
  apply serve_keeps.
  - intros i d s H. unfold unique_contacts. now rewrite contact_numbers_updated.
  - intros i d s H. exact H.
  - apply unique_contacts_add_message.
  - apply unique_contacts_add_conversation.
Qed.

Lemma message_ids_sent (i : Z) (d : datetime) (s : Store) :
  map Message.id (messages (update_sent_at i d s)) = map Message.id (messages s).
Proof.
  simpl. rewrite map_map. apply map_ext. intro m.
  now destruct (Message.id m =? i)%Z.
Qed.

Lemma unique_message_ids_add_message (c : Z) (k : sender) (t : pystr) (d : datetime)
    (e : option pystr) : keeps unique_message_ids (add_message c k t d e).
Proof.
  intros w [H1 H2]. split; [exact H1|]. simpl. unfold unique_message_ids. simpl.
  rewrite map_app. simpl. apply NoDup_snoc; [exact H2 | apply next_id_fresh].
Qed.

Lemma unique_message_ids_serve (env : Env) (json_only : bool) (r : request) (sv : Server) :
  unique_message_ids (database sv) ->
  unique_message_ids (database (after (serve env json_only r sv))).
Proof.
  apply serve_keeps.
  - intros i d s H. exact H.
  - intros i d s H. unfold unique_message_ids. now rewrite message_ids_sent.
  - apply unique_message_ids_add_message.
  - intros n name c u w [H1 H2] _. split; [exact H1 | exact H2].
Qed.

Lemma unique_message_ids_run (trace : list (Env * bool * request)) (sv : Server) :
  unique_message_ids (database sv) -> unique_message_ids (database (run trace sv)).
Proof.
  revert sv. induction trace as [|[[env j] r] trace IH]; intros sv H; simpl; [exact H|].
  apply IH. now apply unique_message_ids_serve.
Qed.

(** C3: from a store with at most one conversation per [contact_number],
    every store a run of requests reaches has at most one; and on a store
    that holds a conversation with the normalized number, creating one
    redirects to it and changes nothing. *)
Theorem unique_contacts_invariant (trace : list (Env * bool * request)) (sv : Server) :
  unique_contacts (database sv) ->
  unique_contacts (database (run trace sv)) /\
  forall env json_only form chat_id c,
    normalize_chat_id (strip (or_empty (form_contact_number form))) = Ok chat_id ->
    find_conversation (Some chat_id) (database (run trace sv)) = Some c ->
    serve env json_only (PostNewConversation form) (run trace sv)
    = mkServed (Redirect (Conversation.id c), 302%Z) [(AlreadyExists, info)] (run trace sv).
Proof.
  intro H. split.
  - revert sv H. induction trace as [|[[env j] r] trace IH]; intros sv H; simpl; [exact H|].
    apply IH. now apply unique_contacts_serve.
  - intros env json_only form chat_id c Hn Hf. destruct (run trace sv) as [db n].
    unfold serve, view, new_conversation_post. simpl in Hf.
    destruct (strip (or_empty (form_contact_number form))) as [|x raw]; [discriminate|].
    rewrite Hn. unfold bind, query, flash, ret. simpl. now rewrite Hf.
Qed.

(** ** The webhook: status events *)

Lemma handle_outgoing_status_world (payload : json) (w : World) :
  snd (handle_outgoing_status payload w) = w.
Proof.
  unfold handle_outgoing_status, bind, lift, query, ret. simpl.
  destruct (get payload (py "idMessage")) as [e|]; [|reflexivity].
  destruct (get payload (py "status")) as [st|]; [|reflexivity].
  destruct (negb (truthy e)); [reflexivity|].
  destruct (bind_text e); [|reflexivity].
  destruct (find_message _ _); reflexivity.
Qed.

Lemma green_webhook_status (env : Env) (body : option json) (w : World) :
  event_of_type (payload_of body) STATUS ->
  green_webhook env body w = handle_outgoing_status (payload_of body) w.
Proof.
  unfold event_of_type, green_webhook, bind, lift. intros ->. reflexivity.
Qed.

(** ** The webhook: incoming events *)

Lemma green_webhook_incoming (env : Env) (body : option json) (w : World) :
  event_of_type (payload_of body) INCOMING ->
  green_webhook env body w = handle_incoming_message env (payload_of body) w.
Proof.
  unfold event_of_type, green_webhook, bind, lift. intros ->. reflexivity.
Qed.

Lemma find_conversation_null (s : Store) : find_conversation None s = None.
Proof.
  unfold find_conversation. induction (conversations s) as [|c l IH]; simpl; auto.
Qed.

Lemma handle_errors_500 (e : exn) :
  server_error e -> handle_errors true e = (ErrorJson 500%Z, 500%Z).
Proof. destruct e; simpl; tauto. Qed.

Lemma utcfromtimestamp_server_error (v : json) (e : exn) :
  utcfromtimestamp v = Raise e -> server_error e.
Proof.
  destruct v; simpl; unfold from_seconds;
    repeat match goal with |- context [if ?b then _ else _] => destruct b end;
    intros [= <-]; exact I.
Qed.

Lemma sent_at_of_session (env : Env) (timestamp : json) (w : World) :
  committed (snd (sent_at_of env timestamp w)) = committed w /\
  working (snd (sent_at_of env timestamp w)) = working w /\
  flashes (snd (sent_at_of env timestamp w)) = flashes w /\
  forall e, fst (sent_at_of env timestamp w) = Raise e -> server_error e.
Proof.
  unfold sent_at_of, lift, utcnow. destruct (truthy timestamp); simpl.
  - repeat split. apply utcfromtimestamp_server_error.
  - repeat split. discriminate.
Qed.

Lemma resolve_conversation_null (contact_name : json) (sent_at : datetime) (w : World) :
  resolve_conversation JNull contact_name sent_at w
  = (match bind_text contact_name with
     | Ok _ => Raise IntegrityError
     | Raise e => Raise e
     end, w).
Proof.
  unfold resolve_conversation, bind, lift, query. simpl.
  rewrite find_conversation_null. now destruct (bind_text contact_name).
Qed.

Lemma bind_text_server_error (v : json) (e : exn) :
  bind_text v = Raise e -> server_error e.
Proof.
  destruct v; cbn [bind_text];
    repeat match goal with |- context [if ?b then _ else _] => destruct b end;
    intros [= <-]; exact I.
Qed.

Lemma bind_text_or_null (v : json) (t : option pystr) :
  bind_text v = Ok t -> exists t', bind_text (py_or v JNull) = Ok t'.
Proof. unfold py_or. destruct (truthy v); simpl; eauto. Qed.

Lemma handle_incoming_message_null_chat
    (env : Env) (payload text sender_name : json) (w : World) :
  event_of_type payload INCOMING ->
  incoming_carries payload text JNull sender_name ->
  truthy text = true ->
  exists e w',
    handle_incoming_message env payload w = (Raise e, w') /\
    committed w' = committed w /\
    server_error e /\
    forall timestamp sent_at name,
      get payload (py "timestamp") = Ok timestamp ->
      fst (sent_at_of env timestamp w) = Ok sent_at ->
      bind_text sender_name = Ok name ->
      e = IntegrityError.
Proof.
  intros Ht (md & td & sd & Hmd & Htd & Htext & Hsd & Hchat & Hname) Htruthy.
  unfold event_of_type in Ht.
  destruct payload as [| | | | |kv]; try discriminate.
  unfold handle_incoming_message, bind, lift.
  rewrite Hmd, Hsd, Htd, Htext, Htruthy, Hchat, Hname.
  change (negb true) with false. cbv beta iota.
  destruct (get (JObj kv) (py "idMessage")) as [ext|] eqn:Eid; [|discriminate].
  destruct (get (JObj kv) (py "timestamp")) as [ts|] eqn:Ets; [|discriminate].
  destruct (sent_at_of_session env ts w) as (Hc & _ & _ & He).
  destruct (sent_at_of env ts w) as [[t|e] w'] eqn:Es; cbn [fst snd] in *.
  - rewrite resolve_conversation_null.
    destruct (bind_text (py_or sender_name JNull)) as [nm|e] eqn:En.
    + exists IntegrityError, w'. repeat split; auto.
    + exists e, w'. repeat split; auto.
      * now apply (bind_text_server_error _ _ En).
      * intros ts' t' nm _ _ Hb.
        destruct (bind_text_or_null _ _ Hb) as [t'' Hb']. congruence.
  - exists e, w'. repeat split; auto.
    intros ts' t' nm [= <-]. rewrite Es. discriminate.
Qed.

(** C10: an incoming event with text and no [chatId] is not ignored: the
    request ends in a 500 and the database is as before.  When the
    timestamp and the sender name are usable the exception is the NOT NULL
    constraint of [contact_number]. *)
Theorem incoming_without_chat_id_fails
    (env : Env) (json_only : bool) (body : option json) (sv : Server)
    (text sender_name : json) :
  event_of_type (payload_of body) INCOMING ->
  incoming_carries (payload_of body) text JNull sender_name ->
  truthy text = true ->
  let served := serve env json_only (PostWebhook body) sv in
  let session := mkWorld (database sv) (database sv) (readings sv) [] in
  answer served = (ErrorJson 500%Z, 500%Z) /\
  database (after served) = database sv /\
  forall timestamp sent_at name,
    get (payload_of body) (py "timestamp") = Ok timestamp ->
    fst (sent_at_of env timestamp session) = Ok sent_at ->
    bind_text sender_name = Ok name ->
    fst (view env (PostWebhook body) session) = Raise IntegrityError.
Proof.
  intros Ht Hc Htruthy served session.
  destruct (handle_incoming_message_null_chat env _ _ _ session Ht Hc Htruthy)
    as (e & w' & Hrun & Hdb & He & Hint).
  subst served. unfold serve. fold session. simpl view.
  rewrite (green_webhook_incoming env body _ Ht), Hrun. simpl.
  rewrite orb_true_r. repeat split.
  - now apply handle_errors_500.
  - exact Hdb.
  - intros ts t nm H1 H2 H3. f_equal. eapply Hint; eauto.
Qed.

(** ** The conversation service *)

(** The three ways a send fails before an answer is read. *)
Lemma send_and_read_id_failures (env : Env) (chat_id message_text : pystr) :
  (configured (GREEN_API_INSTANCE_ID env) = None \/
   configured (GREEN_API_API_TOKEN env) = None ->
   send_and_read_id env chat_id message_text = Raise RuntimeError) /\
  (forall instance token chat,
     configured (GREEN_API_INSTANCE_ID env) = Some instance ->
     configured (GREEN_API_API_TOKEN env) = Some token ->
     normalize_chat_id chat_id = Ok chat ->
     let url := GREEN_API_BASE_URL env ++ py "/waInstance" ++ instance
                ++ py "/sendMessage/" ++ token in
     let payload := JObj [(py "chatId", JStr chat); (py "message", JStr message_text)] in
     (post env url payload = Unreachable ->
      send_and_read_id env chat_id message_text = Raise ConnectionError) /\
     (forall r, post env url payload = Responded r ->
        (400 <= status_code r < 600)%Z ->
        send_and_read_id env chat_id message_text = Raise (HTTPError (status_code r)))).
Proof.
  unfold send_and_read_id, send_whatsapp_message. split.
  - intros [H|H]; rewrite H; [reflexivity|].
    now destruct (configured (GREEN_API_INSTANCE_ID env)).
  - intros instance token chat -> -> Hn. rewrite Hn. cbn [and_then].
    split; [now intros ->|].
    intros r -> Hr. unfold raise_for_status.
    assert ((400 <=? status_code r)%Z && (status_code r <? 600)%Z = true) as ->; [|reflexivity].
    apply andb_true_iff. split; [apply Z.leb_le | apply Z.ltb_lt]; lia.
Qed.

(** C2: when the send of the initial message raises, whatever it raises,
    the view rolls the session back, flashes the failure and shows the form
    again: the database, and the session with it, hold what they held
    before the request. *)
Theorem new_conversation_send_failure
    (env : Env) (json_only : bool) (form : new_conversation_form) (sv : Server)
    (chat_id : pystr) (e : exn) :
  normalize_chat_id (strip (or_empty (form_contact_number form))) = Ok chat_id ->
  find_conversation (Some chat_id) (database sv) = None ->
  strip (or_empty (form_initial_message form)) <> [] ->
  send_and_read_id env chat_id (strip (or_empty (form_initial_message form))) = Raise e ->
  let page := (RenderTemplate new_conversation_html, 200%Z) in
  let failure :=
    match e with
    | HTTPError code => InitialSendHTTPError code
    | _ => InitialSendFailed e
    end in
  view env (PostNewConversation form)
       (mkWorld (database sv) (database sv) (readings sv) [])
  = (Ok page,
     mkWorld (database sv) (database sv) (S (S (readings sv))) [(failure, danger)]) /\
  serve env json_only (PostNewConversation form) sv
  = mkServed page [(failure, danger)] (mkServer (database sv) (S (S (readings sv)))).
Proof.
  intros Hn Hf Hm Hs page failure.
  assert (view env (PostNewConversation form)
            (mkWorld (database sv) (database sv) (readings sv) [])
          = (Ok page,
             mkWorld (database sv) (database sv) (S (S (readings sv)))
               [(failure, danger)])) as Hv.
  { unfold view, new_conversation_post.
    destruct (strip (or_empty (form_contact_number form))) as [|x raw]; [discriminate|].
    rewrite Hn.
    unfold bind at 1, query at 1. cbn [working]. rewrite Hf.
    destruct (strip (or_empty (form_initial_message form))) as [|y text]; [congruence|].
    rewrite Hs. subst failure page. destruct e; reflexivity. }
  split; [exact Hv|]. unfold serve. now rewrite Hv.
Qed.

(** ** The handlers compute the closed forms *)

Lemma sent_at_of_eq (env : Env) (timestamp : json) (w : World) :
  sent_at_of env timestamp w
  = (event_time env timestamp (ticks w),
     mkWorld (committed w) (working w) (reads_of timestamp (ticks w)) (flashes w)).
Proof.
  unfold sent_at_of, event_time, reads_of, lift, utcnow.
  destruct (truthy timestamp); [now destruct w | reflexivity].
Qed.

Lemma bind_text_str (s : pystr) : encodable s = true -> bind_text (JStr s) = Ok (Some s).
Proof. intro H. cbn [bind_text]. now rewrite H. Qed.

Lemma resolve_conversation_eq (chat : pystr) (contact_name : json) (name : option pystr)
    (t : datetime) (w : World) :
  encodable chat = true ->
  bind_text contact_name = Ok name ->
  exists c,
    resolve_conversation (JStr chat) contact_name t w
    = (Ok c, mkWorld (committed w) (snd (resolve chat name t (working w)))
                     (ticks w) (flashes w)) /\
    Conversation.id c = fst (resolve chat name t (working w)).
Proof.
  intros Hchat Hn. unfold resolve_conversation, resolve, bind, lift, query.
  rewrite (bind_text_str _ Hchat). simpl.
  destruct (find_conversation (Some chat) (working w)) as [c|].
  - exists c. split; [now destruct w | reflexivity].
  - rewrite Hn. unfold add_conversation, bind, query, execute, ret. simpl.
    eexists. split; reflexivity.
Qed.

Lemma green_webhook_outgoing (env : Env) (body : option json) (w : World) :
  event_of_type (payload_of body) OUTGOING ->
  green_webhook env body w = handle_outgoing_message env (payload_of body) w.
Proof.
  unfold event_of_type, green_webhook, bind, lift. intros ->. reflexivity.
Qed.

Lemma truthy_str (s : pystr) : s <> [] -> truthy (JStr s) = true.
Proof. destruct s; [congruence | reflexivity]. Qed.

Lemma resolve_fst (chat : pystr) (name : option pystr) (t : datetime) (s : Store) :
  fst (resolve chat name t s) = resolved chat s.
Proof.
  unfold resolved, resolve. now destruct (find_conversation (Some chat) s).
Qed.

Lemma resolve_messages (chat : pystr) (name : option pystr) (t : datetime) (s : Store) :
  messages (snd (resolve chat name t s)) = messages s.
Proof. unfold resolve. now destruct (find_conversation (Some chat) s). Qed.

Lemma serve_outgoing
    (env : Env) (json_only : bool) (body : option json) (sv : Server)
    (chat text : pystr) (external_id timestamp : json) (ext : option pystr)
    (t : datetime) :
  event_of_type (payload_of body) OUTGOING ->
  outgoing_carries (payload_of body) (JStr chat) (JStr text) ->
  chat <> [] -> text <> [] ->
  encodable chat = true ->
  (latest_message ext (resolved chat (database sv)) (database sv) = None ->
   encodable text = true) ->
  get (payload_of body) (py "idMessage") = Ok external_id ->
  bind_text external_id = Ok ext ->
  get (payload_of body) (py "timestamp") = Ok timestamp ->
  event_time env timestamp (readings sv) = Ok t ->
  serve env json_only (PostWebhook body) sv
  = mkServed (Jsonify (status_body (py "stored")), 200%Z) []
      (mkServer
         (outgoing_effect chat text ext t
            (clock env (reads_of timestamp (readings sv))) (database sv))
         (S (reads_of timestamp (readings sv)))).
Proof.
  intros Ht (md & Hmd & Hchat & Htext) Hc Hx Hec Hex Hid Hext Hts Htime.
  unfold serve. simpl view. rewrite (green_webhook_outgoing env body _ Ht).
  unfold handle_outgoing_message, bind at 1 2 3 4 5 6, lift.
  rewrite Hmd, Hchat, Htext, Hid, Hts, sent_at_of_eq.
  cbn [committed working ticks flashes]. rewrite Htime.
  rewrite (truthy_str _ Hc), (truthy_str _ Hx). cbn [andb negb].
  unfold bind at 1.
  destruct (resolve_conversation_eq chat (JStr chat) (Some chat) t
              (mkWorld (database sv) (database sv)
                 (reads_of timestamp (readings sv)) []) Hec (bind_text_str _ Hec))
    as (c & -> & Hcid).
  cbn [committed working ticks flashes] in *.
  unfold bind at 1. rewrite Hext.
  unfold outgoing_effect.
  pose proof (resolve_fst chat (Some chat) t (database sv)) as Hfst.
  pose proof (resolve_messages chat (Some chat) t (database sv)) as Hmsg.
  destruct (resolve chat (Some chat) t (database sv)) as [cid s1]. cbn [fst snd] in *.
  subst cid.
  unfold bind at 1, query at 1. cbn [working].
  destruct (latest_message ext (Conversation.id c) s1) as [m|] eqn:El; [reflexivity|].
  unfold latest_message in El, Hex. rewrite Hfst, Hmsg in El.
  unfold bind_required, and_then. now rewrite (bind_text_str _ (Hex El)).
Qed.

Lemma serve_incoming
    (env : Env) (json_only : bool) (body : option json) (sv : Server)
    (chat text : pystr) (sender_name external_id timestamp : json)
    (name ext : option pystr) (t : datetime) :
  event_of_type (payload_of body) INCOMING ->
  incoming_carries (payload_of body) (JStr text) (JStr chat) sender_name ->
  text <> [] ->
  encodable chat = true -> encodable text = true ->
  bind_text (py_or sender_name (JStr chat)) = Ok name ->
  get (payload_of body) (py "idMessage") = Ok external_id ->
  bind_text external_id = Ok ext ->
  get (payload_of body) (py "timestamp") = Ok timestamp ->
  event_time env timestamp (readings sv) = Ok t ->
  serve env json_only (PostWebhook body) sv
  = mkServed (Jsonify (status_body (py "received")), 200%Z) []
      (mkServer
         (incoming_effect chat name text ext t
            (clock env (reads_of timestamp (readings sv))) (database sv))
         (S (reads_of timestamp (readings sv)))).
Proof.
  intros Ht (md & td & sd & Hmd & Htd & Htext & Hsd & Hchat & Hname) Hx Hec Hex Hn Hid Hext
    Hts Htime.
  unfold serve. simpl view. rewrite (green_webhook_incoming env body _ Ht).
  unfold handle_incoming_message, bind at 1 2 3 4, lift.
  rewrite Hmd, Hsd, Htd, Htext, (truthy_str _ Hx). cbn [negb].
  unfold bind at 1 2 3 4 5.
  rewrite Hchat, Hname, Hid, Hts, sent_at_of_eq.
  cbn [committed working ticks flashes]. rewrite Htime.
  unfold bind at 1.
  destruct (resolve_conversation_eq chat (py_or sender_name (JStr chat)) name t
              (mkWorld (database sv) (database sv)
                 (reads_of timestamp (readings sv)) []) Hec Hn)
    as (c & -> & Hcid).
  cbn [committed working ticks flashes] in *.
  unfold incoming_effect.
  destruct (resolve chat name t (database sv)) as [cid s1]. cbn [fst snd] in *.
  subst cid. unfold bind, utcnow, execute. cbn [committed working ticks flashes].
  unfold bind_required, and_then. rewrite (bind_text_str _ Hex), Hext.
  reflexivity.
Qed.

(** ** The deduplication lookup *)

Lemma column_matches_eq (a b : option pystr) : column_matches a b = true <-> a = b.
Proof.
  destruct a as [a|], b as [b|]; simpl; split; intro H; try congruence; try reflexivity.
  - apply str_eqb_eq in H. congruence.
  - apply str_eqb_eq. congruence.
Qed.

Lemma in_thread_belongs (e : option pystr) (cid : Z) (m : Message.t) :
  in_thread e cid m = true <-> belongs e cid m.
Proof.
  unfold in_thread, belongs. rewrite andb_true_iff, column_matches_eq, Z.eqb_eq. tauto.
Qed.

Lemma greatest_nil (l : list Message.t) : greatest l = None -> l = [].
Proof.
  destruct l as [|m l]; [reflexivity|]. simpl.
  destruct (greatest l) as [m'|]; [|discriminate].
  destruct (Message.id m <? Message.id m')%Z; discriminate.
Qed.

Lemma greatest_max (l : list Message.t) (m : Message.t) :
  greatest l = Some m ->
  In m l /\ forall x, In x l -> (Message.id x <= Message.id m)%Z.
Proof.
  revert m. induction l as [|y l IH]; intros m; simpl; [discriminate|].
  destruct (greatest l) as [m'|] eqn:E.
  - destruct (IH m' eq_refl) as [Hin Hmax].
    destruct (Z.ltb_spec (Message.id y) (Message.id m')); intros [= <-].
    + split; [now right|]. intros x [<-|Hx]; [lia | now apply Hmax].
    + split; [now left|]. intros x [<-|Hx]; [lia | specialize (Hmax x Hx); lia].
  - intros [= <-]. apply greatest_nil in E. subst l.
    split; [now left|]. intros x [<-|[]]. lia.
Qed.

(** ** The webhook: what a status event is answered *)

(** C6: a status event leaves the database and the clock as they were,
    whatever it carries.  With no message id, or one that fails the truth
    test, the answer is the 200 "ignored" of a missing id.  With an id that
    is a string free of lone surrogates, or an integer of 64 bits (compared
    as its decimal text), the answer is a 200 again: "acknowledged" with
    the status value when some stored message has that external id,
    "ignored" as unknown when none has. *)
Theorem outgoing_status_changes_nothing
    (env : Env) (json_only : bool) (body : option json) (sv : Server) :
  event_of_type (payload_of body) STATUS ->
  let served := serve env json_only (PostWebhook body) sv in
  let known e :=
    exists m, In m (messages (database sv)) /\ Message.external_id m = Some e in
  after served = sv /\
  exists status,
    get (payload_of body) (py "status") = Ok status /\
    forall v,
      get (payload_of body) (py "idMessage") = Ok v ->
      (truthy v = false -> answer served = ignored "Sin id de mensaje") /\
      (forall e,
         (v = JStr e /\ e <> [] /\ encodable e = true) \/
         (exists z, v = JInt z /\ z <> 0%Z /\ fits_int64 z = true /\ e = decimal z) ->
         (known e ->
          answer served = (Jsonify (status_detail (py "acknowledged") status), 200%Z)) /\
         (~ known e -> answer served = ignored "Mensaje desconocido")).
Proof.
  intros H served known. subst served. unfold serve, view.
  rewrite (green_webhook_status env body _ H).
  pose proof (handle_outgoing_status_world (payload_of body)
                (mkWorld (database sv) (database sv) (readings sv) [])) as Hw.
  split.
  - destruct (handle_outgoing_status _ _) as [o w]. simpl in *. subst w.
    now destruct sv.
  - clear Hw. unfold event_of_type in H.
    destruct (payload_of body) as [| | | | |kv] eqn:P; try discriminate.
    eexists. split; [reflexivity|]. intros v Hv.
    unfold handle_outgoing_status, bind, lift, query, ret. rewrite Hv.
    cbn [fst snd answer working]. split.
    + intros ->. reflexivity.
    + intros e Hcase.
      assert (truthy v = true /\ bind_text v = Ok (Some e)) as [-> ->].
      { destruct Hcase as [(-> & Hne & Hen) | (z & -> & Hz & Hfit & ->)]; split.
        - now apply truthy_str.
        - now apply bind_text_str.
        - cbn [truthy]. now destruct (Z.eqb_spec z 0).
        - cbn [bind_text]. now rewrite Hfit. }
      cbn [negb fst snd answer working]. split.
      * intros (m & Hin & Hm).
        destruct (find_message (Some e) (database sv)) eqn:E; [reflexivity|].
        pose proof (find_none _ _ E m Hin) as Hx. cbn beta in Hx.
        rewrite Hm in Hx. cbn [column_matches] in Hx. rewrite str_eqb_refl in Hx.
        discriminate.
      * intros Hno.
        destruct (find_message (Some e) (database sv)) as [m|] eqn:E; [|reflexivity].
        destruct Hno. apply find_some in E as [Hin Hm].
        apply column_matches_eq in Hm. now exists m.
Qed.

Lemma latest_message_some (e : option pystr) (cid : Z) (s : Store) (m : Message.t) :
  latest_message e cid s = Some m ->
  In m (messages s) /\ belongs e cid m /\
  forall x, In x (messages s) -> belongs e cid x -> (Message.id x <= Message.id m)%Z.
Proof.
  unfold latest_message. intro H. apply greatest_max in H as [Hin Hmax].
  apply filter_In in Hin as [Hin Hm]. split; [exact Hin|].
  split; [now apply in_thread_belongs|].
  intros x Hx Hb. apply Hmax. apply filter_In. split; [exact Hx|].
  now apply in_thread_belongs.
Qed.

Lemma latest_message_none (e : option pystr) (cid : Z) (s : Store) :
  latest_message e cid s = None <->
  forall x, In x (messages s) -> ~ belongs e cid x.
Proof.
  unfold latest_message. split.
  - intros H x Hx Hb. apply greatest_nil in H.
    assert (In x (filter (in_thread e cid) (messages s))) as Hin
      by (apply filter_In; split; [exact Hx | now apply in_thread_belongs]).
    now rewrite H in Hin.
  - intro H. destruct (greatest _) as [m|] eqn:E; [|reflexivity].
    apply greatest_max in E as [Hin _]. apply filter_In in Hin as [Hin Hm].
    apply in_thread_belongs in Hm. now destruct (H m Hin).
Qed.

Lemma update_one (l : list Message.t) (m : Message.t) (t : datetime) :
  NoDup (map Message.id l) -> In m l ->
  exists l1 l2,
    l = l1 ++ m :: l2 /\
    map (fun x => if (Message.id x =? Message.id m)%Z then Message.set_sent_at x t else x) l
    = l1 ++ Message.set_sent_at m t :: l2.
Proof.
  intros Hnd Hin. apply in_split in Hin as (l1 & l2 & ->).
  exists l1, l2. split; [reflexivity|].
  rewrite map_app in Hnd. simpl in Hnd. apply NoDup_remove_2 in Hnd.
  rewrite map_app. simpl. rewrite Z.eqb_refl. f_equal; [|f_equal].
  - rewrite <- (map_id l1) at 2. apply map_ext_in. intros x Hx.
    destruct (Z.eqb_spec (Message.id x) (Message.id m)) as [E|_]; [|reflexivity].
    destruct Hnd. apply in_or_app. left. rewrite <- E. now apply in_map.
  - rewrite <- (map_id l2) at 2. apply map_ext_in. intros x Hx.
    destruct (Z.eqb_spec (Message.id x) (Message.id m)) as [E|_]; [|reflexivity].
    destruct Hnd. apply in_or_app. right. rewrite <- E. now apply in_map.
Qed.

(** ** The closed forms, property by property *)

Lemma find_snoc {A} (p : A -> bool) (l : list A) (x : A) :
  find p l = None -> p x = true -> find p (l ++ [x]) = Some x.
Proof.
  intros H Hx. induction l as [|y l IH]; simpl in *; [now rewrite Hx|].
  destruct (p y); [discriminate | now apply IH].
Qed.

Lemma resolve_found (chat : pystr) (name : option pystr) (t : datetime) (s : Store) :
  exists c,
    find_conversation (Some chat) (snd (resolve chat name t s)) = Some c /\
    Conversation.id c = resolved chat s.
Proof.
  unfold resolved, resolve. destruct (find_conversation (Some chat) s) as [c|] eqn:E.
  - exists c. now split.
  - exists (Conversation.mk (next_id (map Conversation.id (conversations s))) chat name t t).
    split; [|reflexivity]. unfold find_conversation. cbn [snd conversations insert_conversation].
    apply find_snoc; [exact E | simpl; apply str_eqb_refl].
Qed.

Lemma find_map {A} (p : A -> bool) (f : A -> A) (l : list A) :
  (forall x, p (f x) = p x) -> find p (map f l) = option_map f (find p l).
Proof.
  intro H. induction l as [|x l IH]; simpl; [reflexivity|].
  rewrite H. now destruct (p x).
Qed.

Lemma find_conversation_updated (n : option pystr) (i : Z) (d : datetime) (s : Store)
    (c : Conversation.t) :
  find_conversation n s = Some c -> Conversation.id c = i ->
  find_conversation n (update_updated_at i d s) = Some (Conversation.set_updated_at c d).
Proof.
  unfold find_conversation. cbn [conversations update_updated_at]. intros H Hi.
  rewrite find_map, H; [simpl; now rewrite Hi, Z.eqb_refl|].
  intro x. now destruct (Conversation.id x =? i)%Z.
Qed.

Lemma outgoing_effect_messages
    (chat text : pystr) (ext : option pystr) (t now : datetime) (s : Store) :
  messages (outgoing_effect chat text ext t now s)
  = match latest_message ext (resolved chat s) s with
    | Some m =>
      map (fun x => if (Message.id x =? Message.id m)%Z then Message.set_sent_at x t else x)
          (messages s)
    | None =>
      messages s ++
      [Message.mk (next_id (map Message.id (messages s))) (resolved chat s) agent text t ext]
    end.
Proof.
  unfold outgoing_effect.
  pose proof (resolve_fst chat (Some chat) t s) as H1.
  pose proof (resolve_messages chat (Some chat) t s) as H2.
  destruct (resolve chat (Some chat) t s) as [cid s1]. simpl in H1, H2. subst cid.
  unfold latest_message. rewrite H2.
  destruct (greatest _); simpl; now rewrite H2.
Qed.

Lemma outgoing_effect_conversation
    (chat text : pystr) (ext : option pystr) (t now : datetime) (s : Store) :
  exists c,
    find_conversation (Some chat) (outgoing_effect chat text ext t now s) = Some c /\
    Conversation.id c = resolved chat s /\
    Conversation.updated_at c = now.
Proof.
  unfold outgoing_effect.
  pose proof (resolve_fst chat (Some chat) t s) as H1.
  destruct (resolve_found chat (Some chat) t s) as (c & Hf & Hc).
  destruct (resolve chat (Some chat) t s) as [cid s1]. simpl in H1, Hf. subst cid.
  exists (Conversation.set_updated_at c now). split; [|now split].
  apply find_conversation_updated; [|exact Hc].
  destruct (latest_message ext (resolved chat s) s1); exact Hf.
Qed.

Lemma resolved_outgoing_effect
    (chat text : pystr) (ext : option pystr) (t now : datetime) (s : Store) :
  resolved chat (outgoing_effect chat text ext t now s) = resolved chat s.
Proof.
  destruct (outgoing_effect_conversation chat text ext t now s) as (c & Hf & Hc & _).
  unfold resolved at 1, resolve. now rewrite Hf.
Qed.

Lemma incoming_effect_messages
    (chat : pystr) (name : option pystr) (text : pystr) (ext : option pystr)
    (t now : datetime) (s : Store) :
  messages (incoming_effect chat name text ext t now s)
  = messages s ++
    [Message.mk (next_id (map Message.id (messages s))) (resolved chat s) customer text t ext].
Proof.
  unfold incoming_effect.
  pose proof (resolve_fst chat name t s) as H1.
  pose proof (resolve_messages chat name t s) as H2.
  destruct (resolve chat name t s) as [cid s1]. simpl in *. subst cid. now rewrite H2.
Qed.

Lemma incoming_effect_conversation
    (chat : pystr) (name : option pystr) (text : pystr) (ext : option pystr)
    (t now : datetime) (s : Store) :
  exists c,
    find_conversation (Some chat) (incoming_effect chat name text ext t now s) = Some c /\
    Conversation.id c = resolved chat s /\
    Conversation.updated_at c = now.
Proof.
  unfold incoming_effect.
  pose proof (resolve_fst chat name t s) as H1.
  destruct (resolve_found chat name t s) as (c & Hf & Hc).
  destruct (resolve chat name t s) as [cid s1]. simpl in H1, Hf. subst cid.
  exists (Conversation.set_updated_at c now). split; [|now split].
  now apply (find_conversation_updated (Some chat) (resolved chat s) now s1 c).
Qed.

Lemma event_time_int (env : Env) (z : Z) (n : nat) (t : datetime) :
  event_time env (JInt z) n = Ok t -> z <> 0%Z -> t = (z * 1000000)%Z.
Proof.
  unfold event_time. simpl. intros H Hz.
  destruct (Z.eqb_spec z 0) as [E|_]; [contradiction|]. simpl in H.
  unfold from_seconds in H. destruct (_ || _); congruence.
Qed.

Lemma event_time_falsy (env : Env) (timestamp : json) (n : nat) (t : datetime) :
  event_time env timestamp n = Ok t -> truthy timestamp = false -> t = clock env n.
Proof. unfold event_time. intros H E. rewrite E in H. congruence. Qed.

Lemma outgoing_effect_latest
    (chat text : pystr) (ext : option pystr) (t now : datetime) (s : Store) :
  latest_message ext (resolved chat s) s = None ->
  latest_message ext (resolved chat s) (outgoing_effect chat text ext t now s)
  = Some (Message.mk (next_id (map Message.id (messages s))) (resolved chat s)
            agent text t ext).
Proof.
  intro Hnone.
  assert (messages (outgoing_effect chat text ext t now s)
          = messages s ++ [Message.mk (next_id (map Message.id (messages s)))
                             (resolved chat s) agent text t ext]) as Hm
    by now rewrite outgoing_effect_messages, Hnone.
  unfold latest_message in *. rewrite Hm, filter_app.
  apply greatest_nil in Hnone. rewrite Hnone. simpl.
  match goal with |- context [in_thread ext ?c ?m] =>
    assert (in_thread ext c m = true) as ->; [|reflexivity] end.
  apply in_thread_belongs. now split.
Qed.

Lemma outgoing_effect_twice
    (chat text text' : pystr) (ext : option pystr) (t now t' now' : datetime) (s : Store) :
  latest_message ext (resolved chat s) s = None ->
  messages (outgoing_effect chat text' ext t' now' (outgoing_effect chat text ext t now s))
  = messages s ++
    [Message.mk (next_id (map Message.id (messages s))) (resolved chat s) agent text t' ext].
Proof.
  intro Hnone.
  rewrite outgoing_effect_messages, resolved_outgoing_effect.
  set (new := Message.mk (next_id (map Message.id (messages s))) (resolved chat s)
                agent text t ext).
  assert (messages (outgoing_effect chat text ext t now s) = messages s ++ [new]) as Hm
    by now rewrite outgoing_effect_messages, Hnone.
  assert (latest_message ext (resolved chat s) (outgoing_effect chat text ext t now s)
          = Some new) as ->.
  { unfold latest_message in *. rewrite Hm, filter_app.
    apply greatest_nil in Hnone. rewrite Hnone. simpl.
    assert (in_thread ext (resolved chat s) new = true) as ->; [|reflexivity].
    apply in_thread_belongs. now split. }
  rewrite Hm, map_app. simpl. rewrite Z.eqb_refl. f_equal.
  rewrite <- (map_id (messages s)) at 2. apply map_ext_in. intros x Hx.
  destruct (Z.eqb_spec (Message.id x) (next_id (map Message.id (messages s)))) as [E|_];
    [|reflexivity].
  destruct (next_id_fresh (map Message.id (messages s))). rewrite <- E. now apply in_map.
Qed.

(** The rule of [handle_outgoing_message], for an external id of either
    kind ([ext] is [None] when the event has none). *)
Lemma outgoing_rule
    (env : Env) (json_only : bool) (body : option json) (sv : Server)
    (chat text : pystr) (external_id timestamp : json) (ext : option pystr)
    (t : datetime) :
  event_of_type (payload_of body) OUTGOING ->
  outgoing_carries (payload_of body) (JStr chat) (JStr text) ->
  chat <> [] -> text <> [] ->
  encodable chat = true -> encodable text = true ->
  get (payload_of body) (py "idMessage") = Ok external_id ->
  bind_text external_id = Ok ext ->
  get (payload_of body) (py "timestamp") = Ok timestamp ->
  event_time env timestamp (readings sv) = Ok t ->
  unique_message_ids (database sv) ->
  let served := serve env json_only (PostWebhook body) sv in
  let cid := resolved chat (database sv) in
  let before := messages (database sv) in
  answer served = (Jsonify (status_body (py "stored")), 200%Z) /\
  ((exists m, In m before /\ belongs ext cid m) ->
   exists l1 latest l2,
     before = l1 ++ latest :: l2 /\
     belongs ext cid latest /\
     (forall x, In x before -> belongs ext cid x ->
                (Message.id x <= Message.id latest)%Z) /\
     messages (database (after served)) = l1 ++ Message.set_sent_at latest t :: l2) /\
  ((forall m, In m before -> ~ belongs ext cid m) ->
   messages (database (after served))
   = before ++ [Message.mk (next_id (map Message.id before)) cid agent text t ext] /\
   forall env' json_only' body' text' timestamp' t',
     event_of_type (payload_of body') OUTGOING ->
     outgoing_carries (payload_of body') (JStr chat) (JStr text') ->
     text' <> [] ->
     get (payload_of body') (py "idMessage") = Ok external_id ->
     get (payload_of body') (py "timestamp") = Ok timestamp' ->
     event_time env' timestamp' (readings (after served)) = Ok t' ->
     messages (database (after (serve env' json_only' (PostWebhook body') (after served))))
     = before ++ [Message.mk (next_id (map Message.id before)) cid agent text t' ext]).
Proof.
  intros Ht Hc Hchat Htext Hec Hex Hid Hext Hts Htime Hnd served cid before.
  subst served.
  rewrite (serve_outgoing env json_only body sv chat text external_id timestamp ext t)
    by (try assumption; intros _; assumption).
  cbn [answer after database readings]. split; [reflexivity|].
  rewrite outgoing_effect_messages. fold cid before. split.
  - intros (m & Hin & Hb).
    destruct (latest_message ext cid (database sv)) as [latest|] eqn:E.
    + apply latest_message_some in E as (Hl & Hbl & Hmax).
      destruct (update_one before latest t Hnd Hl) as (l1 & l2 & H1 & H2).
      exists l1, latest, l2. auto.
    + destruct (proj1 (latest_message_none ext cid (database sv)) E m Hin Hb).
  - intro Hnone. apply latest_message_none in Hnone. rewrite Hnone.
    split; [reflexivity|].
    intros env' json_only' body' text' timestamp' t' Ht' Hc' Htext' Hid' Hts' Htime'.
    rewrite (serve_outgoing env' json_only' body' _ chat text' external_id timestamp' ext t')
      by (try assumption; cbn [database];
          rewrite resolved_outgoing_effect, (outgoing_effect_latest _ _ _ _ _ _ Hnone);
          discriminate).
    cbn [after database readings]. now apply outgoing_effect_twice.
Qed.

(** C1: an outgoing event with a chat id, a text and a message id, each a
    string free of lone surrogates (with one the bind fails).  When
    the conversation of the chat id holds messages with that external id,
    the one of greatest id gets the event's [sent_at] and no row is added or
    otherwise changed; when it holds none, one message of sender type
    [agent] is appended.  So from a store without such a message, a second
    event with the same chat and message id leaves the one row of the
    first, with the time of the second.  [t] is the [sent_at] the handler
    derives from the event, the timestamp itself when that is a non-zero
    integer. *)
Theorem outgoing_deduplicates
    (env : Env) (json_only : bool) (body : option json) (sv : Server)
    (chat text e : pystr) (timestamp : json) (t : datetime) :
  event_of_type (payload_of body) OUTGOING ->
  outgoing_carries (payload_of body) (JStr chat) (JStr text) ->
  chat <> [] -> text <> [] ->
  encodable chat = true -> encodable text = true -> encodable e = true ->
  get (payload_of body) (py "idMessage") = Ok (JStr e) ->
  get (payload_of body) (py "timestamp") = Ok timestamp ->
  event_time env timestamp (readings sv) = Ok t ->
  unique_message_ids (database sv) ->
  let served := serve env json_only (PostWebhook body) sv in
  let cid := resolved chat (database sv) in
  let before := messages (database sv) in
  answer served = (Jsonify (status_body (py "stored")), 200%Z) /\
  (forall z, timestamp = JInt z -> z <> 0%Z -> t = (z * 1000000)%Z) /\
  ((exists m, In m before /\ belongs (Some e) cid m) ->
   exists l1 latest l2,
     before = l1 ++ latest :: l2 /\
     belongs (Some e) cid latest /\
     (forall x, In x before -> belongs (Some e) cid x ->
                (Message.id x <= Message.id latest)%Z) /\
     messages (database (after served)) = l1 ++ Message.set_sent_at latest t :: l2) /\
  ((forall m, In m before -> ~ belongs (Some e) cid m) ->
   messages (database (after served))
   = before ++ [Message.mk (next_id (map Message.id before)) cid agent text t (Some e)] /\
   forall env' json_only' body' text' timestamp' t',
     event_of_type (payload_of body') OUTGOING ->
     outgoing_carries (payload_of body') (JStr chat) (JStr text') ->
     text' <> [] ->
     get (payload_of body') (py "idMessage") = Ok (JStr e) ->
     get (payload_of body') (py "timestamp") = Ok timestamp' ->
     event_time env' timestamp' (readings (after served)) = Ok t' ->
     messages (database (after (serve env' json_only' (PostWebhook body') (after served))))
     = before ++ [Message.mk (next_id (map Message.id before)) cid agent text t' (Some e)]).
Proof.
  intros Ht Hc Hchat Htext Hec Hex Hee Hid Hts Htime Hnd.
  destruct (outgoing_rule env json_only body sv chat text (JStr e) timestamp (Some e) t
              Ht Hc Hchat Htext Hec Hex Hid (bind_text_str e Hee) Hts Htime Hnd)
    as (H1 & H2 & H3).
  cbv zeta. split; [exact H1|]. split; [|split; [exact H2 | exact H3]].
  intros z -> Hz. now apply (event_time_int env z (readings sv)).
Qed.

(** C9: an outgoing event with a chat id and a text, strings free of lone
    surrogates, and no [idMessage].
    The lookup is for messages without external id: when the conversation
    holds some, the one of greatest id gets the event's [sent_at] and no row
    is added; so from a store without such a message, a second event
    without id to the same chat, whatever its text, leaves the one row of
    the first, with the text of the first. *)
Theorem outgoing_without_id_merges
    (env : Env) (json_only : bool) (body : option json) (sv : Server)
    (chat text : pystr) (timestamp : json) (t : datetime) :
  event_of_type (payload_of body) OUTGOING ->
  outgoing_carries (payload_of body) (JStr chat) (JStr text) ->
  chat <> [] -> text <> [] ->
  encodable chat = true -> encodable text = true ->
  get (payload_of body) (py "idMessage") = Ok JNull ->
  get (payload_of body) (py "timestamp") = Ok timestamp ->
  event_time env timestamp (readings sv) = Ok t ->
  unique_message_ids (database sv) ->
  let served := serve env json_only (PostWebhook body) sv in
  let cid := resolved chat (database sv) in
  let before := messages (database sv) in
  ((exists m, In m before /\ belongs None cid m) ->
   exists l1 latest l2,
     before = l1 ++ latest :: l2 /\
     belongs None cid latest /\
     (forall x, In x before -> belongs None cid x ->
                (Message.id x <= Message.id latest)%Z) /\
     messages (database (after served)) = l1 ++ Message.set_sent_at latest t :: l2) /\
  ((forall m, In m before -> ~ belongs None cid m) ->
   forall env' json_only' body' text' timestamp' t',
     event_of_type (payload_of body') OUTGOING ->
     outgoing_carries (payload_of body') (JStr chat) (JStr text') ->
     text' <> [] ->
     get (payload_of body') (py "idMessage") = Ok JNull ->
     get (payload_of body') (py "timestamp") = Ok timestamp' ->
     event_time env' timestamp' (readings (after served)) = Ok t' ->
     messages (database (after (serve env' json_only' (PostWebhook body') (after served))))
     = before ++ [Message.mk (next_id (map Message.id before)) cid agent text t' None]).
Proof.
  intros Ht Hc Hchat Htext Hec Hex Hid Hts Htime Hnd.
  destruct (outgoing_rule env json_only body sv chat text JNull timestamp None t
              Ht Hc Hchat Htext Hec Hex Hid eq_refl Hts Htime Hnd) as (_ & H2 & H3).
  cbv zeta. split; [exact H2|]. intro Hnone. now apply H3.
Qed.

(** C5, as the code has it: an incoming event with text (its strings free
    of lone surrogates) is stored as one new message whose [sent_at] is the
    timestamp of the event when that is a non-zero integer, and the reading
    of the clock when the timestamp is missing or fails the truth test of
    [if timestamp] (null, zero, false, an empty string, list or object);
    the conversation's [updated_at] is the reading of the clock taken for
    it, whatever [sent_at] is. *)
Theorem incoming_times
    (env : Env) (json_only : bool) (body : option json) (sv : Server)
    (chat text : pystr) (sender_name external_id timestamp : json)
    (name ext : option pystr) (t : datetime) :
  event_of_type (payload_of body) INCOMING ->
  incoming_carries (payload_of body) (JStr text) (JStr chat) sender_name ->
  text <> [] ->
  encodable chat = true -> encodable text = true ->
  bind_text (py_or sender_name (JStr chat)) = Ok name ->
  get (payload_of body) (py "idMessage") = Ok external_id ->
  bind_text external_id = Ok ext ->
  get (payload_of body) (py "timestamp") = Ok timestamp ->
  event_time env timestamp (readings sv) = Ok t ->
  let served := serve env json_only (PostWebhook body) sv in
  let cid := resolved chat (database sv) in
  let before := messages (database sv) in
  let received := clock env (reads_of timestamp (readings sv)) in
  answer served = (Jsonify (status_body (py "received")), 200%Z) /\
  messages (database (after served))
  = before ++ [Message.mk (next_id (map Message.id before)) cid customer text t ext] /\
  (exists c,
     find_conversation (Some chat) (database (after served)) = Some c /\
     Conversation.id c = cid /\
     Conversation.updated_at c = received) /\
  (forall z, timestamp = JInt z -> z <> 0%Z ->
     t = (z * 1000000)%Z /\ received = clock env (readings sv)) /\
  (truthy timestamp = false ->
     t = clock env (readings sv) /\ received = clock env (S (readings sv))).
Proof.
  intros Ht Hc Htext Hec Hex Hn Hid Hext Hts Htime served cid before received.
  subst served received.
  rewrite (serve_incoming env json_only body sv chat text sender_name external_id
             timestamp name ext t) by assumption.
  cbn [answer after database readings]. split; [reflexivity|].
  split; [apply incoming_effect_messages|].
  split; [apply incoming_effect_conversation|].
  split.
  - intros z -> Hz. split; [now apply (event_time_int env z (readings sv))|].
    unfold reads_of. simpl. now destruct (Z.eqb_spec z 0).
  - intro Hf. split; [now apply (event_time_falsy env _ _ _ Htime)|].
    unfold reads_of. now rewrite Hf.
Qed.

(** ** The webhook: what is discarded *)

(** C7 at the inputs where it fails: an outgoing event with nothing to
    store is answered with a 500 when its timestamp is a string or beyond
    year 9999, and when its [textMessageData] is null; the incoming handler
    ignores the same payloads with a 200. *)
Theorem outgoing_discard_raises (env : Env) (json_only : bool) (sv : Server) :
  answer (serve env json_only (PostWebhook (empty_event "outgoingMessageReceived")) sv)
  = (ErrorJson 500%Z, 500%Z) /\
  answer (serve env json_only (PostWebhook (empty_event "incomingMessageReceived")) sv)
  = ignored "Mensaje sin texto" /\
  answer (serve env json_only
            (PostWebhook (Some (JObj [(py "typeWebhook", JStr OUTGOING);
                                      (py "timestamp", JInt 1700000000000)]))) sv)
  = (ErrorJson 500%Z, 500%Z) /\
  answer (serve env json_only (PostWebhook (null_text_event "outgoingMessageReceived")) sv)
  = (ErrorJson 500%Z, 500%Z) /\
  answer (serve env json_only (PostWebhook (null_text_event "incomingMessageReceived")) sv)
  = ignored "Mensaje sin texto".
Proof.
  unfold serve. simpl is_webhook. rewrite orb_true_r.
  repeat split; reflexivity.
Qed.


(** The primary key of [messages] stays a key along every run. *)
Theorem unique_message_ids_invariant (trace : list (Env * bool * request)) :
  unique_message_ids (database (run trace pristine)).
Proof. apply unique_message_ids_run. constructor. Qed.

(** Posting to a conversation: when the send raises, nothing is stored and
    the request ends in the error [abort] was called with. *)
Theorem conversation_detail_send_failure
    (env : Env) (json_only : bool) (i : Z) (form : conversation_form) (sv : Server)
    (c : Conversation.t) (e : exn) :
  get_conversation i (database sv) = Some c ->
  strip (or_empty (message form)) <> [] ->
  send_and_read_id env (Conversation.contact_number c) (strip (or_empty (message form)))
  = Raise e ->
  let served := serve env json_only (PostConversation i form) sv in
  let code := match e with HTTPError code => code | _ => 500%Z end in
  after served = sv /\
  snd (answer served) = if abort_codes code then code else 500%Z.
Proof.
  intros Hc Hm Hs served code. subst served code.
  unfold serve, view, conversation_detail_post, get_or_404, bind, query, ret.
  cbn [working]. rewrite Hc.
  destruct (strip (or_empty (message form))) as [|x text]; [congruence|].
  rewrite Hs.
  destruct e; unfold abort, raise; destruct (abort_codes _);
    cbn [answer after committed ticks handle_errors snd is_webhook];
    (split; [now destruct sv | now destruct (json_only || false)]).
Qed.

(** An incoming event from a chat id without conversation, chat id and
    text being strings free of lone surrogates, creates one conversation,
    named after the sender, and one message of sender type [customer]. *)
Theorem incoming_first_contact
    (env : Env) (json_only : bool) (body : option json) (sv : Server)
    (chat text : pystr) (sender_name external_id timestamp : json)
    (name ext : option pystr) (t : datetime) :
  event_of_type (payload_of body) INCOMING ->
  incoming_carries (payload_of body) (JStr text) (JStr chat) sender_name ->
  text <> [] ->
  encodable chat = true -> encodable text = true ->
  bind_text (py_or sender_name (JStr chat)) = Ok name ->
  get (payload_of body) (py "idMessage") = Ok external_id ->
  bind_text external_id = Ok ext ->
  get (payload_of body) (py "timestamp") = Ok timestamp ->
  event_time env timestamp (readings sv) = Ok t ->
  find_conversation (Some chat) (database sv) = None ->
  let stored := database (after (serve env json_only (PostWebhook body) sv)) in
  let cid := next_id (map Conversation.id (conversations (database sv))) in
  conversations stored
  = conversations (database sv) ++
    [Conversation.mk cid chat name t (clock env (reads_of timestamp (readings sv)))] /\
  messages stored
  = messages (database sv) ++
    [Message.mk (next_id (map Message.id (messages (database sv)))) cid customer text t ext].
Proof.
  intros Ht Hc Htext Hec Hex Hn Hid Hext Hts Htime Hnone stored cid. subst stored.
  rewrite (serve_incoming env json_only body sv chat text sender_name external_id
             timestamp name ext t) by assumption.
  cbn [after database]. split.
  - unfold incoming_effect, resolve. rewrite Hnone. fold cid.
    cbn [conversations insert_message update_updated_at insert_conversation].
    rewrite map_app. simpl. rewrite Z.eqb_refl. f_equal.
    rewrite <- (map_id (conversations (database sv))) at 2. apply map_ext_in.
    intros x Hx. destruct (Z.eqb_spec (Conversation.id x) cid) as [E|_]; [|reflexivity].
    destruct (next_id_fresh (map Conversation.id (conversations (database sv)))).
    fold cid. rewrite <- E. now apply in_map.
  - rewrite incoming_effect_messages. unfold resolved, resolve. now rewrite Hnone.
Qed.

(** ** The template filters *)

Lemma replace_newlines_app (a b : pystr) :
  replace_newlines (a ++ b) = replace_newlines a ++ replace_newlines b.
Proof.
  induction a as [|c a IH]; [reflexivity|].
  rewrite <- app_comm_cons. cbn [replace_newlines].
  destruct (c =? NEWLINE)%N; rewrite IH; [now rewrite app_assoc | reflexivity].
Qed.

Lemma replace_newlines_clean (a : pystr) : contains NEWLINE (replace_newlines a) = false.
Proof.
  induction a as [|c a IH]; [reflexivity|]. cbn [replace_newlines].
  destruct (N.eqb_spec c NEWLINE) as [->|H].
  - rewrite contains_app, IH. reflexivity.
  - unfold contains in *. cbn [existsb]. rewrite IH, orb_false_r.
    apply N.eqb_neq. congruence.
Qed.

Lemma replace_newlines_length (a : pystr) :
  List.length (replace_newlines a) = List.length a + 3 * count_occ N.eq_dec a NEWLINE.
Proof.
  induction a as [|c a IH]; [reflexivity|]. cbn [replace_newlines count_occ].
  destruct (N.eqb_spec c NEWLINE) as [->|H].
  - rewrite List.length_app, IH. destruct (N.eq_dec NEWLINE NEWLINE); [simpl; lia | congruence].
  - cbn [List.length]. rewrite IH. destruct (N.eq_dec c NEWLINE); [congruence | lia].
Qed.

Lemma replace_newlines_id (a : pystr) :
  contains NEWLINE a = false -> replace_newlines a = a.
Proof.
  induction a as [|c a IH]; [reflexivity|]. unfold contains. cbn [existsb replace_newlines].
  intro H. apply orb_false_iff in H as [H1 H2]. rewrite N.eqb_sym, H1. now rewrite IH.
Qed.

(** The filter [nl2br]: the output is marked safe and is the input with
    "<br>" in the place of every newline (the code point 10), nothing else
    touched. *)
Theorem nl2br_replaces (a b : pystr) :
  nl2br None = Plain [] /\
  nl2br (Some [10%N]) = Markup (py "<br>") /\
  nl2br (Some (a ++ b)) = Markup (text_of (nl2br (Some a)) ++ text_of (nl2br (Some b))) /\
  contains NEWLINE (text_of (nl2br (Some a))) = false /\
  List.length (text_of (nl2br (Some a))) = List.length a + 3 * count_occ N.eq_dec a NEWLINE /\
  (contains NEWLINE a = false -> nl2br (Some a) = Markup a).
Proof.
  simpl. split; [reflexivity|]. split; [reflexivity|].
  split; [now rewrite replace_newlines_app|].
  split; [apply replace_newlines_clean|]. split; [apply replace_newlines_length|].
  intro H. now rewrite replace_newlines_id.
Qed.

Lemma startswith_app (pre s : pystr) :
  startswith pre s = true -> exists rest, s = pre ++ rest.
Proof.
  revert s. induction pre as [|x pre IH]; intros s H; simpl in *; [now exists s|].
  destruct s as [|y s]; [discriminate|].
  apply andb_true_iff in H as [H1 H2]. apply N.eqb_eq in H1. subst y.
  destruct (IH s H2) as [rest ->]. now exists rest.
Qed.

Lemma startswith_self (pre rest : pystr) : startswith pre (pre ++ rest) = true.
Proof. induction pre as [|x pre IH]; simpl; [reflexivity|]. now rewrite N.eqb_refl. Qed.

Lemma endswith_app (s suffix : pystr) :
  endswith s suffix = true <-> exists front, s = front ++ suffix.
Proof.
  unfold endswith. split.
  - intro H. apply startswith_app in H as [rest H]. exists (rev rest).
    rewrite <- (rev_involutive s), H, rev_app_distr. now rewrite rev_involutive.
  - intros [front ->]. rewrite rev_app_distr. apply startswith_self.
Qed.

Lemma before_at_clean (s : pystr) : contains AT (before_at s) = false.
Proof.
  induction s as [|c s IH]; [reflexivity|]. cbn [before_at].
  destruct (N.eqb_spec c AT) as [->|H]; [reflexivity|].
  unfold contains in *. cbn [existsb]. rewrite IH, orb_false_r.
  apply N.eqb_neq. congruence.
Qed.

Lemma before_at_app (a b : pystr) :
  contains AT a = false -> before_at (a ++ AT :: b) = a.
Proof.
  induction a as [|c a IH]; [reflexivity|]. unfold contains.
  rewrite <- app_comm_cons. cbn [existsb before_at]. intro H.
  apply orb_false_iff in H as [H1 H2]. rewrite N.eqb_sym, H1. now rewrite IH.
Qed.

Lemma endswith_contains (s suffix : pystr) :
  endswith s suffix = true -> contains AT suffix = true -> contains AT s = true.
Proof.
  intros H Hs. apply endswith_app in H as [front ->].
  rewrite contains_app, Hs. apply orb_true_r.
Qed.

Lemma chat_display_clean (v : pystr) :
  contains AT v = false -> chat_display (Some v) = v.
Proof.
  intro H. destruct v as [|c v]; [reflexivity|]. unfold chat_display.
  destruct (endswith (c :: v) (py "@c.us")) eqn:E1.
  { apply endswith_contains in E1; [congruence | reflexivity]. }
  destruct (endswith (c :: v) (py "@s.whatsapp.net")) eqn:E2.
  { apply endswith_contains in E2; [congruence | reflexivity]. }
  reflexivity.
Qed.

Lemma chat_display_suffix (user suffix : pystr) :
  contains AT user = false ->
  suffix = py "c.us" \/ suffix = py "s.whatsapp.net" ->
  chat_display (Some (user ++ AT :: suffix)) = user.
Proof.
  intros Hu Hs.
  assert (endswith (user ++ AT :: suffix) (py "@c.us")
          || endswith (user ++ AT :: suffix) (py "@s.whatsapp.net") = true) as E.
  { apply orb_true_iff. destruct Hs as [-> | ->]; [left | right];
      apply endswith_app; now exists user. }
  destruct (user ++ AT :: suffix) as [|c v] eqn:Ev.
  { now destruct user. }
  change (chat_display (Some (c :: v)))
    with (if endswith (c :: v) (py "@c.us") || endswith (c :: v) (py "@s.whatsapp.net")
          then before_at (c :: v) else c :: v).
  rewrite E, <- Ev. now apply before_at_app.
Qed.

(** The filter [chat_display] shows either the value itself or a text
    without "@"; showing what it shows changes nothing more; and of an
    identifier that ends in "@c.us" or "@s.whatsapp.net" it shows what
    stands before the first "@". *)
Theorem chat_display_idempotent (value : option pystr) :
  (chat_display value = or_empty value \/ contains AT (chat_display value) = false) /\
  chat_display (Some (chat_display value)) = chat_display value /\
  (forall user,
     contains AT user = false ->
     chat_display (Some (user ++ py "@c.us")) = user /\
     chat_display (Some (user ++ py "@s.whatsapp.net")) = user).
Proof.
  split; [|split].
  - destruct value as [v|]; [|now left].
    destruct v as [|c v]; [now left|].
    change (chat_display (Some (c :: v)))
      with (if endswith (c :: v) (py "@c.us") || endswith (c :: v) (py "@s.whatsapp.net")
            then before_at (c :: v) else c :: v).
    destruct (_ || _); [right; apply before_at_clean | now left].
  - destruct value as [v|]; [|reflexivity].
    destruct v as [|c v]; [reflexivity|].
    change (chat_display (Some (c :: v)))
      with (if endswith (c :: v) (py "@c.us") || endswith (c :: v) (py "@s.whatsapp.net")
            then before_at (c :: v) else c :: v).
    destruct (endswith (c :: v) (py "@c.us") || endswith (c :: v) (py "@s.whatsapp.net"))
      eqn:E.
    + apply chat_display_clean, before_at_clean.
    + unfold chat_display. now rewrite E.
  - intros user Hu. split.
    + apply (chat_display_suffix user (py "c.us") Hu). now left.
    + apply (chat_display_suffix user (py "s.whatsapp.net") Hu). now right.
Qed.

(** What the dashboard shows for a number that was typed without "@" and
    normalized: its digits. *)
Theorem chat_display_normalized (raw chat : pystr) :
  normalize_chat_id raw = Ok chat ->
  contains AT raw = false ->
  chat_display (Some chat) = filter isdigit raw.
Proof.
  intros H Hat. rewrite (normalize_digits raw Hat) in H.
  destruct (filter isdigit raw) as [|d ds] eqn:E; [discriminate|]. injection H as <-.
  apply (chat_display_suffix (d :: ds) (py "c.us")); [|now left].
  unfold contains. apply not_true_is_false. intro Hex.
  apply existsb_exists in Hex as (x & Hx & Hx'). apply N.eqb_eq in Hx'. subst x.
  rewrite <- E in Hx. apply filter_In in Hx as [_ Hx]. discriminate.
Qed.

(** ** The gateway client *)

Lemma normalize_chat_id_fixed (raw chat : pystr) :
  normalize_chat_id raw = Ok chat -> normalize_chat_id chat = Ok chat.
Proof.
  destruct (contains AT raw) eqn:H.
  - rewrite (normalize_at raw H). intros [= <-].
    rewrite normalize_at by now rewrite (contains_strip AT _ AT_not_space).
    now rewrite strip_strip.
  - rewrite (normalize_digits raw H).
    destruct (filter isdigit raw) as [|d ds] eqn:E; [discriminate|]. intros [= <-].
    assert (isdigit d = true) as Hd.
    { assert (In d (filter isdigit raw)) as Hin by (rewrite E; now left).
      now apply filter_In in Hin. }
    assert (contains AT ((d :: ds) ++ CUS) = true) as H'
      by (rewrite contains_app; apply orb_true_iff; now right).
    rewrite normalize_at by exact H'.
    f_equal. apply (strip_id ((d :: ds) ++ CUS)).
    + simpl. now apply digit_not_isspace.
    + rewrite rev_app_distr. reflexivity.
Qed.

(** The request [send_whatsapp_message] makes: one POST to the send
    endpoint of the instance, with the normalized chat id and the text; an
    answer with a 4xx or 5xx status is raised, any other is returned.
    Sending to the normalized identifier is sending to the raw one. *)
Theorem send_whatsapp_message_request
    (env : Env) (raw chat message_text instance token : pystr) :
  configured (GREEN_API_INSTANCE_ID env) = Some instance ->
  configured (GREEN_API_API_TOKEN env) = Some token ->
  normalize_chat_id raw = Ok chat ->
  send_whatsapp_message env raw message_text
  = match post env
            (GREEN_API_BASE_URL env ++ py "/waInstance" ++ instance
             ++ py "/sendMessage/" ++ token)
            (JObj [(py "chatId", JStr chat); (py "message", JStr message_text)]) with
    | Unreachable => Raise ConnectionError
    | Responded response =>
      if ((400 <=? status_code response) && (status_code response <? 600))%Z
      then Raise (HTTPError (status_code response))
      else Ok response
    end /\
  send_whatsapp_message env chat message_text
  = send_whatsapp_message env raw message_text.
Proof.
  intros Hi Ht Hn. unfold send_whatsapp_message.
  rewrite Hi, Ht, Hn, (normalize_chat_id_fixed raw chat Hn). split; reflexivity.
Qed.

(** What comes out of [send_whatsapp_message]: a response only when both
    credentials are set, the identifier normalizes and the gateway answered
    with a status outside 400..599; otherwise one of four exceptions. *)
Theorem send_whatsapp_message_outcomes (env : Env) (raw message_text : pystr) :
  (forall response,
     send_whatsapp_message env raw message_text = Ok response ->
     (status_code response < 400 \/ 600 <= status_code response)%Z /\
     exists instance token chat,
       configured (GREEN_API_INSTANCE_ID env) = Some instance /\
       configured (GREEN_API_API_TOKEN env) = Some token /\
       normalize_chat_id raw = Ok chat /\
       post env
         (GREEN_API_BASE_URL env ++ py "/waInstance" ++ instance
          ++ py "/sendMessage/" ++ token)
         (JObj [(py "chatId", JStr chat); (py "message", JStr message_text)])
       = Responded response) /\
  (forall e,
     send_whatsapp_message env raw message_text = Raise e ->
     e = RuntimeError \/ (exists why, e = ValueError why) \/ e = ConnectionError \/
     exists code, e = HTTPError code /\ (400 <= code < 600)%Z).
Proof.
  unfold send_whatsapp_message.
  destruct (configured (GREEN_API_INSTANCE_ID env)) as [instance|];
    [|split; [discriminate | intros e [= <-]; now left]].
  destruct (configured (GREEN_API_API_TOKEN env)) as [token|];
    [|split; [discriminate | intros e [= <-]; now left]].
  assert (forall x, normalize_chat_id raw = Raise x -> exists why, x = ValueError why) as Hv.
  { unfold normalize_chat_id. destruct raw as [|c raw]; [intros x [= <-]; eauto|].
    destruct (contains AT _); [discriminate|].
    destruct (filter isdigit _); [intros x [= <-]; eauto | discriminate]. }
  destruct (normalize_chat_id raw) as [chat|x]; cbn [and_then].
  2: { split; [discriminate|]. intros e [= <-]. right. left. now apply Hv. }
  destruct (post env _ _) as [response|] eqn:Hp.
  2: { split; [discriminate|]. intros e [= <-]. right. right. now left. }
  unfold raise_for_status.
  destruct ((400 <=? status_code response) && (status_code response <? 600))%Z eqn:Hs.
  - split; [discriminate|]. intros e [= <-]. right. right. right.
    exists (status_code response). split; [reflexivity|].
    apply andb_true_iff in Hs as [H1 H2]. apply Z.leb_le in H1. apply Z.ltb_lt in H2. lia.
  - split; [|discriminate]. intros r [= <-]. split.
    + apply andb_false_iff in Hs as [H|H]; [apply Z.leb_gt in H | apply Z.ltb_ge in H]; lia.
    + exists instance, token, chat. auto.
Qed.

Lemma read_id_cases (env : Env) (raw message_text : pystr)
    (response : http_response) :
  send_whatsapp_message env raw message_text = Ok response ->
  (content_type response <> Some (py "application/json") ->
   send_and_read_id env raw message_text = Ok JNull) /\
  (content_type response = Some (py "application/json") ->
   send_and_read_id env raw message_text
   = match json_body response with
     | Some data => get data (py "idMessage")
     | None => Raise JSONDecodeError
     end).
Proof.
  intro H. unfold send_and_read_id. rewrite H. cbn [and_then]. split.
  - intro Hc. destruct (content_type response) as [ct|]; [|reflexivity].
    destruct (str_eqb ct (py "application/json")) eqn:E; [|reflexivity].
    apply str_eqb_eq in E. congruence.
  - intros ->. rewrite str_eqb_refl. now destruct (json_body response).
Qed.

(** The id [send_and_read_id] takes from an answer: the [idMessage] of the
    body when the content type is exactly "application/json" and the body is
    an object; null for any other content type, whatever the body holds. *)
Theorem send_and_read_id_header (env : Env) (raw message_text : pystr)
    (response : http_response) :
  send_whatsapp_message env raw message_text = Ok response ->
  (content_type response <> Some (py "application/json") ->
   send_and_read_id env raw message_text = Ok JNull) /\
  (content_type response = Some (py "application/json") ->
   send_and_read_id env raw message_text
   = match json_body response with
     | Some data => get data (py "idMessage")
     | None => Raise JSONDecodeError
     end).
Proof. apply read_id_cases. Qed.

(** ** The lists the pages show *)

Section Sorting.

Context {A : Type} (le : A -> A -> bool).

Hypothesis le_total : forall a b, le a b = true \/ le b a = true.
Hypothesis le_trans : forall a b c, le a b = true -> le b c = true -> le a c = true.

Lemma insert_by_perm (x : A) (l : list A) : Permutation (x :: l) (insert_by le x l).
Proof.
  induction l as [|y l IH]; simpl; [reflexivity|].
  destruct (le x y); [reflexivity|].
  rewrite perm_swap. now apply perm_skip.
Qed.

Lemma sort_by_perm (l : list A) : Permutation l (sort_by le l).
Proof.
  induction l as [|x l IH]; simpl; [reflexivity|].
  rewrite <- insert_by_perm. now apply perm_skip.
Qed.

Lemma insert_by_sorted (x : A) (l : list A) :
  StronglySorted (before le) l -> StronglySorted (before le) (insert_by le x l).
Proof.
  induction 1 as [|y l Hs IH Hy]; simpl; [repeat constructor|].
  destruct (le x y) eqn:E.
  - constructor; [now constructor|]. constructor; [exact E|].
    rewrite Forall_forall in *. intros z Hz. apply (le_trans x y z E). now apply Hy.
  - constructor; [exact IH|].
    rewrite Forall_forall in *. intros z Hz.
    apply (Permutation_in _ (Permutation_sym (insert_by_perm x l))) in Hz.
    destruct Hz as [<-|Hz]; [|now apply Hy].
    destruct (le_total x y) as [H|H]; [congruence | exact H].
Qed.

Lemma sort_by_sorted (l : list A) : StronglySorted (before le) (sort_by le l).
Proof.
  induction l as [|x l IH]; simpl; [constructor | now apply insert_by_sorted].
Qed.

Lemma sort_by_head (l : list A) (x : A) :
  hd_error (sort_by le l) = Some x ->
  In x l /\ forall y, In y l -> le x y = true.
Proof.
  intro H. pose proof (sort_by_sorted l) as Hs. pose proof (sort_by_perm l) as Hp.
  destruct (sort_by le l) as [|z r]; [discriminate|]. injection H as ->.
  split; [apply (Permutation_in _ (Permutation_sym Hp)); now left|].
  intros y Hy. apply (Permutation_in _ Hp) in Hy. inversion Hs as [|? ? _ Hall]; subst.
  destruct Hy as [<-|Hy].
  - destruct (le_total x x); assumption.
  - rewrite Forall_forall in Hall. now apply Hall.
Qed.

End Sorting.

(** The dashboard lists every conversation once, the most recently updated
    first. *)
Theorem dashboard_rows_sorted (s : Store) :
  Permutation (conversations s) (dashboard_rows s) /\
  StronglySorted
    (fun a b => (Conversation.updated_at b <= Conversation.updated_at a)%Z)
    (dashboard_rows s).
Proof.
  split; [apply sort_by_perm|].
  eapply StronglySorted_ind with (P := fun l => StronglySorted _ l).
  3: { apply (sort_by_sorted
                (fun a b => (Conversation.updated_at b <=? Conversation.updated_at a)%Z)).
       - intros a b. rewrite !Z.leb_le. lia.
       - intros a b c. rewrite !Z.leb_le. lia. }
  - constructor.
  - intros a l _ IH Ha. constructor; [exact IH|].
    eapply Forall_impl; [|exact Ha]. intros b Hb. now apply Z.leb_le.
Qed.

Lemma thread_rows_in (c : Conversation.t) (s : Store) (m : Message.t) :
  In m (thread_rows c s) <->
  In m (messages s) /\ Message.conversation_id m = Conversation.id c.
Proof.
  unfold thread_rows. split.
  - intro H. apply (Permutation_in _ (Permutation_sym (sort_by_perm _ _))) in H.
    apply filter_In in H as [H1 H2]. now apply Z.eqb_eq in H2.
  - intros [H1 H2]. apply (Permutation_in _ (sort_by_perm _ _)).
    apply filter_In. split; [exact H1 | now apply Z.eqb_eq].
Qed.

(** The thread of a conversation lists the messages of that conversation
    and no other, each once, in the order of [sent_at]. *)
Theorem thread_rows_sorted (c : Conversation.t) (s : Store) :
  Permutation (messages_of c s) (thread_rows c s) /\
  (forall m, In m (thread_rows c s) <->
             In m (messages s) /\ Message.conversation_id m = Conversation.id c) /\
  StronglySorted (fun a b => (Message.sent_at a <= Message.sent_at b)%Z) (thread_rows c s).
Proof.
  split; [apply sort_by_perm|]. split.
  - apply thread_rows_in.
  - eapply StronglySorted_ind with (P := fun l => StronglySorted _ l).
    3: { apply (sort_by_sorted (fun a b => (Message.sent_at a <=? Message.sent_at b)%Z)).
         - intros a b. rewrite !Z.leb_le. lia.
         - intros a b d. rewrite !Z.leb_le. lia. }
    + constructor.
    + intros a l _ IH Ha. constructor; [exact IH|].
      eapply Forall_impl; [|exact Ha]. intros b Hb. now apply Z.leb_le.
Qed.

Lemma asc_then_desc_le (a b : Message.t) :
  asc_then_desc a b = true <-> (Message.sent_at a <= Message.sent_at b)%Z.
Proof.
  unfold asc_then_desc.
  rewrite orb_true_iff, andb_true_iff, Z.ltb_lt, Z.eqb_eq, Z.leb_le. lia.
Qed.

(** [last_message] gives nothing for a conversation without messages, and
    otherwise a message of the conversation than which none was sent
    earlier: the first of the thread, not the last. *)
Theorem last_message_is_earliest (c : Conversation.t) (s : Store) :
  (last_message c s = None <-> messages_of c s = []) /\
  (forall m, last_message c s = Some m ->
     In m (messages s) /\ Message.conversation_id m = Conversation.id c /\
     forall x, In x (messages s) -> Message.conversation_id x = Conversation.id c ->
               (Message.sent_at m <= Message.sent_at x)%Z).
Proof.
  unfold last_message. split.
  - pose proof (sort_by_perm asc_then_desc (messages_of c s)) as Hp. split.
    + intro H. destruct (sort_by asc_then_desc (messages_of c s)); [|discriminate].
      now apply Permutation_sym, Permutation_nil in Hp.
    + intro H. rewrite H in *. reflexivity.
  - intros m H. apply sort_by_head in H as [Hin Hmin].
    + apply filter_In in Hin as [H1 H2]. apply Z.eqb_eq in H2.
      split; [exact H1|]. split; [exact H2|]. intros x Hx Hc.
      apply asc_then_desc_le, Hmin. apply filter_In. split; [exact Hx | now apply Z.eqb_eq].
    + intros a b. rewrite !asc_then_desc_le. lia.
    + intros a b d. rewrite !asc_then_desc_le. lia.
Qed.

(** ** Every path of the views *)

Lemma get_or_server_error (d : json) (k : pystr) (v : json) (e : exn) :
  get_or d k v = Raise e -> server_error e.
Proof. destruct d; simpl; intros [= <-]; exact I. Qed.

Lemma get_server_error (d : json) (k : pystr) (e : exn) :
  get d k = Raise e -> server_error e.
Proof. apply get_or_server_error. Qed.

Lemma bind_required_server_error (v : json) (e : exn) :
  bind_required v = Raise e -> server_error e.
Proof.
  unfold bind_required, and_then. destruct (bind_text v) as [[t|]|x] eqn:E.
  - discriminate.
  - intros [= <-]. exact I.
  - intros [= <-]. now apply (bind_text_server_error _ _ E).
Qed.

Lemma digits_nil (d : Decimal.uint) : digits d = [] -> d = Decimal.Nil.
Proof. destruct d; simpl; congruence. Qed.

Lemma decimal_nonempty (z : Z) : decimal z <> [].
Proof.
  destruct z as [|p|p]; simpl; try discriminate.
  intro H. apply digits_nil in H. now apply DecimalPos.Unsigned.to_uint_nonnil in H.
Qed.

(** What the truth test lets through is bound to a text that is not empty. *)
Lemma bind_text_truthy (v : json) (text : pystr) :
  bind_text v = Ok (Some text) -> truthy v = true -> text <> [].
Proof.
  destruct v as [|b|z|s|xs|kv]; cbn [bind_text truthy]; try discriminate.
  - intros [= <-] _. apply decimal_nonempty.
  - destruct (fits_int64 z); [|discriminate]. intros [= <-] _. apply decimal_nonempty.
  - destruct (encodable s); [|discriminate]. intros [= <-]. now destruct s.
Qed.

Lemma bind_required_text (v : json) (text : pystr) :
  bind_required v = Ok text -> truthy v = true ->
  bind_text v = Ok (Some text) /\ text <> [].
Proof.
  unfold bind_required, and_then. destruct (bind_text v) as [[t|]|x] eqn:E; try discriminate.
  intros [= <-] H. split; [reflexivity|]. now apply (bind_text_truthy v).
Qed.

Lemma event_time_server_error (env : Env) (timestamp : json) (n : nat) (e : exn) :
  event_time env timestamp n = Raise e -> server_error e.
Proof.
  unfold event_time. destruct (truthy timestamp); [|discriminate].
  apply utcfromtimestamp_server_error.
Qed.

Lemma outgoing_text_server_error (message_data : json) (e : exn) :
  outgoing_text message_data = Raise e -> server_error e.
Proof.
  unfold outgoing_text, and_then.
  destruct (get_or message_data _ _) as [plain|x] eqn:E1;
    [|intros [= <-]; now apply (get_or_server_error _ _ _ _ E1)].
  destruct (get plain _) as [text|x] eqn:E2;
    [|intros [= <-]; now apply (get_server_error _ _ _ E2)].
  destruct (truthy text); [discriminate|].
  destruct (get_or message_data (py "extendedTextMessageData") _) as [ext|x] eqn:E3;
    [|intros [= <-]; now apply (get_or_server_error _ _ _ _ E3)].
  apply get_server_error.
Qed.

Lemma resolve_conversation_cases (chat_id contact_name : json) (t : datetime) (w : World) :
  (exists e, resolve_conversation chat_id contact_name t w = (Raise e, w) /\ server_error e)
  \/
  (exists chat name c,
     bind_text chat_id = Ok (Some chat) /\
     resolve_conversation chat_id contact_name t w
     = (Ok c, mkWorld (committed w) (snd (resolve chat name t (working w)))
                      (ticks w) (flashes w)) /\
     Conversation.id c = fst (resolve chat name t (working w))).
Proof.
  unfold resolve_conversation, resolve, bind, lift, query.
  destruct (bind_text chat_id) as [[chat|]|e] eqn:Eb.
  - destruct (find_conversation (Some chat) (working w)) as [c|] eqn:E.
    + right. exists chat, None, c. rewrite E. repeat split. now destruct w.
    + destruct (bind_text contact_name) as [name|e] eqn:En.
      * right. exists chat, name. rewrite E.
        exists (Conversation.mk (next_id (map Conversation.id (conversations (working w))))
                  chat name t t).
        repeat split.
      * left. exists e. split; [reflexivity | now apply (bind_text_server_error _ _ En)].
  - left. rewrite find_conversation_null.
    destruct (bind_text contact_name) as [name|e] eqn:E.
    + exists IntegrityError. now split.
    + exists e. split; [reflexivity | now apply (bind_text_server_error _ _ E)].
  - left. exists e. split; [reflexivity | now apply (bind_text_server_error _ _ Eb)].
Qed.

Lemma webhook_end_raise (db : Store) (e : exn) (n : nat) (s : Store)
    (f : list (notice * category)) :
  server_error e -> webhook_end db (Raise e, mkWorld db s n f).
Proof. intro H. split; [apply t_unchanged | exact H]. Qed.

Lemma webhook_end_ignored (db : Store) (detail : string) (n : nat) (s : Store)
    (f : list (notice * category)) :
  webhook_end db (Ok (ignored detail), mkWorld db s n f).
Proof. split; [apply t_unchanged | reflexivity]. Qed.

Lemma handle_incoming_message_end (env : Env) (payload : json) (db : Store) (n : nat) :
  webhook_end db (handle_incoming_message env payload (mkWorld db db n [])).
Proof.
  unfold handle_incoming_message, bind, lift.
  destruct (get_or payload (py "messageData") _) as [md|e] eqn:E1;
    [|apply webhook_end_raise, (get_or_server_error _ _ _ _ E1)].
  destruct (get_or payload (py "senderData") _) as [sd|e] eqn:E2;
    [|apply webhook_end_raise, (get_or_server_error _ _ _ _ E2)].
  destruct (get md _) as [td|e] eqn:E3;
    [|apply webhook_end_raise, (get_server_error _ _ _ E3)].
  destruct (get (py_or td (JObj [])) _) as [mt|e] eqn:E4;
    [|apply webhook_end_raise, (get_server_error _ _ _ E4)].
  destruct (truthy mt) eqn:Emt; cbn [negb]; [|apply webhook_end_ignored].
  destruct (get sd (py "chatId")) as [chat_id|e] eqn:E5;
    [|apply webhook_end_raise, (get_server_error _ _ _ E5)].
  destruct (get sd (py "senderName")) as [sender_name|e] eqn:E6;
    [|apply webhook_end_raise, (get_server_error _ _ _ E6)].
  destruct (get payload (py "idMessage")) as [external_id|e] eqn:E7;
    [|apply webhook_end_raise, (get_server_error _ _ _ E7)].
  destruct (get payload (py "timestamp")) as [ts|e] eqn:E8;
    [|apply webhook_end_raise, (get_server_error _ _ _ E8)].
  rewrite sent_at_of_eq. cbn [committed working ticks flashes].
  destruct (event_time env ts n) as [t|e] eqn:E9;
    [|apply webhook_end_raise, (event_time_server_error _ _ _ _ E9)].
  destruct (resolve_conversation_cases chat_id (py_or sender_name chat_id) t
              (mkWorld db db (reads_of ts n) []))
    as [(e & -> & He) | (chat & name & c & _ & -> & Hc)];
    [now apply webhook_end_raise|].
  cbn [committed working ticks flashes] in *.
  unfold utcnow, execute. cbn [committed working ticks flashes].
  destruct (bind_required mt) as [text|e] eqn:E10;
    [|apply webhook_end_raise, (bind_required_server_error _ _ E10)].
  destruct (bind_text external_id) as [ext|e] eqn:E11;
    [|apply webhook_end_raise, (bind_text_server_error _ _ E11)].
  destruct (bind_required_text mt text E10 Emt) as [_ Htext].
  unfold add_message, commit, bind, query, execute, ret.
  cbn [committed working ticks flashes fst snd].
  split; [|reflexivity].
  replace (insert_message _ _)
    with (incoming_effect chat name text ext t (clock env (reads_of ts n)) db);
    [now apply t_incoming|].
  unfold incoming_effect. destruct (resolve chat name t db) as [cid s1].
  cbn [fst snd] in *. now subst cid.
Qed.

Lemma handle_outgoing_message_end (env : Env) (payload : json) (db : Store) (n : nat) :
  webhook_end db (handle_outgoing_message env payload (mkWorld db db n [])).
Proof.
  unfold handle_outgoing_message, bind, lift.
  destruct (get_or payload (py "messageData") _) as [md|e] eqn:E1;
    [|apply webhook_end_raise, (get_or_server_error _ _ _ _ E1)].
  destruct (get md (py "chatId")) as [chat_id|e] eqn:E2;
    [|apply webhook_end_raise, (get_server_error _ _ _ E2)].
  destruct (outgoing_text md) as [mt|e] eqn:E3;
    [|apply webhook_end_raise, (outgoing_text_server_error _ _ E3)].
  destruct (get payload (py "idMessage")) as [external_id|e] eqn:E4;
    [|apply webhook_end_raise, (get_server_error _ _ _ E4)].
  destruct (get payload (py "timestamp")) as [ts|e] eqn:E5;
    [|apply webhook_end_raise, (get_server_error _ _ _ E5)].
  rewrite sent_at_of_eq. cbn [committed working ticks flashes].
  destruct (event_time env ts n) as [t|e] eqn:E6;
    [|apply webhook_end_raise, (event_time_server_error _ _ _ _ E6)].
  destruct (truthy chat_id && truthy mt) eqn:Et; cbn [negb]; [|apply webhook_end_ignored].
  apply andb_true_iff in Et as [Etc Etm].
  destruct (resolve_conversation_cases chat_id chat_id t (mkWorld db db (reads_of ts n) []))
    as [(e & -> & He) | (chat & name & c & Hb & Hr & Hc)];
    [now apply webhook_end_raise|].
  assert (chat <> []) as Hchat by (now apply (bind_text_truthy chat_id)).
  assert (name = Some chat \/ exists c', find_conversation (Some chat) db = Some c') as Hname.
  { revert Hr. unfold resolve_conversation, bind, lift, query. rewrite Hb. cbn [working].
    unfold resolve. destruct (find_conversation (Some chat) db) as [c'|]; [eauto|].
    unfold add_conversation, bind, query, execute, ret. cbn [working committed ticks flashes].
    intros [= _ H]. left. apply app_inv_head in H. congruence. }
  assert (resolve chat name t db = resolve chat (Some chat) t db) as Hres.
  { destruct Hname as [->|[c' Hc']]; [reflexivity|]. unfold resolve. now rewrite Hc'. }
  rewrite Hr. cbn [committed working ticks flashes] in *.
  rewrite Hres in *. clear Hr Hname Hres name.
  destruct (bind_text external_id) as [ext|e] eqn:E7;
    [|apply webhook_end_raise, (bind_text_server_error _ _ E7)].
  unfold query. cbn [working].
  pose proof (resolve_fst chat (Some chat) t db) as Hfst.
  pose proof (resolve_messages chat (Some chat) t db) as Hmsg.
  destruct (latest_message ext (Conversation.id c) (snd (resolve chat (Some chat) t db)))
    as [m|] eqn:El.
  - unfold execute, utcnow, commit, ret. cbn [committed working ticks flashes fst snd].
    split; [|reflexivity].
    replace (update_updated_at _ _ _)
      with (outgoing_effect chat (py "x") ext t (clock env (reads_of ts n)) db);
      [apply t_outgoing; [exact Hchat | discriminate]|].
    unfold outgoing_effect. destruct (resolve chat (Some chat) t db) as [cid s1].
    cbn [fst snd] in *. subst cid. now rewrite El.
  - destruct (bind_required mt) as [text|e] eqn:E8;
      [|apply webhook_end_raise, (bind_required_server_error _ _ E8)].
    destruct (bind_required_text mt text E8 Etm) as [_ Htext].
    unfold add_message, execute, utcnow, commit, bind, query, ret.
    cbn [committed working ticks flashes fst snd].
    split; [|reflexivity].
    replace (update_updated_at _ _ _)
      with (outgoing_effect chat text ext t (clock env (reads_of ts n)) db);
      [now apply t_outgoing|].
    unfold outgoing_effect. destruct (resolve chat (Some chat) t db) as [cid s1].
    cbn [fst snd] in *. subst cid. now rewrite El.
Qed.

Lemma handle_outgoing_status_end (payload : json) (db : Store) (n : nat) :
  webhook_end db (handle_outgoing_status payload (mkWorld db db n [])).
Proof.
  unfold handle_outgoing_status, bind, lift, query, ret.
  destruct (get payload (py "idMessage")) as [external_id|e] eqn:E1;
    [|apply webhook_end_raise, (get_server_error _ _ _ E1)].
  destruct (get payload (py "status")) as [status|e] eqn:E2;
    [|apply webhook_end_raise, (get_server_error _ _ _ E2)].
  destruct (truthy external_id); cbn [negb]; [|apply webhook_end_ignored].
  destruct (bind_text external_id) as [ext|e] eqn:E3;
    [|apply webhook_end_raise, (bind_text_server_error _ _ E3)].
  cbn [working]. destruct (find_message ext db); [|apply webhook_end_ignored].
  split; [apply t_unchanged | reflexivity].
Qed.

Lemma green_webhook_end (env : Env) (body : option json) (db : Store) (n : nat) :
  webhook_end db (green_webhook env body (mkWorld db db n [])).
Proof.
  unfold green_webhook, bind at 1, lift at 1.
  destruct (get (payload_of body) (py "typeWebhook")) as [type|e] eqn:E;
    [|apply webhook_end_raise, (get_server_error _ _ _ E)].
  destruct (is_str type _); [apply handle_incoming_message_end|].
  destruct (is_str type _); [apply handle_outgoing_message_end|].
  destruct (is_str type _); [apply handle_outgoing_status_end|].
  apply webhook_end_ignored.
Qed.

Lemma get_conversation_some (i : Z) (s : Store) (c : Conversation.t) :
  get_conversation i s = Some c -> In c (conversations s) /\ Conversation.id c = i.
Proof.
  unfold get_conversation. intro H. apply find_some in H as [H1 H2].
  split; [exact H1 | now apply Z.eqb_eq].
Qed.

Lemma new_conversation_post_end (env : Env) (form : new_conversation_form)
    (db : Store) (n : nat) :
  transition db (committed (snd (new_conversation_post env form (mkWorld db db n [])))).
Proof.
  unfold new_conversation_post.
  destruct (strip (or_empty (form_contact_number form))) as [|x raw]; [apply t_unchanged|].
  destruct (normalize_chat_id (x :: raw)) as [chat|e]; [|destruct e; apply t_unchanged].
  unfold bind at 1, query at 1. cbn [working].
  destruct (find_conversation (Some chat) db) as [c|] eqn:Ef; [apply t_unchanged|].
  unfold bind at 1 2 3, utcnow at 1 2, add_conversation, bind at 1 2, query at 1,
    execute at 1, ret at 1.
  cbn [committed working ticks flashes].
  destruct (strip (or_empty (form_initial_message form))) as [|y text] eqn:Ei.
  - unfold bind, commit, flash, ret. cbn [committed working ticks flashes fst snd].
    now apply (t_created db chat).
  - destruct (send_and_read_id env chat (y :: text)) as [v|e].
    + unfold bind at 1, utcnow at 1. cbn [committed working ticks flashes].
      unfold bind at 1, lift at 1.
      destruct (bind_text v) as [ext|e]; [|apply t_unchanged].
      unfold add_message, bind, query, execute, commit, flash, ret.
      cbn [committed working ticks flashes fst snd].
      apply (t_first_message db chat); [exact Ef | discriminate].
    + destruct e; apply t_unchanged.
Qed.

Lemma conversation_detail_post_end (env : Env) (i : Z) (form : conversation_form)
    (db : Store) (n : nat) :
  transition db (committed (snd (conversation_detail_post env i form (mkWorld db db n [])))).
Proof.
  unfold conversation_detail_post, get_or_404.
  unfold bind at 1 2, query at 1. cbn [working].
  destruct (get_conversation i db) as [c|] eqn:Eg; [|apply t_unchanged].
  unfold ret at 1.
  destruct (strip (or_empty (message form))) as [|y text].
  { unfold abort. destruct (abort_codes 400); apply t_unchanged. }
  unfold bind at 1.
  destruct (send_and_read_id env (Conversation.contact_number c) (y :: text)) as [v|e].
  2: { destruct e; unfold abort; destruct (abort_codes _); apply t_unchanged. }
  unfold ret at 1. unfold bind at 1 2 3, utcnow, execute at 1.
  cbn [committed working ticks flashes].
  unfold bind at 1, lift at 1.
  destruct (bind_text v) as [ext|e]; [|apply t_unchanged].
  unfold add_message, bind, query, execute, commit, ret.
  cbn [committed working ticks flashes fst snd].
  apply get_conversation_some in Eg as [Hin _].
  apply (t_posted db c); [exact Hin | discriminate].
Qed.

Lemma view_end (env : Env) (r : request) (db : Store) (n : nat) :
  transition db (committed (snd (view env r (mkWorld db db n [])))).
Proof.
  destruct r; cbn [view].
  - apply t_unchanged.
  - unfold conversation_detail_get, get_or_404, bind, query, ret. cbn [working].
    destruct (get_conversation conversation_id db); apply t_unchanged.
  - apply conversation_detail_post_end.
  - apply t_unchanged.
  - apply new_conversation_post_end.
  - apply green_webhook_end.
  - apply t_unchanged.
Qed.

Lemma serve_transition (env : Env) (json_only : bool) (r : request) (sv : Server) :
  transition (database sv) (database (after (serve env json_only r sv))).
Proof.
  unfold serve.
  pose proof (view_end env r (database sv) (readings sv)) as H.
  destruct (view env r _) as [o w]. exact H.
Qed.

(** ** The shape of a step *)

Lemma conversation_keys_updated (i : Z) (d : datetime) (s : Store) :
  map conversation_key (conversations (update_updated_at i d s))
  = map conversation_key (conversations s).
Proof.
  simpl. rewrite map_map. apply map_ext. intro c.
  now destruct (Conversation.id c =? i)%Z.
Qed.

Lemma message_keys_sent (i : Z) (d : datetime) (l : list Message.t) :
  map message_key
      (map (fun m => if (Message.id m =? i)%Z then Message.set_sent_at m d else m) l)
  = map message_key l.
Proof. rewrite map_map. apply map_ext. intro m. now destruct (Message.id m =? i)%Z. Qed.

Lemma ids_of_keys (l : list Conversation.t) :
  map Conversation.id l = map Conversation.id (map conversation_key l).
Proof. rewrite map_map. now apply map_ext. Qed.

Lemma message_ids_of_keys (l : list Message.t) :
  map Message.id l = map Message.id (map message_key l).
Proof. rewrite map_map. now apply map_ext. Qed.

Lemma resolve_conversations (chat : pystr) (name : option pystr) (t : datetime) (s : Store) :
  exists cs,
    conversations (snd (resolve chat name t s)) = conversations s ++ cs /\
    (List.length cs <= 1)%nat /\
    (forall c, In c cs -> Conversation.id c = next_id (map Conversation.id (conversations s))) /\
    In (resolved chat s) (map Conversation.id (conversations s ++ cs)).
Proof.
  unfold resolved, resolve. destruct (find_conversation (Some chat) s) as [c|] eqn:E;
    cbn [fst snd conversations insert_conversation].
  - exists []. rewrite app_nil_r. repeat split; [simpl; lia | intros ? [] |].
    apply find_conversation_some in E as [E _]. now apply in_map.
  - eexists [_]. repeat split; [simpl; lia | now intros c [<-|[]] |].
    rewrite map_app. apply in_or_app. right. now left.
Qed.

Lemma incoming_effect_keys
    (chat : pystr) (name : option pystr) (text : pystr) (ext : option pystr)
    (t now : datetime) (s : Store) :
  map conversation_key (conversations (incoming_effect chat name text ext t now s))
  = map conversation_key (conversations (snd (resolve chat name t s))).
Proof.
  unfold incoming_effect. pose proof (resolve_fst chat name t s) as H.
  destruct (resolve chat name t s) as [cid s1]. cbn [fst snd] in *.
  cbn [conversations insert_message]. apply conversation_keys_updated.
Qed.

Lemma outgoing_effect_keys
    (chat text : pystr) (ext : option pystr) (t now : datetime) (s : Store) :
  map conversation_key (conversations (outgoing_effect chat text ext t now s))
  = map conversation_key (conversations (snd (resolve chat (Some chat) t s))).
Proof.
  unfold outgoing_effect. destruct (resolve chat (Some chat) t s) as [cid s1].
  cbn [fst snd]. rewrite conversation_keys_updated.
  now destruct (latest_message ext cid s1).
Qed.

Ltac shape := unfold extends, one_step; split; [split | split; [|split; [|split]]].

Lemma step_extends (s s' : Store) :
  transition s s' -> exists cs ms, extends s s' cs ms /\ one_step s s' cs ms.
Proof.
  intros [ | chat name text ext t now Ht | chat text ext t now Hc Ht
         | chat name created updated Hf | chat name created updated text ext sent Hf Ht
         | c text ext sent now Hc Ht ].
  - exists [], []. shape; try (now rewrite app_nil_r); try (simpl; lia); intros ? [].
  - destruct (resolve_conversations chat name t s) as (cs & Hcs & Hlen & Hid & Hin).
    exists cs, [Message.mk (next_id (map Message.id (messages s))) (resolved chat s)
                  customer text t ext].
    shape.
    + now rewrite incoming_effect_keys, Hcs, map_app.
    + now rewrite incoming_effect_messages, map_app.
    + exact Hlen.
    + simpl; lia.
    + exact Hid.
    + intros m [<-|[]]. cbn [Message.id Message.message_text Message.conversation_id].
      repeat split; [exact Ht|].
      rewrite ids_of_keys, incoming_effect_keys, <- ids_of_keys, Hcs. exact Hin.
  - destruct (resolve_conversations chat (@Some pystr chat) t s)
      as (cs & Hcs & Hlen & Hid & Hin).
    assert (In (resolved chat s)
              (map Conversation.id (conversations (outgoing_effect chat text ext t now s))))
      as Hin' by (rewrite ids_of_keys, outgoing_effect_keys, <- ids_of_keys, Hcs; exact Hin).
    pose proof (outgoing_effect_messages chat text ext t now s) as Hm.
    destruct (latest_message ext (resolved chat s) s) as [m|].
    + exists cs, []. shape.
      * now rewrite outgoing_effect_keys, Hcs, map_app.
      * now rewrite Hm, message_keys_sent, app_nil_r.
      * exact Hlen.
      * simpl; lia.
      * exact Hid.
      * intros ? [].
    + exists cs, [Message.mk (next_id (map Message.id (messages s))) (resolved chat s)
                    agent text t ext].
      shape.
      * now rewrite outgoing_effect_keys, Hcs, map_app.
      * now rewrite Hm, map_app.
      * exact Hlen.
      * simpl; lia.
      * exact Hid.
      * intros m [<-|[]]. cbn [Message.id Message.message_text Message.conversation_id].
        repeat split; [exact Ht | exact Hin'].
  - eexists [_], []. unfold created_effect. shape;
      cbn [messages conversations insert_conversation].
    + now rewrite map_app.
    + now rewrite app_nil_r.
    + simpl; lia.
    + simpl; lia.
    + now intros c [<-|[]].
    + intros ? [].
  - eexists [_], [_]. unfold first_message_effect, created_effect. cbv zeta. shape;
      cbn [messages conversations insert_conversation insert_message].
    + now rewrite map_app.
    + now rewrite map_app.
    + simpl; lia.
    + simpl; lia.
    + now intros c [<-|[]].
    + intros m [<-|[]]. cbn [Message.id Message.message_text Message.conversation_id].
      repeat split; [exact Ht|]. rewrite map_app. apply in_or_app. right. now left.
  - eexists [], [_]. unfold posted_effect. cbv zeta. shape.
    + cbn [conversations insert_message].
      now rewrite conversation_keys_updated, app_nil_r.
    + cbn [messages insert_message update_updated_at]. now rewrite map_app.
    + simpl; lia.
    + simpl; lia.
    + intros ? [].
    + intros m [<-|[]]. cbn [Message.id Message.message_text Message.conversation_id
        messages update_updated_at].
      repeat split; [exact Ht|].
      rewrite ids_of_keys. cbn [conversations insert_message].
      rewrite conversation_keys_updated, <- ids_of_keys. now apply in_map.
Qed.

Lemma extends_conversation_ids (s s' : Store) (cs : list Conversation.t)
    (ms : list Message.t) :
  extends s s' cs ms ->
  map Conversation.id (conversations s')
  = map Conversation.id (conversations s) ++ map Conversation.id cs.
Proof.
  intros [H _]. rewrite (ids_of_keys (conversations s')), H, map_app.
  now rewrite <- !ids_of_keys.
Qed.

Lemma extends_message (s s' : Store) (cs : list Conversation.t) (ms : list Message.t)
    (m' : Message.t) :
  extends s s' cs ms -> In m' (messages s') ->
  exists m, (In m (messages s) \/ In m ms) /\ message_key m = message_key m'.
Proof.
  intros [_ H] Hin. apply (in_map message_key) in Hin. rewrite H in Hin.
  apply in_app_or in Hin as [Hin|Hin]; apply in_map_iff in Hin as (m & Hm & Hin); eauto.
Qed.

Lemma step_unique_conversation_ids (s s' : Store) :
  transition s s' -> unique_conversation_ids s -> unique_conversation_ids s'.
Proof.
  intros Ht Hu. destruct (step_extends s s' Ht) as (cs & ms & He & Hlen & _ & Hid & _).
  unfold unique_conversation_ids. rewrite (extends_conversation_ids s s' cs ms He).
  destruct cs as [|c [|c' cs]]; simpl in *; [now rewrite app_nil_r | | lia].
  apply NoDup_snoc; [exact Hu|]. rewrite (Hid c (or_introl eq_refl)). apply next_id_fresh.
Qed.

Lemma step_texts_nonempty (s s' : Store) :
  transition s s' -> texts_nonempty s -> texts_nonempty s'.
Proof.
  intros Ht Hn m' Hin.
  destruct (step_extends s s' Ht) as (cs & ms & He & _ & _ & _ & Hm).
  destruct (extends_message s s' cs ms m' He Hin) as (m & [Hold|Hnew] & Hk).
  - apply (f_equal Message.message_text) in Hk. cbn in Hk. rewrite <- Hk. now apply Hn.
  - apply (f_equal Message.message_text) in Hk. cbn in Hk. rewrite <- Hk.
    now apply (Hm m Hnew).
Qed.

Lemma step_messages_owned (s s' : Store) :
  transition s s' -> messages_owned s -> messages_owned s'.
Proof.
  intros Ht Ho m' Hin.
  destruct (step_extends s s' Ht) as (cs & ms & He & _ & _ & _ & Hm).
  destruct (extends_message s s' cs ms m' He Hin) as (m & [Hold|Hnew] & Hk).
  - apply (f_equal Message.conversation_id) in Hk. cbn in Hk. rewrite <- Hk.
    rewrite (extends_conversation_ids s s' cs ms He). apply in_or_app. left. now apply Ho.
  - apply (f_equal Message.conversation_id) in Hk. cbn in Hk. rewrite <- Hk.
    now apply (Hm m Hnew).
Qed.

Lemma run_steps (I : Store -> Prop) :
  (forall s s', transition s s' -> I s -> I s') ->
  forall trace sv, I (database sv) -> I (database (run trace sv)).
Proof.
  intros Hstep trace. induction trace as [|[[env j] r] trace IH]; intros sv H; simpl;
    [exact H|].
  apply IH. apply (Hstep (database sv)); [apply serve_transition | exact H].
Qed.

(** Every request keeps the rows of both tables, in their order and with
    every column but [sent_at] and [updated_at], and adds at most one
    conversation and one message, each with the next id of its table; the
    message it adds has a text and an existing conversation. *)
Theorem requests_only_append (env : Env) (json_only : bool) (r : request) (sv : Server) :
  let stored := database (after (serve env json_only r sv)) in
  exists cs ms, extends (database sv) stored cs ms /\ one_step (database sv) stored cs ms.
Proof. apply step_extends, serve_transition. Qed.

(** The primary key of [conversations] stays a key along every run. *)
Theorem unique_conversation_ids_invariant
    (trace : list (Env * bool * request)) (sv : Server) :
  unique_conversation_ids (database sv) ->
  unique_conversation_ids (database (run trace sv)).
Proof. apply run_steps. exact step_unique_conversation_ids. Qed.

(** No run stores a message with an empty text. *)
Theorem texts_nonempty_invariant (trace : list (Env * bool * request)) (sv : Server) :
  texts_nonempty (database sv) -> texts_nonempty (database (run trace sv)).
Proof. apply run_steps. exact step_texts_nonempty. Qed.

(** Along every run each message belongs to a conversation of the store. *)
Theorem messages_owned_invariant (trace : list (Env * bool * request)) (sv : Server) :
  messages_owned (database sv) -> messages_owned (database (run trace sv)).
Proof. apply run_steps. exact step_messages_owned. Qed.

(** The webhook answers JSON, with status 200 or 500 and no other, whatever
    the body and the state of the database. *)
Theorem webhook_answers (env : Env) (json_only : bool) (body : option json) (sv : Server) :
  let served := serve env json_only (PostWebhook body) sv in
  (exists v, answer served = (Jsonify v, 200%Z)) \/
  answer served = (ErrorJson 500%Z, 500%Z).
Proof.
  unfold serve. cbn [view is_webhook]. rewrite orb_true_r.
  destruct (green_webhook_end env body (database sv) (readings sv)) as [_ H].
  destruct (green_webhook env body _) as [[[b code]|e] w]; cbn [fst answer webhook_answer] in *.
  - destruct b; try contradiction. subst code. left. eauto.
  - right. now apply handle_errors_500.
Qed.

(** ** The conversation service on its good paths *)

Lemma serve_posted
    (env : Env) (json_only : bool) (i : Z) (form : conversation_form) (sv : Server)
    (c : Conversation.t) (v : json) (ext : option pystr) :
  get_conversation i (database sv) = Some c ->
  strip (or_empty (message form)) <> [] ->
  send_and_read_id env (Conversation.contact_number c) (strip (or_empty (message form)))
  = Ok v ->
  bind_text v = Ok ext ->
  serve env json_only (PostConversation i form) sv
  = mkServed (Redirect (Conversation.id c), 302%Z) []
      (mkServer
         (posted_effect (Conversation.id c) (strip (or_empty (message form))) ext
            (clock env (readings sv)) (clock env (S (readings sv))) (database sv))
         (S (S (readings sv)))).
Proof.
  intros Hc Hm Hs Hb.
  unfold serve, view, conversation_detail_post, get_or_404.
  unfold bind at 1 2, query at 1. cbn [working]. rewrite Hc. unfold ret at 1.
  destruct (strip (or_empty (message form))) as [|y text]; [congruence|].
  rewrite Hs. unfold bind at 1, ret at 1.
  unfold bind at 1 2 3, utcnow, execute at 1. cbn [committed working ticks flashes].
  unfold bind at 1, lift at 1. rewrite Hb.
  unfold add_message, bind, query, execute, commit, ret.
  cbn [committed working ticks flashes]. reflexivity.
Qed.

Lemma posted_effect_conversation (c : Conversation.t) (text : pystr) (ext : option pystr)
    (sent now : datetime) (s : Store) (n : option pystr) :
  find_conversation n s = Some c ->
  find_conversation n (posted_effect (Conversation.id c) text ext sent now s)
  = Some (Conversation.set_updated_at c now).
Proof.
  intro H. unfold posted_effect. cbv zeta.
  now apply (find_conversation_updated n (Conversation.id c) now s c).
Qed.

(** Posting to a conversation when the gateway accepts: one message of
    sender type [agent] is appended with the id the answer gave, the
    conversation's [updated_at] is the second reading of the clock, and the
    thread of the conversation then shows the message. *)
Theorem conversation_detail_posts
    (env : Env) (json_only : bool) (i : Z) (form : conversation_form) (sv : Server)
    (c : Conversation.t) (v : json) (ext : option pystr) :
  get_conversation i (database sv) = Some c ->
  strip (or_empty (message form)) <> [] ->
  send_and_read_id env (Conversation.contact_number c) (strip (or_empty (message form)))
  = Ok v ->
  bind_text v = Ok ext ->
  let served := serve env json_only (PostConversation i form) sv in
  let posted :=
    Message.mk (next_id (map Message.id (messages (database sv)))) (Conversation.id c)
      agent (strip (or_empty (message form))) (clock env (readings sv)) ext in
  answer served = (Redirect (Conversation.id c), 302%Z) /\
  messages (database (after served)) = messages (database sv) ++ [posted] /\
  get_conversation i (database (after served))
  = Some (Conversation.set_updated_at c (clock env (S (readings sv)))) /\
  In posted (thread_rows c (database (after served))).
Proof.
  intros Hc Hm Hs Hb served posted. subst served.
  rewrite (serve_posted env json_only i form sv c v ext Hc Hm Hs Hb).
  cbn [answer after database]. split; [reflexivity|]. split; [reflexivity|]. split.
  - unfold posted_effect, get_conversation. cbn [conversations insert_message
      update_updated_at].
    destruct (get_conversation_some i (database sv) c Hc) as [_ Hi].
    unfold get_conversation in Hc. rewrite find_map, Hc.
    + simpl. now rewrite Z.eqb_refl.
    + intro x. now destruct (Conversation.id x =? Conversation.id c)%Z.
  - apply thread_rows_in. split; [|reflexivity].
    unfold posted_effect. cbn [messages insert_message update_updated_at].
    apply in_or_app. right. now left.
Qed.

Lemma outgoing_after_append
    (chat text : pystr) (ext : option pystr) (t now : datetime) (s s' : Store)
    (new : Message.t) :
  messages s' = messages s ++ [new] ->
  Message.id new = next_id (map Message.id (messages s)) ->
  Message.conversation_id new = resolved chat s' ->
  (forall m, In m (messages s) -> ~ belongs ext (resolved chat s') m) ->
  messages (outgoing_effect chat text ext t now s')
  = if column_matches (Message.external_id new) ext
    then messages s ++ [Message.set_sent_at new t]
    else messages s ++
         [new; Message.mk (next_id (map Message.id (messages s'))) (resolved chat s')
                 agent text t ext].
Proof.
  intros Hm Hid Hcid Hnone. rewrite outgoing_effect_messages.
  assert (filter (in_thread ext (resolved chat s')) (messages s) = []) as Hf.
  { apply greatest_nil. apply latest_message_none in Hnone. exact Hnone. }
  unfold latest_message. rewrite Hm, filter_app, Hf. cbn [filter app].
  unfold in_thread at 1. rewrite Hcid, Z.eqb_refl, andb_true_r.
  destruct (column_matches (Message.external_id new) ext).
  - cbn [greatest]. rewrite map_app. cbn [map]. rewrite Z.eqb_refl. f_equal.
    rewrite <- (map_id (messages s)) at 2. apply map_ext_in. intros x Hx.
    destruct (Z.eqb_spec (Message.id x) (Message.id new)) as [E|_]; [|reflexivity].
    destruct (next_id_fresh (map Message.id (messages s))).
    rewrite <- Hid, <- E. now apply in_map.
  - cbn [greatest]. now rewrite <- app_assoc.
Qed.

(** The echo of a message the operator posted, the strings of the echo
    being free of lone surrogates.  When the gateway's answer
    to the send had the content type "application/json" and carried the
    id, the echo with that id moves [sent_at] and adds no row.  When the
    content type was anything else, the message was stored without id, and
    the echo is stored as a second message. *)
Theorem echo_after_post
    (env env' : Env) (json_only json_only' : bool) (i : Z) (form : conversation_form)
    (sv : Server) (c : Conversation.t) (response : http_response)
    (body : option json) (e text' : pystr) (timestamp : json) (t : datetime) :
  let chat := Conversation.contact_number c in
  let text := strip (or_empty (message form)) in
  let posted := serve env json_only (PostConversation i form) sv in
  let echoed := serve env' json_only' (PostWebhook body) (after posted) in
  let first ext :=
    Message.mk (next_id (map Message.id (messages (database sv)))) (Conversation.id c)
      agent text (clock env (readings sv)) ext in
  get_conversation i (database sv) = Some c ->
  find_conversation (Some chat) (database sv) = Some c ->
  text <> [] ->
  send_whatsapp_message env chat text = Ok response ->
  (forall m, In m (messages (database sv)) -> ~ belongs (Some e) (Conversation.id c) m) ->
  event_of_type (payload_of body) OUTGOING ->
  outgoing_carries (payload_of body) (JStr chat) (JStr text') ->
  chat <> [] -> text' <> [] ->
  encodable chat = true -> encodable text' = true -> encodable e = true ->
  get (payload_of body) (py "idMessage") = Ok (JStr e) ->
  get (payload_of body) (py "timestamp") = Ok timestamp ->
  event_time env' timestamp (readings (after posted)) = Ok t ->
  (content_type response = Some (py "application/json") ->
   (exists data, json_body response = Some data /\
                 get data (py "idMessage") = Ok (JStr e)) ->
   messages (database (after echoed))
   = messages (database sv) ++ [Message.set_sent_at (first (Some e)) t]) /\
  (content_type response <> Some (py "application/json") ->
   messages (database (after echoed))
   = messages (database sv) ++
     [first None;
      Message.mk (next_id (map Message.id (messages (database sv) ++ [first None])))
        (Conversation.id c) agent text' t (Some e)]).
Proof.
  intros chat text posted echoed first Hc Hf Htext Hsend Hnone Ht Hcar Hchat Htext'
    Hec Hex Hee Hid Hts Htime.
  assert (forall v ext,
            send_and_read_id env chat text = Ok v -> bind_text v = Ok ext ->
            messages (database (after echoed))
            = if column_matches ext (Some e)
              then messages (database sv) ++ [Message.set_sent_at (first ext) t]
              else messages (database sv) ++
                   [first ext;
                    Message.mk (next_id (map Message.id (messages (database sv) ++ [first ext])))
                      (Conversation.id c) agent text' t (Some e)]) as Hgen.
  { intros v ext Hv Hb. subst echoed posted.
    revert Htime.
    rewrite (serve_posted env json_only i form sv c v ext Hc Htext Hv Hb).
    cbn [after database readings]. intro Htime.
    rewrite (serve_outgoing env' json_only' body _ chat text' (JStr e) timestamp (Some e) t)
      by (try assumption; solve [now apply bind_text_str | intros _; assumption]).
    cbn [after database readings].
    set (s' := posted_effect (Conversation.id c) text ext (clock env (readings sv))
                 (clock env (S (readings sv))) (database sv)).
    assert (resolved chat s' = Conversation.id c) as Hr.
    { unfold resolved, resolve, s'.
      now rewrite (posted_effect_conversation c text ext _ _ (database sv) (Some chat) Hf). }
    assert (messages s' = messages (database sv) ++ [first ext]) as Hm by reflexivity.
    rewrite (outgoing_after_append chat text' (Some e) t _ (database sv) s' (first ext) Hm
               eq_refl (eq_sym Hr)) by (now rewrite Hr).
    rewrite Hr, Hm. reflexivity. }
  destruct (read_id_cases env chat text response Hsend) as [Hother Hjson]. split.
  - intros Hct (data & Hdata & Hget).
    rewrite (Hgen (JStr e) (Some e));
      [|now rewrite (Hjson Hct), Hdata | now apply bind_text_str].
    cbn [column_matches]. now rewrite str_eqb_refl.
  - intro Hct. now rewrite (Hgen JNull None (Hother Hct) eq_refl).
Qed.

(** Creating a conversation for a number that has none: one conversation
    is inserted under the normalized number, with the initial message as
    its first message when there is one and the gateway accepts it; the
    caller is sent to the new conversation, and so is whoever asks for the
    same number afterwards. *)
Theorem new_conversation_creates
    (env : Env) (json_only : bool) (form : new_conversation_form) (sv : Server)
    (chat : pystr) :
  let name :=
    match strip (or_empty (form_contact_name form)) with
    | [] => None
    | n => Some n
    end in
  let text := strip (or_empty (form_initial_message form)) in
  let served := serve env json_only (PostNewConversation form) sv in
  let cid := next_id (map Conversation.id (conversations (database sv))) in
  let created :=
    Conversation.mk cid chat name (clock env (readings sv)) (clock env (S (readings sv))) in
  normalize_chat_id (strip (or_empty (form_contact_number form))) = Ok chat ->
  find_conversation (Some chat) (database sv) = None ->
  (text = [] \/ exists v ext, send_and_read_id env chat text = Ok v /\ bind_text v = Ok ext) ->
  answer served = (Redirect cid, 302%Z) /\
  flashed served = [(Created, success)] /\
  conversations (database (after served)) = conversations (database sv) ++ [created] /\
  (text = [] -> messages (database (after served)) = messages (database sv)) /\
  (forall v ext,
     text <> [] -> send_and_read_id env chat text = Ok v -> bind_text v = Ok ext ->
     messages (database (after served))
     = messages (database sv) ++
       [Message.mk (next_id (map Message.id (messages (database sv)))) cid agent text
          (clock env (S (S (readings sv)))) ext]) /\
  (forall env' json_only' form',
     normalize_chat_id (strip (or_empty (form_contact_number form'))) = Ok chat ->
     serve env' json_only' (PostNewConversation form') (after served)
     = mkServed (Redirect cid, 302%Z) [(AlreadyExists, info)] (after served)).
Proof.
  intros name text served cid created Hn Hf Hsend.
  assert (exists ms n,
            served = mkServed (Redirect cid, 302%Z) [(Created, success)]
                       (mkServer (mkStore (conversations (database sv) ++ [created])
                                          (messages (database sv) ++ ms)) n) /\
            (text = [] -> ms = []) /\
            (forall v ext,
               text <> [] -> send_and_read_id env chat text = Ok v ->
               bind_text v = Ok ext ->
               ms = [Message.mk (next_id (map Message.id (messages (database sv)))) cid
                       agent text (clock env (S (S (readings sv)))) ext]))
    as (ms & n & Hserved & Hnone & Hsome).
  { subst served. unfold serve, view, new_conversation_post. fold name text.
    destruct (strip (or_empty (form_contact_number form))) as [|x raw]; [discriminate|].
    rewrite Hn. unfold bind at 1, query at 1. cbn [working]. rewrite Hf.
    unfold bind at 1 2 3, utcnow at 1 2, add_conversation, bind at 1 2, query at 1,
      execute at 1, ret at 1.
    cbn [committed working ticks flashes]. fold cid. fold created.
    destruct Hsend as [Hempty | (v & ext & Hv & Hb)].
    - rewrite Hempty. unfold bind, commit, flash, ret.
      cbn [committed working ticks flashes]. exists [], (S (S (readings sv))).
      rewrite app_nil_r. split; [reflexivity|]. split; [reflexivity|].
      intros ? ? H. congruence.
    - destruct text as [|y text'] eqn:Et.
      + unfold bind, commit, flash, ret.
        cbn [committed working ticks flashes]. exists [], (S (S (readings sv))).
        rewrite app_nil_r. split; [reflexivity|]. split; [reflexivity|].
        intros ? ? H. congruence.
      + rewrite Hv. unfold bind at 1, utcnow at 1. cbn [committed working ticks flashes].
        unfold bind at 1, lift at 1. rewrite Hb.
        unfold add_message, bind, query, execute, commit, flash, ret.
        cbn [committed working ticks flashes messages insert_conversation].
        eexists [_], _. split; [reflexivity|]. split; [discriminate|].
        intros v' ext' _ Hv' Hb'.
        assert (v' = v) as -> by congruence. assert (ext' = ext) as -> by congruence.
        reflexivity. }
  rewrite Hserved. cbn [answer flashed after database conversations messages].
  split; [reflexivity|]. split; [reflexivity|]. split; [reflexivity|].
  split; [intro H; now rewrite (Hnone H), app_nil_r|].
  split; [intros v ext H1 H2 H3; now rewrite (Hsome v ext H1 H2 H3)|].
  intros env' json_only' form' Hn'.
  unfold serve, view, new_conversation_post.
  destruct (strip (or_empty (form_contact_number form'))) as [|x raw]; [discriminate|].
  rewrite Hn'. unfold bind, query, flash, ret. cbn [working database].
  unfold find_conversation. cbn [conversations].
  rewrite (find_snoc _ _ created Hf) by (simpl; apply str_eqb_refl).
  reflexivity.
Qed.

(** ** Requests that store nothing *)

(** [new_conversation] with a number that is empty, or has neither "@" nor
    a digit: the form is shown again with a notice of category [danger],
    nothing is stored and the clock is not read. *)
Theorem new_conversation_rejects
    (env : Env) (json_only : bool) (form : new_conversation_form) (sv : Server) :
  let raw := strip (or_empty (form_contact_number form)) in
  let page := (RenderTemplate new_conversation_html, 200%Z) in
  (raw = [] ->
   serve env json_only (PostNewConversation form) sv
   = mkServed page [(NumberRequired, danger)] sv) /\
  (raw <> [] -> contains AT raw = false -> filter isdigit raw = [] ->
   serve env json_only (PostNewConversation form) sv
   = mkServed page [(BadNumber NoDigits, danger)] sv).
Proof.
  intros raw page. destruct sv as [db n].
  unfold serve, view, new_conversation_post. fold raw. split.
  - intros ->. reflexivity.
  - intros Hne Hat Hd. rewrite (normalize_digits raw Hat), Hd.
    destruct raw as [|x raw']; [congruence | reflexivity].
Qed.

(** [conversation_detail] for an id that is not a conversation's answers
    404, and a POST whose message is empty or white space answers 400 (500
    when werkzeug has no exception for 400); in both cases nothing is stored
    and the clock is not read. *)
Theorem conversation_detail_rejects
    (env : Env) (json_only : bool) (i : Z) (form : conversation_form) (sv : Server) :
  let served := serve env json_only (PostConversation i form) sv in
  (get_conversation i (database sv) = None ->
   after served = sv /\ snd (answer served) = 404%Z) /\
  (forall c,
     get_conversation i (database sv) = Some c -> strip (or_empty (message form)) = [] ->
     after served = sv /\
     snd (answer served) = if abort_codes 400 then 400%Z else 500%Z).
Proof.
  intro served. subst served. destruct sv as [db n].
  unfold serve, view, conversation_detail_post, get_or_404, bind, query, ret, raise.
  cbn [working database]. split.
  - intros ->. cbn. split; [reflexivity | now destruct (json_only || false)].
  - intros c -> ->. unfold abort, raise.
    destruct (abort_codes 400); cbn; (split; [reflexivity | now destruct (json_only || false)]).
Qed.

(** ** The first outgoing event of a chat *)

(** An outgoing event for a chat id without conversation, chat id and text
    being strings free of lone surrogates, creates one conversation, named
    after the chat id, and one message of sender type [agent]; the messages
    of the store are those of its conversations. *)
Theorem outgoing_first_contact
    (env : Env) (json_only : bool) (body : option json) (sv : Server)
    (chat text : pystr) (external_id timestamp : json) (ext : option pystr)
    (t : datetime) :
  event_of_type (payload_of body) OUTGOING ->
  outgoing_carries (payload_of body) (JStr chat) (JStr text) ->
  chat <> [] -> text <> [] ->
  encodable chat = true -> encodable text = true ->
  get (payload_of body) (py "idMessage") = Ok external_id ->
  bind_text external_id = Ok ext ->
  get (payload_of body) (py "timestamp") = Ok timestamp ->
  event_time env timestamp (readings sv) = Ok t ->
  find_conversation (Some chat) (database sv) = None ->
  messages_owned (database sv) ->
  let stored := database (after (serve env json_only (PostWebhook body) sv)) in
  let cid := next_id (map Conversation.id (conversations (database sv))) in
  conversations stored
  = conversations (database sv) ++
    [Conversation.mk cid chat (Some chat) t (clock env (reads_of timestamp (readings sv)))] /\
  messages stored
  = messages (database sv) ++
    [Message.mk (next_id (map Message.id (messages (database sv)))) cid agent text t ext].
Proof.
  intros Ht Hc Hchat Htext Hec Hex Hid Hext Hts Htime Hnone Howned stored cid. subst stored.
  rewrite (serve_outgoing env json_only body sv chat text external_id timestamp ext t)
    by (try assumption; intros _; assumption).
  cbn [after database].
  assert (latest_message ext cid (database sv) = None) as Hnew.
  { apply latest_message_none. intros x Hx [_ Hb].
    apply (next_id_fresh (map Conversation.id (conversations (database sv)))).
    fold cid. rewrite <- Hb. now apply Howned. }
  split.
  - unfold outgoing_effect, resolve. rewrite Hnone. fold cid.
    replace (latest_message ext cid (insert_conversation _ (database sv))) with (@None Message.t)
      by (symmetry; exact Hnew).
    cbn [conversations insert_message update_updated_at insert_conversation].
    rewrite map_app. simpl. rewrite Z.eqb_refl. f_equal.
    rewrite <- (map_id (conversations (database sv))) at 2. apply map_ext_in.
    intros x Hx. destruct (Z.eqb_spec (Conversation.id x) cid) as [E|_]; [|reflexivity].
    destruct (next_id_fresh (map Conversation.id (conversations (database sv)))).
    fold cid. rewrite <- E. now apply in_map.
  - rewrite outgoing_effect_messages. unfold resolved, resolve. rewrite Hnone.
    cbn [fst]. fold cid. now rewrite Hnew.
Qed.

(** ** A text that SQLite cannot take *)

(** An incoming event whose text holds a lone surrogate passes the test of
    the text and fails when the text is bound: the request ends in a 500
    and the database is as before, whatever the rest of the event. *)
Theorem incoming_lone_surrogate_fails
    (env : Env) (json_only : bool) (body : option json) (sv : Server)
    (text : pystr) (chat_id sender_name : json) :
  event_of_type (payload_of body) INCOMING ->
  incoming_carries (payload_of body) (JStr text) chat_id sender_name ->
  encodable text = false ->
  let served := serve env json_only (PostWebhook body) sv in
  answer served = (ErrorJson 500%Z, 500%Z) /\ database (after served) = database sv.
Proof.
  intros Ht (md & td & sd & Hmd & Htd & Htext & Hsd & Hchat & Hname) Hen served.
  assert (truthy (JStr text) = true) as Htruthy by (now destruct text).
  subst served. unfold serve. simpl view.
  rewrite (green_webhook_incoming env body _ Ht), orb_true_r.
  unfold event_of_type in Ht.
  destruct (payload_of body) as [| | | | |kv]; try discriminate.
  unfold handle_incoming_message, bind, lift.
  rewrite Hmd, Hsd, Htd, Htext, Htruthy, Hchat, Hname.
  change (negb true) with false. cbv beta iota.
  destruct (get (JObj kv) (py "idMessage")) as [ext|] eqn:Eid; [|discriminate].
  destruct (get (JObj kv) (py "timestamp")) as [ts|] eqn:Ets; [|discriminate].
  rewrite sent_at_of_eq. cbn [committed working ticks flashes].
  destruct (event_time env ts (readings sv)) as [t|e] eqn:Et.
  2: { cbn [fst snd committed answer after database].
       split; [|reflexivity].
       now apply handle_errors_500, (event_time_server_error _ _ _ _ Et). }
  destruct (resolve_conversation_cases chat_id (py_or sender_name chat_id) t
              (mkWorld (database sv) (database sv) (reads_of ts (readings sv)) []))
    as [(e & -> & He) | (chat & name & c & _ & -> & _)].
  - cbn [fst snd committed answer after database].
    split; [now apply handle_errors_500 | reflexivity].
  - unfold utcnow, execute, bind_required, and_then.
    cbn [committed working ticks flashes bind_text]. rewrite Hen.
    cbn [fst snd committed answer after database]. split; reflexivity.
Qed.

(** ** The dashboard after a message *)

Lemma bumped_leads (i : Z) (now : datetime) (s : Store) :
  (exists c, In c (conversations s) /\ Conversation.id c = i) ->
  (forall c, In c (conversations s) -> Conversation.id c <> i ->
             (Conversation.updated_at c < now)%Z) ->
  exists h,
    hd_error (dashboard_rows (update_updated_at i now s)) = Some h /\
    Conversation.id h = i /\ Conversation.updated_at h = now.
Proof.
  intros (c & Hc & Hi) Hold. unfold dashboard_rows.
  set (le := fun a b => (Conversation.updated_at b <=? Conversation.updated_at a)%Z).
  set (rows := conversations (update_updated_at i now s)).
  assert (In (Conversation.set_updated_at c now) rows) as Hin.
  { unfold rows. cbn [conversations update_updated_at].
    apply in_map_iff. exists c. split; [|exact Hc]. now rewrite Hi, Z.eqb_refl. }
  destruct (hd_error (sort_by le rows)) as [h|] eqn:Eh.
  2: { pose proof (sort_by_perm le rows) as Hp. destruct (sort_by le rows); [|discriminate].
       apply Permutation_sym, Permutation_nil in Hp. rewrite Hp in Hin. destruct Hin. }
  exists h. split; [reflexivity|].
  apply sort_by_head in Eh as [Hh Hmax].
  2: { intros a b. unfold le. rewrite !Z.leb_le. lia. }
  2: { intros a b d. unfold le. rewrite !Z.leb_le. lia. }
  specialize (Hmax _ Hin). unfold le in Hmax. apply Z.leb_le in Hmax. cbn in Hmax.
  unfold rows in Hh. cbn [conversations update_updated_at] in Hh.
  apply in_map_iff in Hh as (x & <- & Hx).
  destruct (Z.eqb_spec (Conversation.id x) i) as [E|E].
  - now split.
  - specialize (Hold x Hx E). lia.
Qed.

(** After an incoming message is stored (chat id and text free of lone
    surrogates), its conversation is the first row of the dashboard,
    provided the clock read at receipt is later than the [updated_at] of
    every other conversation. *)
Theorem incoming_moves_to_top
    (env : Env) (json_only : bool) (body : option json) (sv : Server)
    (chat text : pystr) (sender_name external_id timestamp : json)
    (name ext : option pystr) (t : datetime) :
  event_of_type (payload_of body) INCOMING ->
  incoming_carries (payload_of body) (JStr text) (JStr chat) sender_name ->
  text <> [] ->
  encodable chat = true -> encodable text = true ->
  bind_text (py_or sender_name (JStr chat)) = Ok name ->
  get (payload_of body) (py "idMessage") = Ok external_id ->
  bind_text external_id = Ok ext ->
  get (payload_of body) (py "timestamp") = Ok timestamp ->
  event_time env timestamp (readings sv) = Ok t ->
  (forall c, In c (conversations (database sv)) ->
             Conversation.id c <> resolved chat (database sv) ->
             (Conversation.updated_at c < clock env (reads_of timestamp (readings sv)))%Z) ->
  exists first,
    hd_error (dashboard_rows (database (after (serve env json_only (PostWebhook body) sv))))
    = Some first /\
    Conversation.id first = resolved chat (database sv) /\
    Conversation.updated_at first = clock env (reads_of timestamp (readings sv)).
Proof.
  intros Ht Hc Htext Hec Hex Hn Hid Hext Hts Htime Hold.
  rewrite (serve_incoming env json_only body sv chat text sender_name external_id
             timestamp name ext t) by assumption.
  cbn [after database]. unfold incoming_effect.
  pose proof (resolve_fst chat name t (database sv)) as Hfst.
  destruct (resolve_found chat name t (database sv)) as (c & Hfind & Hcid).
  assert (forall x, In x (conversations (snd (resolve chat name t (database sv)))) ->
                    Conversation.id x <> resolved chat (database sv) ->
                    In x (conversations (database sv))) as Hothers.
  { unfold resolved, resolve.
    destruct (find_conversation (Some chat) (database sv));
      cbn [fst snd conversations insert_conversation]; [tauto|].
    intros x Hx Hne. apply in_app_or in Hx as [Hx|[<-|[]]]; [exact Hx|].
    now destruct Hne. }
  destruct (resolve chat name t (database sv)) as [cid s1]. cbn [fst snd] in *. subst cid.
  unfold dashboard_rows. cbn [conversations insert_message].
  apply (bumped_leads (resolved chat (database sv)) _ s1).
  - exists c. split; [|exact Hcid]. now apply find_conversation_some in Hfind as [H _].
  - intros x Hx Hne. apply Hold; [|exact Hne]. now apply Hothers.
Qed.

End Inbox.

(** * The properties on concrete runs *)

(** ** Normalization *)

Lemma sample_digit_not_space (c : N) :
  sample_isdigit_hi c = true -> sample_isspace_hi c = false.
Proof.
  unfold sample_isdigit_hi, sample_isspace_hi. intro H.
  repeat (apply orb_true_iff in H as [H|H]).
  1-3: apply N.eqb_eq in H; subst c; reflexivity.
  apply andb_true_iff in H as [H1 H2]. apply N.leb_le in H1. apply N.leb_le in H2.
  repeat (apply orb_false_iff; split);
    first [apply N.eqb_neq; lia | apply andb_false_iff; left; apply N.leb_gt; lia].
Qed.

Lemma normalize_chat_id_cases_witness :
  let n := normalize_chat_id sample_isdigit_hi sample_isspace_hi in
  let x := py " +34 600 11 22 33 " in
  contains AT x = false /\ n x = Ok (py "34600112233@c.us") /\
  n (py "123@c.us") = Ok (py "123@c.us").
Proof.
  pose proof (normalize_chat_id_cases sample_isdigit_hi sample_isspace_hi
                sample_digit_not_space (py " +34 600 11 22 33 "))
    as (_ & _ & _ & H & _ & H' & _).
  split; [reflexivity|]. split; [|exact H'].
  apply H; [reflexivity | discriminate].
Defined.

(** An identifier with an "@" and white space around it is not returned
    as it came. *)
Lemma normalize_chat_id_strips_at :
  contains AT (py " 123@c.us") = true /\
  normalize_chat_id sample_isdigit_hi sample_isspace_hi (py " 123@c.us")
    = Ok (py "123@c.us") /\
  normalize_chat_id sample_isdigit_hi sample_isspace_hi (py " 123@c.us")
    <> Ok (py " 123@c.us").
Proof. repeat split; [discriminate]. Qed.

Lemma normalize_chat_id_idempotent_witness :
  normalize_chat_id sample_isdigit_hi sample_isspace_hi (py "+52 55 1234 5678")
    = Ok (py "525512345678@c.us") /\
  normalize_chat_id sample_isdigit_hi sample_isspace_hi (py "525512345678@c.us")
    = Ok (py "525512345678@c.us").
Proof.
  split; [reflexivity|].
  apply (normalize_chat_id_idempotent sample_isdigit_hi sample_isspace_hi
           sample_digit_not_space (py "+52 55 1234 5678")).
  reflexivity.
Defined.

(** ** The application with the tables of the examples *)

Local Open Scope Z_scope.

Local Abbreviation serve' := (serve sample_isdigit_hi sample_isspace_hi sample_abort_codes).
Local Abbreviation run' := (run sample_isdigit_hi sample_isspace_hi sample_abort_codes).

Lemma outgoing_deduplicates_witness :
  let first := outgoing_event "34600112233@c.us" "hola" (JStr (py "BAE5F4"))
                 (JInt 1700000100) in
  let second := outgoing_event "34600112233@c.us" "hola" (JStr (py "BAE5F4"))
                  (JInt 1700000160) in
  let once := after (serve' sample_env true (PostWebhook first) pristine) in
  let twice := after (serve' sample_env true (PostWebhook second) once) in
  messages (database once)
  = [Message.mk 1 1 agent (py "hola") 1700000100000000 (Some (py "BAE5F4"))] /\
  messages (database twice)
  = [Message.mk 1 1 agent (py "hola") 1700000160000000 (Some (py "BAE5F4"))].
Proof.
  intros first second once twice.
  pose proof (outgoing_deduplicates sample_isdigit_hi sample_isspace_hi sample_abort_codes
                sample_env true first pristine (py "34600112233@c.us") (py "hola")
                (py "BAE5F4") (JInt 1700000100) 1700000100000000) as H.
  specialize (H eq_refl).
  specialize (H (ex_intro _ _ (conj eq_refl (conj eq_refl eq_refl)))).
  specialize (H ltac:(discriminate) ltac:(discriminate) eq_refl eq_refl eq_refl).
  specialize (H eq_refl eq_refl eq_refl).
  specialize (H (NoDup_nil _)).
  destruct H as (_ & _ & _ & H). destruct H as [H1 H2]; [intros m []|].
  split; [exact H1|].
  apply (H2 sample_env true second (py "hola") (JInt 1700000160) 1700000160000000);
    try reflexivity; try discriminate.
  exact (ex_intro _ _ (conj eq_refl (conj eq_refl eq_refl))).
Defined.

Lemma outgoing_without_id_merges_witness :
  let first := outgoing_event "34600112233@c.us" "uno" JNull (JInt 1700000100) in
  let second := outgoing_event "34600112233@c.us" "dos" JNull (JInt 1700000160) in
  let once := after (serve' sample_env true (PostWebhook first) pristine) in
  let twice := after (serve' sample_env true (PostWebhook second) once) in
  messages (database twice)
  = [Message.mk 1 1 agent (py "uno") 1700000160000000 None].
Proof.
  intros first second once twice.
  pose proof (outgoing_without_id_merges sample_isdigit_hi sample_isspace_hi
                sample_abort_codes sample_env true first pristine
                (py "34600112233@c.us") (py "uno") (JInt 1700000100) 1700000100000000)
    as H.
  specialize (H eq_refl).
  specialize (H (ex_intro _ _ (conj eq_refl (conj eq_refl eq_refl)))).
  specialize (H ltac:(discriminate) ltac:(discriminate) eq_refl eq_refl).
  specialize (H eq_refl eq_refl eq_refl).
  specialize (H (NoDup_nil _)).
  destruct H as (_ & H).
  apply (H ltac:(intros m []) sample_env true second (py "dos") (JInt 1700000160)
           1700000160000000);
    try reflexivity; try discriminate.
  exact (ex_intro _ _ (conj eq_refl (conj eq_refl eq_refl))).
Defined.

Lemma incoming_times_witness :
  let event := incoming_event (JStr (py "34600112233@c.us")) "hola" "A1"
                 (JInt 1700000100) in
  let stored := database (after (serve' sample_env true (PostWebhook event) pristine)) in
  messages stored
  = [Message.mk 1 1 customer (py "hola") 1700000100000000 (Some (py "A1"))] /\
  conversations stored
  = [Conversation.mk 1 (py "34600112233@c.us") (Some (py "Ana"))
       1700000100000000 1700000000000000].
Proof.
  intros event stored.
  pose proof (incoming_times sample_isdigit_hi sample_isspace_hi sample_abort_codes
                sample_env true event pristine (py "34600112233@c.us") (py "hola")
                (JStr (py "Ana")) (JStr (py "A1")) (JInt 1700000100)
                (Some (py "Ana")) (Some (py "A1")) 1700000100000000) as H.
  specialize (H eq_refl).
  specialize (H (ex_intro _ _ (ex_intro _ _ (ex_intro _ _
                  (conj eq_refl (conj eq_refl (conj eq_refl
                    (conj eq_refl (conj eq_refl eq_refl))))))))).
  specialize (H ltac:(discriminate) eq_refl eq_refl).
  specialize (H eq_refl eq_refl eq_refl eq_refl eq_refl).
  destruct H as (_ & H & _). split; [exact H | reflexivity].
Defined.

(** An incoming event whose timestamp is 0 is stored with the time of its
    receipt, not with the epoch. *)
Lemma incoming_timestamp_zero :
  messages (database (after (serve' sample_env true
     (PostWebhook (incoming_event (JStr (py "34600112233@c.us")) "hola" "A1" (JInt 0)))
     pristine)))
  = [Message.mk 1 1 customer (py "hola") (sample_clock 0%nat) (Some (py "A1"))] /\
  utcfromtimestamp (JInt 0) = Ok 0%Z /\
  sample_clock 0%nat <> 0%Z.
Proof. repeat split. discriminate. Qed.

Lemma incoming_without_chat_id_fails_witness :
  let event := incoming_event JNull "hola" "A1" (JInt 1700000100) in
  let served := serve' sample_env false (PostWebhook event) pristine in
  answer served = (ErrorJson 500%Z, 500%Z) /\ database (after served) = empty_store.
Proof.
  intros event served.
  pose proof (incoming_without_chat_id_fails sample_isdigit_hi sample_isspace_hi
                sample_abort_codes sample_env false event pristine
                (JStr (py "hola")) (JStr (py "Ana"))) as H.
  specialize (H eq_refl).
  specialize (H (ex_intro _ _ (ex_intro _ _ (ex_intro _ _
                  (conj eq_refl (conj eq_refl (conj eq_refl
                    (conj eq_refl (conj eq_refl eq_refl))))))))).
  specialize (H eq_refl).
  destruct H as (H1 & H2 & _). split; [exact H1 | exact H2].
Defined.

Lemma outgoing_status_changes_nothing_witness :
  let event := outgoing_event "34600112233@c.us" "hola" (JStr (py "BAE5F4"))
                 (JInt 1700000100) in
  let sv := after (serve' sample_env true (PostWebhook event) pristine) in
  let known := serve' sample_env true (PostWebhook (status_event "BAE5F4" "delivered")) sv in
  let unknown := serve' sample_env true (PostWebhook (status_event "0000" "delivered")) sv in
  after known = sv /\
  answer known
  = (Jsonify (status_detail (py "acknowledged") (JStr (py "delivered"))), 200) /\
  after unknown = sv /\
  answer unknown = ignored "Mensaje desconocido".
Proof.
  intros event sv known unknown.
  destruct (outgoing_status_changes_nothing sample_isdigit_hi sample_isspace_hi
              sample_abort_codes sample_env true (status_event "BAE5F4" "delivered") sv
              eq_refl) as (H1 & st1 & Hs1 & Hv1).
  destruct (outgoing_status_changes_nothing sample_isdigit_hi sample_isspace_hi
              sample_abort_codes sample_env true (status_event "0000" "delivered") sv
              eq_refl) as (H2 & st2 & Hs2 & Hv2).
  injection Hs1 as <-. injection Hs2 as <-.
  destruct (Hv1 _ eq_refl) as [_ Hk1]. destruct (Hv2 _ eq_refl) as [_ Hk2].
  destruct (Hk1 (py "BAE5F4")) as [Hknown _];
    [left; repeat split; discriminate|].
  destruct (Hk2 (py "0000")) as [_ Hunknown];
    [left; repeat split; discriminate|].
  split; [exact H1|]. split.
  - apply Hknown. eexists. split; [left; reflexivity | reflexivity].
  - split; [exact H2|]. apply Hunknown.
    intros (m & [<-|[]] & Hm). discriminate Hm.
Defined.

Lemma new_conversation_send_failure_witness :
  let form := mkNewForm (Some (py " +34 600 11 22 33 ")) (Some (py "Ana"))
                (Some (py "hola")) in
  serve' unconfigured_env false (PostNewConversation form) pristine
  = mkServed (RenderTemplate new_conversation_html, 200%Z)
      [(InitialSendFailed RuntimeError, danger)] (mkServer empty_store 2%nat).
Proof.
  intro form.
  pose proof (new_conversation_send_failure sample_isdigit_hi sample_isspace_hi
                sample_abort_codes unconfigured_env false form pristine
                (py "34600112233@c.us") RuntimeError) as H.
  specialize (H eq_refl eq_refl ltac:(discriminate) eq_refl).
  exact (proj2 H).
Defined.

Lemma unique_contacts_invariant_witness :
  let chat := "34600112233@c.us"%string in
  let form := mkNewForm (Some (py "+34 600 11 22 33")) (Some (py "Ana")) None in
  let trace :=
    [(sample_env, true,
      PostWebhook (incoming_event (JStr (py chat)) "hola" "A1" (JInt 1700000100)));
     (sample_env, false, PostNewConversation form);
     (sample_env, true,
      PostWebhook (outgoing_event chat "buenas" (JStr (py "B2")) (JInt 1700000160)));
     (sample_env, false, PostNewConversation form)] in
  unique_contacts (database (run' trace pristine)) /\
  map Conversation.contact_number (conversations (database (run' trace pristine)))
  = [py chat].
Proof.
  intros chat form trace. split; [|reflexivity].
  exact (proj1 (unique_contacts_invariant sample_isdigit_hi sample_isspace_hi
                  sample_abort_codes trace pristine (NoDup_nil _))).
Defined.

(** The operator creates a conversation with a first message, which the
    gateway answers with the id BAE5F4; the echo of that message through
    the webhook adds no row and moves [sent_at] to the time of the echo. *)
Lemma local_send_then_echo :
  let form := mkNewForm (Some (py "+34 600 11 22 33")) None (Some (py "hola")) in
  let echo := outgoing_event "34600112233@c.us" "hola" (JStr (py "BAE5F4"))
                (JInt 1700000160) in
  let sent := after (serve' sample_env false (PostNewConversation form) pristine) in
  let echoed := after (serve' sample_env true (PostWebhook echo) sent) in
  messages (database sent)
  = [Message.mk 1 1 agent (py "hola") (sample_clock 2) (Some (py "BAE5F4"))] /\
  messages (database echoed)
  = [Message.mk 1 1 agent (py "hola") 1700000160000000 (Some (py "BAE5F4"))].
Proof. split; reflexivity. Qed.

Lemma conversation_detail_send_failure_witness :
  let form := mkNewForm (Some (py "+34 600 11 22 33")) None None in
  let sv := after (serve' sample_env false (PostNewConversation form) pristine) in
  let served :=
    serve' unconfigured_env false (PostConversation 1 (mkConversationForm (Some (py "hola"))))
      sv in
  after served = sv /\ snd (answer served) = 500.
Proof.
  intros form sv served.
  exact (conversation_detail_send_failure sample_isdigit_hi sample_isspace_hi
           sample_abort_codes unconfigured_env false 1
           (mkConversationForm (Some (py "hola"))) sv
           (Conversation.mk 1 (py "34600112233@c.us") None (sample_clock 0) (sample_clock 1))
           RuntimeError eq_refl ltac:(discriminate) eq_refl).
Defined.

Lemma incoming_first_contact_witness :
  let event := incoming_event (JStr (py "1@c.us")) "hola" "A1" JNull in
  let stored := database (after (serve' sample_env true (PostWebhook event) pristine)) in
  conversations stored
  = [Conversation.mk 1 (py "1@c.us") (Some (py "Ana")) (sample_clock 0) (sample_clock 1)] /\
  messages stored
  = [Message.mk 1 1 customer (py "hola") (sample_clock 0) (Some (py "A1"))].
Proof.
  intros event stored.
  pose proof (incoming_first_contact sample_isdigit_hi sample_isspace_hi sample_abort_codes
                sample_env true event pristine (py "1@c.us") (py "hola")
                (JStr (py "Ana")) (JStr (py "A1")) JNull
                (Some (py "Ana")) (Some (py "A1")) (sample_clock 0)) as H.
  specialize (H eq_refl).
  specialize (H (ex_intro _ _ (ex_intro _ _ (ex_intro _ _
                  (conj eq_refl (conj eq_refl (conj eq_refl
                    (conj eq_refl (conj eq_refl eq_refl))))))))).
  specialize (H ltac:(discriminate) eq_refl eq_refl).
  specialize (H eq_refl eq_refl eq_refl eq_refl eq_refl eq_refl).
  exact H.
Defined.


(** ** The gateway client and the template filters *)

Lemma chat_display_normalized_witness :
  normalize_chat_id sample_isdigit_hi sample_isspace_hi (py "+34 600 11 22 33")
  = Ok (py "34600112233@c.us") /\
  chat_display (Some (py "34600112233@c.us")) = py "34600112233".
Proof.
  split; [reflexivity|].
  exact (chat_display_normalized sample_isdigit_hi sample_isspace_hi sample_digit_not_space
           (py "+34 600 11 22 33") (py "34600112233@c.us") eq_refl eq_refl).
Defined.

Lemma send_whatsapp_message_request_witness :
  let send := send_whatsapp_message sample_isdigit_hi sample_isspace_hi strict_env in
  send (py "+34 600 11 22 33") (py "hola") = Ok (mkResponse 200 None None) /\
  send (py "34600112233@c.us") (py "hola") = send (py "+34 600 11 22 33") (py "hola").
Proof.
  intro send.
  pose proof (send_whatsapp_message_request sample_isdigit_hi sample_isspace_hi
                sample_digit_not_space strict_env (py "+34 600 11 22 33")
                (py "34600112233@c.us") (py "hola") (py "1101") (py "d75b3a")
                eq_refl eq_refl eq_refl) as [H1 H2].
  split; [exact H1 | exact H2].
Defined.

Lemma send_and_read_id_header_witness :
  send_and_read_id sample_isdigit_hi sample_isspace_hi sample_env
    (py "34600112233@c.us") (py "hola")
  = Ok (JStr (py "BAE5F4")).
Proof.
  exact (proj2 (send_and_read_id_header sample_isdigit_hi sample_isspace_hi sample_env
                  (py "34600112233@c.us") (py "hola")
                  (mkResponse 200 (Some (py "application/json"))
                     (Some (JObj [(py "idMessage", JStr (py "BAE5F4"))])))
                  eq_refl)
               eq_refl).
Defined.

(** ** Runs of the application *)

Lemma unique_conversation_ids_invariant_witness :
  unique_conversation_ids (database (run' sample_trace pristine)) /\
  map Conversation.id (conversations (database (run' sample_trace pristine))) = [1; 2].
Proof.
  split; [|reflexivity].
  exact (unique_conversation_ids_invariant sample_isdigit_hi sample_isspace_hi
           sample_abort_codes sample_trace pristine (NoDup_nil _)).
Defined.

Lemma texts_nonempty_invariant_witness :
  texts_nonempty (database (run' sample_trace pristine)) /\
  map Message.message_text (messages (database (run' sample_trace pristine)))
  = [py "hola"; py "buenas"; py "claro"].
Proof.
  split; [|reflexivity].
  exact (texts_nonempty_invariant sample_isdigit_hi sample_isspace_hi
           sample_abort_codes sample_trace pristine (fun m (H : In m []) => match H with end)).
Defined.

Lemma messages_owned_invariant_witness :
  messages_owned (database (run' sample_trace pristine)) /\
  map Message.conversation_id (messages (database (run' sample_trace pristine)))
  = [1; 2; 1].
Proof.
  split; [|reflexivity].
  exact (messages_owned_invariant sample_isdigit_hi sample_isspace_hi
           sample_abort_codes sample_trace pristine (fun m (H : In m []) => match H with end)).
Defined.



(** ** The operator's pages *)

Lemma conversation_detail_posts_witness :
  let form := mkNewForm (Some (py "+34 600 11 22 33")) None None in
  let sv := after (serve' sample_env false (PostNewConversation form) pristine) in
  let served :=
    serve' sample_env false (PostConversation 1 (mkConversationForm (Some (py " hola "))))
      sv in
  answer served = (Redirect 1, 302) /\
  messages (database (after served))
  = [Message.mk 1 1 agent (py "hola") (sample_clock 2) (Some (py "BAE5F4"))] /\
  conversations (database (after served))
  = [Conversation.mk 1 (py "34600112233@c.us") None (sample_clock 0) (sample_clock 3)].
Proof.
  intros form sv served.
  pose proof (conversation_detail_posts sample_isdigit_hi sample_isspace_hi
                sample_abort_codes sample_env false 1
                (mkConversationForm (Some (py " hola "))) sv
                (Conversation.mk 1 (py "34600112233@c.us") None (sample_clock 0)
                   (sample_clock 1))
                (JStr (py "BAE5F4")) (Some (py "BAE5F4"))
                eq_refl ltac:(discriminate) eq_refl eq_refl) as (H1 & H2 & _).
  split; [exact H1|]. split; [exact H2 | reflexivity].
Defined.

Lemma echo_after_post_witness :
  let form := mkNewForm (Some (py "+34 600 11 22 33")) None None in
  let sv := after (serve' sample_env false (PostNewConversation form) pristine) in
  let posted :=
    serve' sample_env false (PostConversation 1 (mkConversationForm (Some (py "hola")))) sv in
  let echo := outgoing_event "34600112233@c.us" "hola" (JStr (py "BAE5F4"))
                (JInt 1700000160) in
  messages (database (after (serve' sample_env true (PostWebhook echo) (after posted))))
  = [Message.mk 1 1 agent (py "hola") 1700000160000000 (Some (py "BAE5F4"))].
Proof.
  intros form sv posted echo.
  pose proof (echo_after_post sample_isdigit_hi sample_isspace_hi sample_abort_codes
                sample_env sample_env false true 1
                (mkConversationForm (Some (py "hola"))) sv
                (Conversation.mk 1 (py "34600112233@c.us") None (sample_clock 0)
                   (sample_clock 1))
                (mkResponse 200 (Some (py "application/json"))
                   (Some (JObj [(py "idMessage", JStr (py "BAE5F4"))])))
                echo (py "BAE5F4") (py "hola") (JInt 1700000160) 1700000160000000) as H.
  cbv zeta in H.
  specialize (H eq_refl eq_refl ltac:(discriminate) eq_refl ltac:(intros m []) eq_refl).
  specialize (H (ex_intro _ _ (conj eq_refl (conj eq_refl eq_refl)))).
  specialize (H ltac:(discriminate) ltac:(discriminate) eq_refl eq_refl eq_refl).
  specialize (H eq_refl eq_refl eq_refl).
  exact (proj1 H eq_refl (ex_intro _ _ (conj eq_refl eq_refl))).
Defined.

Lemma new_conversation_creates_witness :
  let form := mkNewForm (Some (py " +34 600 11 22 33 ")) (Some (py "Ana"))
                (Some (py "hola")) in
  let served := serve' sample_env false (PostNewConversation form) pristine in
  answer served = (Redirect 1, 302) /\
  conversations (database (after served))
  = [Conversation.mk 1 (py "34600112233@c.us") (Some (py "Ana"))
       (sample_clock 0) (sample_clock 1)] /\
  messages (database (after served))
  = [Message.mk 1 1 agent (py "hola") (sample_clock 2) (Some (py "BAE5F4"))] /\
  serve' sample_env false (PostNewConversation form) (after served)
  = mkServed (Redirect 1, 302) [(AlreadyExists, info)] (after served).
Proof.
  intros form served.
  pose proof (new_conversation_creates sample_isdigit_hi sample_isspace_hi
                sample_abort_codes sample_env false form pristine
                (py "34600112233@c.us")) as H.
  cbv zeta in H.
  specialize (H eq_refl eq_refl).
  specialize (H (or_intror (ex_intro _ (JStr (py "BAE5F4"))
                   (ex_intro _ (Some (py "BAE5F4")) (conj eq_refl eq_refl))))).
  destruct H as (H1 & _ & H2 & _ & H3 & H4).
  split; [exact H1|]. split; [exact H2|].
  split; [exact (H3 _ _ ltac:(discriminate) eq_refl eq_refl)|].
  exact (H4 sample_env false form eq_refl).
Defined.

Lemma new_conversation_rejects_witness :
  serve' sample_env false
    (PostNewConversation (mkNewForm (Some (py " n/a ")) (Some (py "Ana")) (Some (py "hola"))))
    pristine
  = mkServed (RenderTemplate new_conversation_html, 200)
      [(BadNumber NoDigits, danger)] pristine.
Proof.
  exact (proj2 (new_conversation_rejects sample_isdigit_hi sample_isspace_hi
                  sample_digit_not_space sample_abort_codes sample_env false
                  (mkNewForm (Some (py " n/a ")) (Some (py "Ana")) (Some (py "hola")))
                  pristine)
               ltac:(discriminate) eq_refl eq_refl).
Defined.

(** Two customers write; a second message of the first one brings its
    conversation back to the top of the dashboard. *)
Lemma incoming_moves_to_top_witness :
  let event chat text id := PostWebhook (incoming_event (JStr (py chat)) text id JNull) in
  let first := after (serve' sample_env true (event "34600112233@c.us" "hola" "A1")%string pristine) in
  let second := after (serve' sample_env true (event "34600445566@c.us" "buenas" "A2")%string first) in
  let third := after (serve' sample_env true (event "34600112233@c.us" "otra" "A3")%string second) in
  map Conversation.contact_number (dashboard_rows (database second))
  = [py "34600445566@c.us"; py "34600112233@c.us"] /\
  exists top,
    hd_error (dashboard_rows (database third)) = Some top /\
    Conversation.id top = 1 /\ Conversation.updated_at top = sample_clock 5.
Proof.
  intros event first second third. split; [reflexivity|].
  refine (incoming_moves_to_top sample_isdigit_hi sample_isspace_hi sample_abort_codes
            sample_env true (incoming_event (JStr (py "34600112233@c.us")) "otra" "A3" JNull)
            second (py "34600112233@c.us") (py "otra")
            (JStr (py "Ana")) (JStr (py "A3")) JNull
            (Some (py "Ana")) (Some (py "A3")) (sample_clock 4)
            eq_refl
            (ex_intro _ _ (ex_intro _ _ (ex_intro _ _
               (conj eq_refl (conj eq_refl (conj eq_refl
                 (conj eq_refl (conj eq_refl eq_refl))))))))
            ltac:(discriminate) eq_refl eq_refl eq_refl eq_refl eq_refl eq_refl eq_refl _).
  intros c [<-|[<-|[]]] Hne; [now destruct Hne | reflexivity].
Defined.


Lemma outgoing_first_contact_witness :
  let event := outgoing_event "34600112233@c.us" "hola" (JStr (py "B1")) JNull in
  let stored := database (after (serve' sample_env true (PostWebhook event) pristine)) in
  conversations stored
  = [Conversation.mk 1 (py "34600112233@c.us") (Some (py "34600112233@c.us"))
       (sample_clock 0) (sample_clock 1)] /\
  messages stored
  = [Message.mk 1 1 agent (py "hola") (sample_clock 0) (Some (py "B1"))].
Proof.
  intros event stored.
  exact (outgoing_first_contact sample_isdigit_hi sample_isspace_hi sample_abort_codes
           sample_env true event pristine (py "34600112233@c.us") (py "hola")
           (JStr (py "B1")) JNull (Some (py "B1")) (sample_clock 0)
           eq_refl (ex_intro _ _ (conj eq_refl (conj eq_refl eq_refl)))
           ltac:(discriminate) ltac:(discriminate) eq_refl eq_refl
           eq_refl eq_refl eq_refl eq_refl eq_refl
           (fun m (H : In m []) => match H with end)).
Defined.

(** ** What SQLite is handed *)

Example bind_text_values :
  bind_text (JStr (py "BAE5F4")) = Ok (Some (py "BAE5F4")) /\
  bind_text (JStr [55357%N]) = Raise UnicodeEncodeError /\
  bind_text JNull = Ok None /\
  bind_text (JInt 34600112233) = Ok (Some (py "34600112233")) /\
  bind_text (JInt (-7)) = Ok (Some (py "-7")) /\
  bind_text (JInt 0) = Ok (Some (py "0")) /\
  bind_text (JInt 9223372036854775808) = Raise OverflowError /\
  bind_text (JBool true) = Ok (Some (py "1")) /\
  bind_text (JArr []) = Raise InterfaceError.
Proof. repeat split. Qed.

Lemma incoming_lone_surrogate_fails_witness :
  let served := serve' sample_env true (PostWebhook lone_surrogate_event) pristine in
  answer served = (ErrorJson 500, 500) /\ database (after served) = empty_store.
Proof.
  exact (incoming_lone_surrogate_fails sample_isdigit_hi sample_isspace_hi sample_abort_codes
           sample_env true lone_surrogate_event pristine (py "hola " ++ [55357%N])
           (JStr (py "34600112233@c.us")) (JStr (py "Ana"))
           eq_refl
           (ex_intro _ _ (ex_intro _ _ (ex_intro _ _
              (conj eq_refl (conj eq_refl (conj eq_refl
                (conj eq_refl (conj eq_refl eq_refl))))))))
           eq_refl).
Defined.
